(** * forex-trade: broker connectivity and market-data layer

    A shallow embedding of [BrokerIntegration] and [MarketDataService]
    (the two classes of the broker / market-data source file), of the
    input validators and of [canCreateBot] of the user model, together
    with the properties the specification states about them and further
    properties the code has.

    JavaScript numbers are IEEE-754 binary64 values: they are modelled by
    Rocq's primitive floats, whose kernel operations are the binary64 ones.
    [Date.now()] values are integral millisecond counts and are modelled
    in [Z]. *)

From Stdlib Require Import ZArith NArith Ascii Floats Bool Lia.
From stdpp Require Import base option list strings countable gmap.

Local Open Scope string_scope.

(** ** JavaScript values *)

Module JS.

(** Primitive values, plus references to the built-in objects of the
    runtime (the members of [Object.prototype]). *)
Inductive jsval : Type :=
| VUndef
| VNull
| VBool (b : bool)
| VNum (x : float)
| VStr (s : string)
| VBuiltin (name : string).

(** ToBoolean. *)
Definition truthy (v : jsval) : bool :=
  match v with
  | VUndef | VNull => false
  | VBool b => b
  | VNum x => negb (PrimFloat.is_zero x || PrimFloat.is_nan x)
  | VStr s => negb (String.eqb s "")
  | VBuiltin _ => true
  end.

(** [a === b]. *)
Definition strict_eq (a b : jsval) : bool :=
  match a, b with
  | VUndef, VUndef | VNull, VNull => true
  | VBool x, VBool y => Bool.eqb x y
  | VNum x, VNum y => PrimFloat.eqb x y
  | VStr s, VStr t => String.eqb s t
  | VBuiltin n, VBuiltin m => String.eqb n m
  | _, _ => false
  end.

(** [a || b]. *)
Definition or_else (a b : jsval) : jsval := if truthy a then a else b.

(** A plain object (prototype [Object.prototype]), seen through its own
    properties. *)
Abbreviation object := (gmap string jsval).

(** The members every plain object inherits from [Object.prototype]
    (ECMAScript, with the legacy accessors of Annex B). [__proto__] reads
    as the prototype itself. *)
Definition Object_prototype : list (string * jsval) :=
  [ ("constructor", VBuiltin "Object");
    ("hasOwnProperty", VBuiltin "Object.prototype.hasOwnProperty");
    ("isPrototypeOf", VBuiltin "Object.prototype.isPrototypeOf");
    ("propertyIsEnumerable", VBuiltin "Object.prototype.propertyIsEnumerable");
    ("toLocaleString", VBuiltin "Object.prototype.toLocaleString");
    ("toString", VBuiltin "Object.prototype.toString");
    ("valueOf", VBuiltin "Object.prototype.valueOf");
    ("__proto__", VBuiltin "Object.prototype");
    ("__defineGetter__", VBuiltin "Object.prototype.__defineGetter__");
    ("__defineSetter__", VBuiltin "Object.prototype.__defineSetter__");
    ("__lookupGetter__", VBuiltin "Object.prototype.__lookupGetter__");
    ("__lookupSetter__", VBuiltin "Object.prototype.__lookupSetter__") ].

Fixpoint assoc (l : list (string * jsval)) (k : string) : option jsval :=
  match l with
  | [] => None
  | (k', v) :: l' => if String.eqb k' k then Some v else assoc l' k
  end.

Definition inherited (k : string) : bool :=
  match assoc Object_prototype k with Some _ => true | None => false end.

(** [o[k]] on an object literal given by its own properties, in source
    order: own property first, then the prototype chain, else
    [undefined]. *)
Definition get_literal (own : list (string * jsval)) (k : string) : jsval :=
  match assoc own k with
  | Some v => v
  | None => default VUndef (assoc Object_prototype k)
  end.

(** [o.k] on a plain object. *)
Definition get_prop (o : object) (k : string) : jsval :=
  match o !! k with
  | Some v => v
  | None => default VUndef (assoc Object_prototype k)
  end.

(** [Object.assign(target, source)]: every own property of [source] is
    written to [target] with an ordinary assignment. Assigning to
    [__proto__] runs the inherited setter, which adds no own property,
    unless [target] already has an own property of that name. *)
Definition Object_assign (target source : object) : object :=
  (if bool_decide (is_Some (target !! "__proto__"))
   then source else delete "__proto__" source) ∪ target.

(** *** Keys of a [Map]

    A [Map] compares keys with SameValueZero: [NaN] equals itself and
    [-0] is the key [+0]. Primitive floats have one [NaN], so a [Map]
    is a finite map over values with [-0] normalised away. Equality of
    floats is decided on their IEEE-754 decomposition. *)

#[global] Instance spec_float_eq_dec : EqDecision spec_float.
Proof. solve_decision. Defined.

#[global] Instance float_eq_dec : EqDecision float :=
  fun x y =>
    match decide (Prim2SF x = Prim2SF y) with
    | left e => left (Prim2SF_inj x y e)
    | right n => right (fun e => n (f_equal Prim2SF e))
    end.

Definition sf_code (x : spec_float)
  : bool + (bool + (unit + bool * positive * Z)) :=
  match x with
  | S754_zero s => inl s
  | S754_infinity s => inr (inl s)
  | S754_nan => inr (inr (inl tt))
  | S754_finite s m e => inr (inr (inr (s, m, e)))
  end.

Definition sf_decode (c : bool + (bool + (unit + bool * positive * Z)))
  : spec_float :=
  match c with
  | inl s => S754_zero s
  | inr (inl s) => S754_infinity s
  | inr (inr (inl _)) => S754_nan
  | inr (inr (inr (s, m, e))) => S754_finite s m e
  end.

#[global] Instance spec_float_countable : Countable spec_float.
Proof. apply (inj_countable' sf_code sf_decode). by intros []. Defined.

#[global] Instance float_countable : Countable float.
Proof.
  apply (inj_countable' Prim2SF SF2Prim). exact SF2Prim_Prim2SF.
Defined.

#[global] Instance jsval_eq_dec : EqDecision jsval.
Proof. solve_decision. Defined.

Definition jsval_code (v : jsval)
  : unit + (unit + (bool + (float + (string + string)))) :=
  match v with
  | VUndef => inl tt
  | VNull => inr (inl tt)
  | VBool b => inr (inr (inl b))
  | VNum x => inr (inr (inr (inl x)))
  | VStr s => inr (inr (inr (inr (inl s))))
  | VBuiltin s => inr (inr (inr (inr (inr s))))
  end.

Definition jsval_decode
  (c : unit + (unit + (bool + (float + (string + string))))) : jsval :=
  match c with
  | inl _ => VUndef
  | inr (inl _) => VNull
  | inr (inr (inl b)) => VBool b
  | inr (inr (inr (inl x))) => VNum x
  | inr (inr (inr (inr (inl s)))) => VStr s
  | inr (inr (inr (inr (inr s)))) => VBuiltin s
  end.

#[global] Instance jsval_countable : Countable jsval.
Proof. apply (inj_countable' jsval_code jsval_decode). by intros []. Defined.

(** Finite (zero, subnormal or normal) in the IEEE-754 decomposition. *)
Definition sf_finite (x : spec_float) : bool :=
  match x with S754_zero _ | S754_finite _ _ _ => true | _ => false end.

(** Below zero: negative and not a zero. *)
Definition sf_negative (x : spec_float) : bool :=
  match x with
  | S754_finite s _ _ | S754_infinity s => s
  | _ => false
  end.

(** Neither negative nor [NaN]. *)
Definition sf_nonneg (x : spec_float) : bool :=
  match x with
  | S754_zero _ => true
  | S754_finite s _ _ | S754_infinity s => negb s
  | S754_nan => false
  end.

Definition map_key (k : jsval) : jsval :=
  match k with
  | VNum x => if PrimFloat.is_zero x then VNum 0 else k
  | _ => k
  end.

Section Map.
Context {V : Type}.

Definition Map_get (m : gmap jsval V) (k : jsval) : option V :=
  m !! map_key k.

Definition Map_set (m : gmap jsval V) (k : jsval) (v : V) : gmap jsval V :=
  <[map_key k := v]> m.

Definition Map_delete (m : gmap jsval V) (k : jsval) : gmap jsval V :=
  delete (map_key k) m.
End Map.

End JS.
Import JS.

(** ** BrokerIntegration *)

Module BrokerIntegration.

(** The three fields [calculateUnrealizedPnL] destructures from a
    position. *)
Record Position : Type := mkPosition {
  side : jsval;
  units : float;
  averagePrice : float
}.

Definition calculateUnrealizedPnL (position : Position) (currentPrice : float)
  : float :=
  if strict_eq (side position) (VStr "BUY")
  then (currentPrice - averagePrice position) * units position
  else (averagePrice position - currentPrice) * units position.

(** *** Order placement *)

(** [orderParams]; an absent property reads [undefined]. *)
Record OrderParams : Type := mkOrderParams {
  p_symbol : jsval;
  p_side : jsval;
  p_units : float;
  p_type : jsval;
  p_price : jsval;
  p_stopLoss : jsval;
  p_takeProfit : jsval
}.

(** [{ price: ... }], the value of [stopLossOnFill] / [takeProfitOnFill]. *)
Record OnFill : Type := mkOnFill { fill_price : jsval }.

(** [orderData.order]; [None] is a property that was never assigned. *)
Record Order : Type := mkOrder {
  o_type : jsval;
  o_instrument : jsval;
  o_units : float;
  o_timeInForce : string;
  o_positionFill : string;
  o_price : option jsval;
  o_stopLossOnFill : option OnFill;
  o_takeProfitOnFill : option OnFill
}.

(** The destructuring default [type = 'MARKET']. *)
Definition type_or_default (t : jsval) : jsval :=
  match t with VUndef => VStr "MARKET" | _ => t end.

(** The payload [placeOandaOrder] builds before posting it. *)
Definition placeOandaOrder_orderData (orderParams : OrderParams) : Order :=
  let type := type_or_default (p_type orderParams) in
  let price := p_price orderParams in
  let stopLoss := p_stopLoss orderParams in
  let takeProfit := p_takeProfit orderParams in
  {| o_type := type;
     o_instrument := p_symbol orderParams;
     o_units := if strict_eq (p_side orderParams) (VStr "BUY")
                then p_units orderParams
                else (- p_units orderParams)%float;
     o_timeInForce := "FOK";
     o_positionFill := "DEFAULT";
     o_price := if strict_eq type (VStr "LIMIT") && truthy price
                then Some price else None;
     o_stopLossOnFill := if truthy stopLoss
                         then Some (mkOnFill stopLoss) else None;
     o_takeProfitOnFill := if truthy takeProfit
                           then Some (mkOnFill takeProfit) else None |}.

(** *** The ledger of a connection

    [connection.positions] and [connection.orders] are [Map]s from ids
    to objects. Objects are mutable and may be shared, so a [Map] holds
    references into a store of objects. *)

Abbreviation loc := nat.
Abbreviation store := (gmap loc object).

(** The part of the state the transaction listeners read and write: the
    store of objects and the two [Map]s of a connection. *)
Record Ledger : Type := mkLedger {
  objects : store;
  positions : gmap jsval loc;
  orders : gmap jsval loc
}.

Definition updatePosition (connection : Ledger) (transactionData : object)
  : Ledger :=
  let positionId := get_prop transactionData "positionId" in
  match Map_get (positions connection) positionId with
  | Some position =>
      {| objects := alter (fun o => Object_assign o transactionData)
                          position (objects connection);
         positions := Map_set (positions connection) positionId position;
         orders := orders connection |}
  | None => connection
  end.

Definition cancelOrder (connection : Ledger) (transactionData : object)
  : Ledger :=
  let orderId := get_prop transactionData "orderId" in
  {| objects := objects connection;
     positions := positions connection;
     orders := Map_delete (orders connection) orderId |}.

Definition handleTransactionUpdate (connection : Ledger) (data : object)
  : Ledger :=
  if strict_eq (get_prop data "type") (VStr "ORDER_FILL")
  then updatePosition connection data
  else if strict_eq (get_prop data "type") (VStr "ORDER_CANCEL")
  then cancelOrder connection data
  else connection.

(** *** Price events *)

Section Numbers.

(** The number a string reads as ([NaN] when it reads as none): the
    runtime's conversion of a string operand of [-] and [*]. *)
Variable StringToNumber : string -> float.

(** The operand of an arithmetic operator, as a number. A built-in is
    an object, and the text of one is no numeral. *)
Definition ToNumber (v : jsval) : float :=
  match v with
  | VUndef => nan
  | VNull => 0
  | VBool b => if b then 1 else 0
  | VNum x => x
  | VStr s => StringToNumber s
  | VBuiltin _ => nan
  end.

(** [{ side, units, averagePrice } = position], with [units] and
    [averagePrice] as the arithmetic of [calculateUnrealizedPnL] reads
    them. *)
Definition position_of (position : object) : Position :=
  {| side := get_prop position "side";
     units := ToNumber (get_prop position "units");
     averagePrice := ToNumber (get_prop position "averagePrice") |}.

(** The callback [handlePriceUpdate] runs on each position. *)
Definition reprice (symbol : jsval) (data : object) (position : object)
  : object :=
  if strict_eq (get_prop position "symbol") symbol
  then
    let position := <["currentPrice" := get_prop data "price"]> position in
    <["unrealizedPnL" :=
        VNum (calculateUnrealizedPnL (position_of position)
                                     (ToNumber (get_prop data "price")))]>
      position
  else position.

(** [connection.positions.forEach] visits the entries of the [Map] one
    after the other. *)
Definition handlePriceUpdate (connection : Ledger) (data : object) : Ledger :=
  let symbol := or_else (get_prop data "instrument") (get_prop data "symbol") in
  {| objects := foldl (fun σ entry => alter (reprice symbol data) entry.2 σ)
                      (objects connection)
                      (map_to_list (positions connection));
     positions := positions connection;
     orders := orders connection |}.

End Numbers.

(** *** Connecting to the broker *)

(** Structured data: response bodies, credentials, account records. *)
#[local] Unset Elimination Schemes.
Inductive json : Type :=
| JPrim (v : jsval)
| JArr (items : list json)
| JObj (fields : list (string * json)).
#[local] Set Elimination Schemes.

Inductive error : Type :=
| OnlyOandaSupported
| UnsupportedBroker (brokerId : jsval)
| AuthenticationFailed
| TypeError
| External (reason : string).

Inductive outcome (A : Type) : Type :=
| Returned (a : A)
| Threw (e : error).
Arguments Returned {A} a.
Arguments Threw {A} e.

Fixpoint jassoc (l : list (string * json)) (k : string) : option json :=
  match l with
  | [] => None
  | (k', v) :: l' => if String.eqb k' k then Some v else jassoc l' k
  end.

(** [j.k] for the names read here ([apiKey], [accounts], [id]): an own
    property of an object, [undefined] elsewhere, a [TypeError] on
    [undefined] and [null]. *)
Definition json_get (j : json) (k : string) : outcome json :=
  match j with
  | JPrim VUndef | JPrim VNull => Threw TypeError
  | JObj fields => Returned (default (JPrim VUndef) (jassoc fields k))
  | JPrim _ | JArr _ => Returned (JPrim VUndef)
  end.

(** [j[0]]. *)
Definition json_first (j : json) : outcome json :=
  match j with
  | JPrim VUndef | JPrim VNull => Threw TypeError
  | JArr items => Returned (default (JPrim VUndef) (head items))
  | JObj fields => Returned (default (JPrim VUndef) (jassoc fields "0"))
  | JPrim (VStr (String c _)) => Returned (JPrim (VStr (String c "")))
  | JPrim _ => Returned (JPrim VUndef)
  end.

Record Response : Type := mkResponse {
  status : Z;
  r_data : json
}.

(** The calls a connection attempt makes to the outside, each with the
    values it interpolates: the two [axios.get] requests, [io], and
    [console.error]. *)
Inductive call : Type :=
| AxiosGetAccounts (baseUrl : jsval) (apiKey : json)
| AxiosGetAccount (baseUrl : jsval) (accountId : json) (apiKey : json)
| Io (streamUrl : jsval) (token : json)
| ConsoleError (brokerId : jsval) (e : error).

Record Connection : Type := mkConnection {
  brokerId : jsval;
  isDemo : jsval;
  baseUrl : jsval;
  streamUrl : jsval;
  credentials : json;
  connected : bool;
  account : json;
  accountInfo : json;
  c_positions : gmap jsval loc;
  c_orders : gmap jsval loc;
  stream : option nat
}.

(** The part of a connection the transaction listeners work on. *)
Definition ledger (σ : store) (connection : Connection) : Ledger :=
  mkLedger σ (c_positions connection) (c_orders connection).

(** [this.connections], the connection objects (a connection is its
    index), the number of sockets [io] has returned, and the calls made
    so far. *)
Record Broker : Type := mkBroker {
  connections : gmap jsval nat;
  sessions : list Connection;
  streams : nat;
  calls : list call
}.

Definition oanda : list (string * jsval) :=
  [ ("name", VStr "OANDA");
    ("baseUrl", VStr "https://api-fxtrade.oanda.com");
    ("streamUrl", VStr "https://stream-fxtrade.oanda.com");
    ("demoUrl", VStr "https://api-fxpractice.oanda.com");
    ("demoStreamUrl", VStr "https://stream-fxpractice.oanda.com") ].

Definition brokers : list (string * list (string * jsval)) :=
  [ ("oanda", oanda) ].

Fixpoint brokers_get (l : list (string * list (string * jsval))) (k : string)
  : option (list (string * jsval)) :=
  match l with
  | [] => None
  | (k', v) :: l' => if String.eqb k' k then Some v else brokers_get l' k
  end.

(** A computation that reads and writes the [Broker] state and either
    returns or throws. *)
Definition M (A : Type) : Type := Broker -> outcome A * Broker.

Definition ret {A} (a : A) : M A := fun w => (Returned a, w).

Definition throw {A} (e : error) : M A := fun w => (Threw e, w).

Definition bind {A B} (m : M A) (k : A -> M B) : M B :=
  fun w =>
    match m w with
    | (Returned a, w') => k a w'
    | (Threw e, w') => (Threw e, w')
    end.

Definition lift {A} (o : outcome A) : M A := fun w => (o, w).

Definition try_catch {A} (body : M A) (handler : error -> M A) : M A :=
  fun w =>
    match body w with
    | (Returned a, w') => (Returned a, w')
    | (Threw e, w') => handler e w'
    end.

#[export] Instance M_ret : MRet M := @ret.
#[export] Instance M_bind : MBind M := fun A B k m => bind m k.

Definition record (c : call) : M unit :=
  fun w => (Returned tt,
            mkBroker (connections w) (sessions w) (streams w) (calls w ++ [c])).

Definition alloc (connection : Connection) : M nat :=
  fun w => (Returned (length (sessions w)),
            mkBroker (connections w) (sessions w ++ [connection])
                     (streams w) (calls w)).

Definition read (connection : nat) : M Connection :=
  fun w =>
    match sessions w !! connection with
    | Some c => (Returned c, w)
    | None => (Threw TypeError, w)
    end.

Definition write (connection : nat) (c : Connection) : M unit :=
  fun w => (Returned tt,
            mkBroker (connections w) (<[connection := c]> (sessions w))
                     (streams w) (calls w)).

Definition connections_set (brokerId : jsval) (connection : nat) : M unit :=
  fun w => (Returned tt,
            mkBroker (Map_set (connections w) brokerId connection)
                     (sessions w) (streams w) (calls w)).

Section Venue.

(** The venue and the network: what [axios.get] and [io] answer to a
    call, given the calls made before it. *)
Variable axios_get : list call -> call -> outcome Response.
Variable io : list call -> call -> outcome unit.

Definition request (c : call) : M Response :=
  fun w => (axios_get (calls w) c,
            mkBroker (connections w) (sessions w) (streams w)
                     (calls w ++ [c])).

Definition open_socket (c : call) : M nat :=
  fun w =>
    match io (calls w) c with
    | Returned _ =>
        (Returned (streams w),
         mkBroker (connections w) (sessions w) (S (streams w))
                  (calls w ++ [c]))
    | Threw e =>
        (Threw e,
         mkBroker (connections w) (sessions w) (streams w)
                  (calls w ++ [c]))
    end.

Definition authenticateOanda (connection : nat) : M unit :=
  c ← read connection;
  apiKey ← lift (json_get (credentials c) "apiKey");
  response ← request (AxiosGetAccounts (baseUrl c) apiKey);
  if negb (status response =? 200)%Z then throw AuthenticationFailed
  else
    accounts ← lift (json_get (r_data response) "accounts");
    first ← lift (json_first accounts);
    write connection
      (mkConnection (brokerId c) (isDemo c) (baseUrl c) (streamUrl c)
         (credentials c) true first (accountInfo c)
         (c_positions c) (c_orders c) (stream c)).

Definition authenticate (connection : nat) : M unit :=
  authenticateOanda connection.

Definition getOandaAccountInfo (connection : nat) : M unit :=
  c ← read connection;
  id ← lift (json_get (account c) "id");
  apiKey ← lift (json_get (credentials c) "apiKey");
  response ← request (AxiosGetAccount (baseUrl c) id apiKey);
  write connection
    (mkConnection (brokerId c) (isDemo c) (baseUrl c) (streamUrl c)
       (credentials c) (connected c) (account c) (r_data response)
       (c_positions c) (c_orders c) (stream c)).

Definition getAccountInfo (connection : nat) : M unit :=
  getOandaAccountInfo connection.

(** [connectOandaStream]: the socket and its three listeners. *)
Definition connectOandaStream (connection : nat) : M unit :=
  c ← read connection;
  token ← lift (json_get (credentials c) "apiKey");
  socket ← open_socket (Io (streamUrl c) token);
  write connection
    (mkConnection (brokerId c) (isDemo c) (baseUrl c) (streamUrl c)
       (credentials c) (connected c) (account c) (accountInfo c)
       (c_positions c) (c_orders c) (Some socket)).

Definition connectToStream (connection : nat) : M unit :=
  connectOandaStream connection.

(** [this.brokers[brokerId]]; past the guard [brokerId] is a string. *)
Definition lookup_broker (brokerId : jsval)
  : M (list (string * jsval)) :=
  match brokerId with
  | VStr s =>
      match brokers_get brokers s with
      | Some broker => ret broker
      | None => throw (UnsupportedBroker brokerId)
      end
  | _ => throw (UnsupportedBroker brokerId)
  end.

(** The object literal [connectToBroker] starts from. *)
Definition new_connection (brokerId : jsval) (credentials : json)
           (isDemo : jsval) (broker : list (string * jsval)) : Connection :=
  {| brokerId := brokerId;
     isDemo := isDemo;
     baseUrl :=
       if truthy isDemo
       then or_else (get_literal broker "demoUrl") (get_literal broker "baseUrl")
       else or_else (get_literal broker "liveUrl") (get_literal broker "baseUrl");
     streamUrl :=
       if truthy isDemo
       then or_else (get_literal broker "demoStreamUrl")
                    (get_literal broker "streamUrl")
       else or_else (get_literal broker "liveStreamUrl")
                    (get_literal broker "streamUrl");
     credentials := credentials;
     connected := false;
     account := JPrim VNull;
     accountInfo := JPrim VUndef;
     c_positions := ∅;
     c_orders := ∅;
     stream := None |}.

(** The default parameter [isDemo = true]. *)
Definition isDemo_or_default (isDemo : jsval) : jsval :=
  match isDemo with VUndef => VBool true | _ => isDemo end.

(** The steps of [connectToBroker] that come before the connection is
    stored: endpoint resolution, authentication, account discovery and
    detail, stream setup. *)
Definition connect_steps (brokerId : jsval) (credentials : json)
           (isDemo : jsval) : M nat :=
  broker ← lookup_broker brokerId;
  connection ← alloc (new_connection brokerId credentials isDemo broker);
  authenticate connection;;
  getAccountInfo connection;;
  connectToStream connection;;
  ret connection.

Definition connectToBroker (brokerId : jsval) (credentials : json)
           (isDemo : jsval) : M nat :=
  let isDemo := isDemo_or_default isDemo in
  if negb (strict_eq brokerId (VStr "oanda")) then throw OnlyOandaSupported
  else
    try_catch
      (connection ← connect_steps brokerId credentials isDemo;
       connections_set brokerId connection;;
       ret connection)
      (fun error => record (ConsoleError brokerId error);; throw error).

(** The state in which the steps of a connection attempt start: the
    new connection object is there, nothing else has happened. *)
Definition started (b : jsval) (c : json) (d : jsval) (w : Broker) : Broker :=
  (alloc (new_connection b c (isDemo_or_default d) oanda) w).2.

End Venue.

(** [disconnect(brokerId)]: the socket on which [disconnect()] is
    called, if there is one, and the state after. A connection is an
    object, hence truthy; its [stream] is a socket or was never set. *)
Definition disconnect (brokerId : jsval) (w : Broker) : option nat * Broker :=
  match Map_get (connections w) brokerId with
  | Some connection =>
      (c ← sessions w !! connection; stream c,
       mkBroker (Map_delete (connections w) brokerId) (sessions w)
                (streams w) (calls w))
  | None => (None, w)
  end.

(** [disconnectAll()]: [disconnect] on every key of [this.connections],
    in the order [brokerIds] in which the [Map] holds them; the sockets
    closed, in that order, and the state after. *)
Definition disconnectAll (brokerIds : list jsval) (w : Broker)
  : list nat * Broker :=
  foldl (fun acc brokerId =>
           let r := disconnect brokerId acc.2 in
           ((acc.1 ++ option_list r.1)%list, r.2))
        ([], w) brokerIds.

(** The address a call goes to. *)
Definition call_url (c : call) : option jsval :=
  match c with
  | AxiosGetAccounts baseUrl _ | AxiosGetAccount baseUrl _ _ => Some baseUrl
  | Io streamUrl _ => Some streamUrl
  | ConsoleError _ _ => None
  end.

(** A computation that leaves [this.connections] alone. *)
Definition keeps_registry {A} (m : M A) : Prop :=
  forall w r w', m w = (r, w') ->
                 connections w'
                 = connections w.

(** A computation that only adds to the calls made. *)
Definition grows {A} (m : M A) : Prop :=
  forall w r w', m w = (r, w') -> exists cs, calls w' = (calls w ++ cs)%list.

(** A venue that authenticates the key and lists no account. *)
Definition venue_no_account (_ : list call) (c : call) : outcome Response :=
  Returned (mkResponse 200 (JObj [("accounts", JArr [])])).

(** A venue that answers every request: one account, and its detail. *)
Definition venue_up (_ : list call) (c : call) : outcome Response :=
  match c with
  | AxiosGetAccounts _ _ =>
      Returned (mkResponse 200
                  (JObj [("accounts",
                          JArr [JObj [("id", JPrim (VStr "001-001"))]])]))
  | _ => Returned (mkResponse 200 (JObj [("account", JObj [])]))
  end.

(** A stream host that never answers: [io()] hands back a socket at
    once, as it does for any address, and the socket never reports
    [connect]. *)
Definition stream_silent (_ : list call) (_ : call) : outcome unit :=
  Returned tt.

(** The state after [connectToBroker('oanda', { apiKey: 'first' })] at a
    venue that is up. *)
Definition connected_once : Broker :=
  (connectToBroker venue_up (fun _ _ => Returned tt) (VStr "oanda")
     (JObj [("apiKey", JPrim (VStr "first"))]) VUndef
     (mkBroker ∅ [] 0 [])).2.

End BrokerIntegration.

(** ** MarketDataService *)

Module MarketDataService.

Definition conversions : list (string * jsval) :=
  [ ("1m", VStr "M1"); ("5m", VStr "M5"); ("15m", VStr "M15");
    ("30m", VStr "M30"); ("1h", VStr "H1"); ("4h", VStr "H4");
    ("1d", VStr "D") ].

Definition convertTimeframe (timeframe : string) : jsval :=
  or_else (get_literal conversions timeframe) (VStr timeframe).

(** The own property names of [conversions]. *)
Definition granularityTokens : list string := conversions.*1.

Definition msMap : list (string * jsval) :=
  [ ("1m", VNum (60 * 1000)); ("5m", VNum (5 * 60 * 1000));
    ("15m", VNum (15 * 60 * 1000)); ("30m", VNum (30 * 60 * 1000));
    ("1h", VNum (60 * 60 * 1000)); ("4h", VNum (4 * 60 * 60 * 1000));
    ("1d", VNum (24 * 60 * 60 * 1000)) ].

Definition getTimeframeMs (timeframe : string) : jsval :=
  or_else (get_literal msMap timeframe) (VNum (60 * 1000)).

(** *** Market snapshots *)

(** What [processRealTimeData] returns. *)
Record Tick : Type := mkTick {
  t_symbol : jsval;
  t_price : float;
  t_bid : float;
  t_ask : float;
  t_spread : float;
  t_timestamp : string;
  t_volume : float;
  t_change : float;
  t_changePercent : float
}.

(** An element of what [processHistoricalData] returns. *)
Record Candle : Type := mkCandle {
  c_symbol : string;
  c_timeframe : string;
  c_timestamp : string;
  c_open : float;
  c_high : float;
  c_low : float;
  c_close : float;
  c_volume : float;
  c_spread : float
}.

(** What [updateCache] is given: a tick as [processRealTimeData] made
    it, a candle, or a tick on which a subscriber has since set a
    [timeframe], held as the text it has in a cache key. *)
Inductive MarketData : Type :=
| TickData (t : Tick)
| CandleData (c : Candle)
| TimedTick (t : Tick) (timeframe : string).

(** [data.timeframe]; [None] is [undefined]. *)
Definition data_timeframe (data : MarketData) : option string :=
  match data with
  | TickData _ => None
  | CandleData c => Some (c_timeframe c)
  | TimedTick _ timeframe => Some timeframe
  end.

(** [s || d] for [s] a string or [undefined]. *)
Definition string_or (s : option string) (d : string) : string :=
  match s with
  | Some s => if String.eqb s "" then d else s
  | None => d
  end.

(** *** The service and its sockets

    The state of the service and of what it started: the [connections]
    and [cache] maps, every socket [io] returned (a socket is its index),
    the timers [setTimeout] holds, the clock, and the calls made to the
    outside in order. A callback passed by a caller is known by a
    number. *)

Record CacheEntry : Type := mkCacheEntry {
  data : MarketData;
  timestamp : Z
}.

Record Socket : Type := mkSocket {
  s_symbol : string;
  s_callback : nat;
  s_open : bool
}.

Record Timer : Type := mkTimer {
  due : Z;
  tm_symbol : string;
  tm_callback : nat
}.

Inductive effect : Type :=
| IoOpen (symbol : string) (socket : nat)
| EmitSubscribe (socket : nat) (symbol : string)
| Callback (callback : nat) (marketData : Tick)
| SocketDisconnect (socket : nat)
| ConsoleLog (message : string).

Record Service : Type := mkService {
  connections : gmap string nat;
  cache : gmap string CacheEntry;
  sockets : list Socket;
  timers : list Timer;
  clock : Z;
  trace : list effect
}.

Definition set_cache (st : Service) (c : gmap string CacheEntry) : Service :=
  mkService (connections st) c (sockets st) (timers st) (clock st) (trace st).

Definition emit (st : Service) (e : effect) : Service :=
  mkService (connections st) (cache st) (sockets st) (timers st) (clock st)
            (trace st ++ [e]).

(** The service [ms] milliseconds later, before any timer runs. *)
Definition advance (st : Service) (ms : Z) : Service :=
  mkService (connections st) (cache st) (sockets st) (timers st)
            (clock st + ms) (trace st).

Definition updateCache (st : Service) (symbol : string) (data : MarketData)
  : Service :=
  let key := symbol ++ "_" ++ string_or (data_timeframe data) "realtime" in
  set_cache st (<[key := mkCacheEntry data (clock st)]> (cache st)).

Definition getCachedData (st : Service) (symbol timeframe : string)
  : option MarketData * Service :=
  let key := symbol ++ "_" ++ timeframe in
  match cache st !! key with
  | Some cached =>
      if (clock st - timestamp cached <? 60000)%Z
      then (Some (data cached), st)
      else (None, st)
  | None => (None, st)
  end.

Section Runtime.

(** What the runtime and the socket library decide: [parseFloat] on a
    string, the text of a date, and whether a socket closed by
    [socket.disconnect()] reports [disconnect] to its own listeners. *)
Variable parseFloatString : string -> float.
Variable toISOString : Z -> string.
Variable close_emits_disconnect : bool.

(** [parseFloat] reads the string conversion of its argument; a number
    comes back as itself, [-0] as [0]. *)
Definition parseFloat (v : jsval) : float :=
  match v with
  | VStr s => parseFloatString s
  | VNum x => if PrimFloat.is_zero x then 0%float else x
  | VUndef | VNull | VBool _ | VBuiltin _ => nan
  end.

Definition processRealTimeData (now : Z) (data : object) : Tick :=
  {| t_symbol := get_prop data "instrument";
     t_price := parseFloat (get_prop data "price");
     t_bid := parseFloat (get_prop data "bid");
     t_ask := parseFloat (get_prop data "ask");
     t_spread := (parseFloat (get_prop data "ask")
                  - parseFloat (get_prop data "bid"))%float;
     t_timestamp := toISOString now;
     t_volume := parseFloat (or_else (get_prop data "volume") (VNum 0));
     t_change := parseFloat (or_else (get_prop data "change") (VNum 0));
     t_changePercent :=
       parseFloat (or_else (get_prop data "change_percent") (VNum 0)) |}.

(** [connectToStream]: a new socket with its three listeners, stored
    under [symbol]. *)
Definition connectToStream (st : Service) (symbol : string) (callback : nat)
  : nat * Service :=
  let socket := length (sockets st) in
  (socket,
   mkService (<[symbol := socket]> (connections st)) (cache st)
             (sockets st ++ [mkSocket symbol callback true])
             (timers st) (clock st)
             (trace st ++ [IoOpen symbol socket])).

(** The [connect] listener. *)
Definition on_connect (st : Service) (sk : Socket) (socket : nat) : Service :=
  emit (emit st (ConsoleLog "Connected to OANDA real-time data stream"))
       (EmitSubscribe socket (s_symbol sk)).

(** The [price] listener. The subscriber's callback is handed the tick
    object itself: it may change the object before it returns, or
    throw ([None]), which ends the listener. [updateCache] is then
    given the same object, as the callback left it. The callback acts
    on the object it is handed, as the one the server subscribes with
    does; it does not call the service. *)
Definition on_price (st : Service) (sk : Socket) (data : object)
           (callback : Tick -> option MarketData) : Service :=
  let marketData := processRealTimeData (clock st) data in
  let st := emit st (Callback (s_callback sk) marketData) in
  match callback marketData with
  | Some kept => updateCache st (s_symbol sk) kept
  | None => st
  end.

(** The [disconnect] listener. *)
Definition on_disconnect (st : Service) (sk : Socket) : Service :=
  let st := emit st (ConsoleLog "Disconnected from OANDA real-time stream") in
  mkService (connections st) (cache st) (sockets st)
            (timers st ++ [mkTimer (clock st + 5000) (s_symbol sk)
                                   (s_callback sk)])
            (clock st) (trace st).

(** What a timer runs when it fires. *)
Definition fire (st : Service) (t : Timer) : Service :=
  (connectToStream st (tm_symbol t) (tm_callback t)).2.

(** [socket.disconnect()] on the socket [socket]. *)
Definition socket_disconnect (st : Service) (socket : nat) : Service :=
  match sockets st !! socket with
  | Some sk =>
      if s_open sk then
        let st :=
          mkService (connections st) (cache st)
                    (<[socket := mkSocket (s_symbol sk) (s_callback sk) false]>
                       (sockets st))
                    (timers st) (clock st)
                    (trace st ++ [SocketDisconnect socket]) in
        if close_emits_disconnect then on_disconnect st sk else st
      else st
  | None => st
  end.

Definition disconnect (st : Service) (symbol : string) : Service :=
  match connections st !! symbol with
  | Some connection =>
      let st := socket_disconnect st connection in
      mkService (delete symbol (connections st)) (cache st) (sockets st)
                (timers st) (clock st) (trace st)
  | None => st
  end.

(** [disconnectAll()]: [disconnect()] on the socket of every entry of
    [this.connections], in the order [symbols] in which the [Map] holds
    its keys, then [this.connections.clear()]. *)
Definition disconnectAll (st : Service) (symbols : list string) : Service :=
  let st :=
    foldl socket_disconnect st
          (omap (fun symbol => connections st !! symbol) symbols) in
  mkService ∅ (cache st) (sockets st) (timers st) (clock st) (trace st).

(** What reaches the service from outside: calls of [connectToStream]
    and [disconnect], the events a socket delivers while it is open,
    and the passing of time. A price event comes with what the
    subscriber's callback does with the tick it is handed. *)
Inductive event : Type :=
| Call_connectToStream (symbol : string) (callback : nat)
| Call_disconnect (symbol : string)
| Socket_connect (socket : nat)
| Socket_price (socket : nat) (data : object)
               (callback : Tick -> option MarketData)
| Socket_disconnect (socket : nat)
| Elapse (ms : nat).

Definition deliver (st : Service) (socket : nat)
           (listener : Service -> Socket -> Service) : Service :=
  match sockets st !! socket with
  | Some sk => if s_open sk then listener st sk else st
  | None => st
  end.

Definition is_due (now : Z) (t : Timer) : bool := (due t <=? now)%Z.

(** Time passes; the timers that are due run, oldest first. *)
Definition elapse (st : Service) (ms : nat) : Service :=
  let st := advance st (Z.of_nat ms) in
  foldl fire
        (mkService (connections st) (cache st) (sockets st)
                   (filter (fun t => is_due (clock st) t = false) (timers st))
                   (clock st) (trace st))
        (filter (fun t => is_due (clock st) t = true) (timers st)).

Definition step (st : Service) (e : event) : Service :=
  match e with
  | Call_connectToStream symbol callback =>
      (connectToStream st symbol callback).2
  | Call_disconnect symbol => disconnect st symbol
  | Socket_connect socket =>
      deliver st socket (fun st sk => on_connect st sk socket)
  | Socket_price socket data callback =>
      deliver st socket (fun st sk => on_price st sk data callback)
  | Socket_disconnect socket => deliver st socket on_disconnect
  | Elapse ms => elapse st ms
  end.

Definition run (st : Service) (events : list event) : Service :=
  foldl step st events.

End Runtime.

(** [new MarketDataService()] at time [now]. *)
Definition new (now : Z) : Service := mkService ∅ ∅ [] [] now [].

(** A caller subscribes to a symbol; the socket connects and later
    drops. *)
Definition subscribe_then_drop : list event :=
  [ Call_connectToStream "EUR_USD" 7; Socket_connect 0; Socket_disconnect 0 ].

(** The same, and one second after the drop the caller disconnects the
    symbol. *)
Definition drop_then_disconnect : list event :=
  subscribe_then_drop ++ [ Elapse 1000; Call_disconnect "EUR_USD" ].

End MarketDataService.

(** [validTimeframes] of [validateMarketDataRequest]. *)
Definition validTimeframes : list string :=
  ["1m"; "5m"; "15m"; "30m"; "1h"; "4h"; "1d"; "1w"; "1M"].

(** ** Strings

    A string is read as a sequence of code units below 256, the range
    in which an [ascii] is a code unit. *)

Module JSString.

Definition chars (s : string) : list ascii := String.list_ascii_of_string s.

Definition text (l : list ascii) : string := String.string_of_list_ascii l.

(** White space and line terminators: what [trim] strips and [\s]
    matches (TAB, LF, VT, FF, CR, SP, NBSP). *)
Definition is_space (c : ascii) : bool :=
  let n := N_of_ascii c in
  ((9 <=? n) && (n <=? 13) || (n =? 32) || (n =? 160))%N.

Fixpoint trimStart (l : list ascii) : list ascii :=
  match l with
  | c :: l' => if is_space c then trimStart l' else l
  | [] => []
  end.

Definition trimEnd (l : list ascii) : list ascii :=
  reverse (trimStart (reverse l)).

(** [s.trim()]. *)
Definition trim (s : string) : string :=
  text (trimEnd (trimStart (chars s))).

(** The lower case of a code unit: [A]-[Z] and the capital letters of
    Latin-1. *)
Definition lower (c : ascii) : ascii :=
  let n := N_of_ascii c in
  if ((65 <=? n) && (n <=? 90)
      || (192 <=? n) && (n <=? 222) && negb (n =? 215))%N
  then ascii_of_N (n + 32) else c.

(** [s.toLowerCase()]. *)
Definition toLowerCase (s : string) : string := text (lower <$> chars s).

End JSString.

(** ** Regular expressions

    The fragment the source uses: character classes, concatenation and
    repetition, matched against a whole string ([^...$]). *)

Module RegExp.

Inductive regex : Type :=
| Void
| Eps
| Class (p : ascii -> bool)
| Cat (r1 r2 : regex)
| Alt (r1 r2 : regex)
| Star (r : regex).

(** [r+]. *)
Definition Plus (r : regex) : regex := Cat r (Star r).

Fixpoint nullable (r : regex) : bool :=
  match r with
  | Void | Class _ => false
  | Eps | Star _ => true
  | Cat r1 r2 => nullable r1 && nullable r2
  | Alt r1 r2 => nullable r1 || nullable r2
  end.

(** What is left of [r] after it has read [c]. *)
Fixpoint derive (c : ascii) (r : regex) : regex :=
  match r with
  | Void | Eps => Void
  | Class p => if p c then Eps else Void
  | Cat r1 r2 =>
      if nullable r1
      then Alt (Cat (derive c r1) r2) (derive c r2)
      else Cat (derive c r1) r2
  | Alt r1 r2 => Alt (derive c r1) (derive c r2)
  | Star r => Cat (derive c r) (Star r)
  end.

(** [/^r$/.test(s)]. *)
Definition test (r : regex) (s : string) : bool :=
  nullable (foldl (fun r c => derive c r) r (JSString.chars s)).

(** The strings of a regular expression. *)
Inductive Matches : regex -> list ascii -> Prop :=
| MEps : Matches Eps []
| MClass p c : p c = true -> Matches (Class p) [c]
| MCat r1 r2 s1 s2 :
    Matches r1 s1 -> Matches r2 s2 -> Matches (Cat r1 r2) (s1 ++ s2)
| MAltL r1 r2 s : Matches r1 s -> Matches (Alt r1 r2) s
| MAltR r1 r2 s : Matches r2 s -> Matches (Alt r1 r2) s
| MStar0 r : Matches (Star r) []
| MStarS r s1 s2 :
    Matches r s1 -> Matches (Star r) s2 -> Matches (Star r) (s1 ++ s2).

End RegExp.

(** ** Validation *)

Module Validation.
Import JSString RegExp.
Import BrokerIntegration.

(** [[^\s@]]. *)
Definition not_space_at (c : ascii) : bool :=
  negb (is_space c) && negb (Ascii.eqb c "@").

Definition is_char (x c : ascii) : bool := Ascii.eqb c x.

(** [/^[^\s@]+@[^\s@]+\.[^\s@]+$/]. *)
Definition emailRegex : regex :=
  Cat (Plus (Class not_space_at))
      (Cat (Class (is_char "@"))
           (Cat (Plus (Class not_space_at))
                (Cat (Class (is_char "."))
                     (Plus (Class not_space_at))))).

(** *** The text and the number of a value

    [validateEmail] and [validatePassword] are handed what a request
    body holds: a value of [json], that is a primitive, an array or a
    plain object, none with a method of its own. *)

Section Conversions.

(** What the runtime decides: the text of a number, the text of a
    built-in, and the number a string reads as. *)
Variable NumberToString : float -> string.
Variable BuiltinToString : string -> string.
Variable StringToNumber : string -> float.

(** [String(v)] for a primitive or a built-in. *)
Definition prim_text (v : jsval) : string :=
  match v with
  | VUndef => "undefined"
  | VNull => "null"
  | VBool b => if b then "true" else "false"
  | VNum x => NumberToString x
  | VStr s => s
  | VBuiltin name => BuiltinToString name
  end.

(** [String(j)]. An array joins the texts of its elements with commas,
    [undefined] and [null] counting as empty. A plain object is
    [[object Object]]; with an own [toString], which is no function,
    neither [toString] nor [valueOf] gives a primitive and the
    conversion throws. *)
Fixpoint ToString (j : json) : outcome string :=
  match j with
  | JPrim v => Returned (prim_text v)
  | JArr items =>
      (fix join (items : list json) : outcome string :=
         match items with
         | [] => Returned ""
         | item :: rest =>
             let element :=
               match item with
               | JPrim VUndef | JPrim VNull => Returned ""
               | _ => ToString item
               end in
             match element, rest with
             | Threw e, _ => Threw e
             | Returned s, [] => Returned s
             | Returned s, _ :: _ =>
                 match join rest with
                 | Returned r => Returned (s ++ "," ++ r)
                 | Threw e => Threw e
                 end
             end
         end) items
  | JObj fields =>
      match jassoc fields "toString" with
      | Some _ => Threw TypeError
      | None => Returned "[object Object]"
      end
  end.

(** The number an operand of [>=] is compared as: an array or an
    object is compared through its text. *)
Definition ToNumeric (j : json) : outcome float :=
  match j with
  | JPrim v => Returned (ToNumber StringToNumber v)
  | _ =>
      match ToString j with
      | Returned s => Returned (StringToNumber s)
      | Threw e => Threw e
      end
  end.

(** An array or an object is truthy. *)
Definition truthy_json (j : json) : bool :=
  match j with
  | JPrim v => truthy v
  | _ => true
  end.

(** [emailRegex.test(email)] matches against the text of [email]. *)
Definition validateEmail (email : json) : outcome bool :=
  match ToString email with
  | Returned s => Returned (test emailRegex s)
  | Threw e => Threw e
  end.

(** [password && password.length >= 6]. The [length] of a string is
    its number of code units, that of an array its number of elements,
    that of a plain object its own [length] property if it has one; a
    boolean and a number have none, and no built-in has one of six or
    more. [x >= 6] holds when [x], as a number, is no [NaN] and not
    below 6. *)
Definition validatePassword (password : json) : outcome json :=
  if truthy_json password
  then match password with
       | JPrim (VStr s) => Returned (JPrim (VBool (6 <=? String.length s)%nat))
       | JPrim _ => Returned (JPrim (VBool false))
       | JArr items => Returned (JPrim (VBool (6 <=? length items)%nat))
       | JObj fields =>
           match ToNumeric (default (JPrim VUndef) (jassoc fields "length")) with
           | Returned n => Returned (JPrim (VBool (PrimFloat.leb 6 n)))
           | Threw e => Threw e
           end
       end
  else Returned password.

End Conversions.

(** [name && name.trim().length >= 2 && name.trim().length <= 50]; a
    truthy value that is not a string has no [trim] to call. *)
Definition validateName (name : jsval) : outcome jsval :=
  if truthy name
  then match name with
       | VStr s =>
           if (2 <=? String.length (trim s))%nat
           then Returned (VBool (String.length (trim s) <=? 50)%nat)
           else Returned (VBool false)
       | _ => Threw TypeError
       end
  else Returned name.

Definition is_angle (c : ascii) : bool := Ascii.eqb c "<" || Ascii.eqb c ">".

Definition sanitizeInput (input : jsval) : jsval :=
  match input with
  | VStr s =>
      VStr (text (take 1000
                    (filter (fun c => is_angle c = false) (chars (trim s)))))
  | _ => input
  end.

(** What every validator returns. *)
Record Result : Type := mkResult {
  isValid : bool;
  errors : gmap string string
}.

(** [{ isValid: Object.keys(errors).length === 0, errors }]. *)
Definition result (errors : gmap string string) : Result :=
  mkResult (size errors =? 0)%nat errors.

(** [if (cond) errors.key = message]. *)
Definition check (cond : bool) (key message : string)
           (errors : gmap string string) : gmap string string :=
  if cond then <[key := message]> errors else errors.

(** [typeof v !== 'number' || v < 0 || v > 1]. *)
Definition not_ratio (v : jsval) : bool :=
  match v with
  | VNum x => PrimFloat.ltb x 0 || PrimFloat.ltb 1 x
  | _ => true
  end.

(** [typeof v !== 'number' || v <= 0]. *)
Definition not_positive (v : jsval) : bool :=
  match v with
  | VNum x => PrimFloat.leb x 0
  | _ => true
  end.

(** [v !== undefined]. *)
Definition defined (v : jsval) : bool :=
  match v with VUndef => false | _ => true end.

(** [list.includes(v)] for a list of strings. *)
Definition includes (list : list string) (v : jsval) : bool :=
  match v with
  | VStr s => bool_decide (s ∈ list)
  | _ => false
  end.

Definition validRiskLevels : list string :=
  ["conservative"; "moderate"; "aggressive"].

Definition validateTradingConfig (config : object) : Result :=
  let errors := ∅ in
  let errors :=
    check (defined (get_prop config "maxDrawdown")
           && not_ratio (get_prop config "maxDrawdown"))
          "maxDrawdown" "Max drawdown must be a number between 0 and 1" errors in
  let errors :=
    check (defined (get_prop config "maxDailyLoss")
           && not_ratio (get_prop config "maxDailyLoss"))
          "maxDailyLoss" "Max daily loss must be a number between 0 and 1"
          errors in
  let errors :=
    check (defined (get_prop config "maxPositionSize")
           && not_ratio (get_prop config "maxPositionSize"))
          "maxPositionSize" "Max position size must be a number between 0 and 1"
          errors in
  let errors :=
    check (defined (get_prop config "defaultLotSize")
           && not_positive (get_prop config "defaultLotSize"))
          "defaultLotSize" "Default lot size must be a positive number" errors in
  let errors :=
    check (defined (get_prop config "riskLevel")
           && negb (includes validRiskLevels (get_prop config "riskLevel")))
          "riskLevel"
          "Risk level must be one of: conservative, moderate, aggressive"
          errors in
  result errors.

(** [!v || v.trim().length < n]: a truthy value that is not a string
    has no [trim] to call. *)
Definition blank_or_shorter (n : nat) (v : jsval) : outcome bool :=
  if truthy v
  then match v with
       | VStr s => Returned (String.length (trim s) <? n)%nat
       | _ => Threw TypeError
       end
  else Returned true.

Definition validateBotConfig (config : object) : outcome Result :=
  match blank_or_shorter 3 (get_prop config "name") with
  | Threw e => Threw e
  | Returned bad_name =>
      let errors := ∅ in
      let errors :=
        check bad_name "name" "Bot name must be at least 3 characters long"
              errors in
      let errors :=
        check (negb (truthy (get_prop config "strategy")))
              "strategy" "Strategy is required" errors in
      let errors :=
        check (negb (truthy (get_prop config "symbol")))
              "symbol" "Trading symbol is required" errors in
      let errors :=
        check (defined (get_prop config "lotSize")
               && not_positive (get_prop config "lotSize"))
              "lotSize" "Lot size must be a positive number" errors in
      let errors :=
        check (defined (get_prop config "stopLoss")
               && not_positive (get_prop config "stopLoss"))
              "stopLoss" "Stop loss must be a positive number" errors in
      let errors :=
        check (defined (get_prop config "takeProfit")
               && not_positive (get_prop config "takeProfit"))
              "takeProfit" "Take profit must be a positive number" errors in
      Returned (result errors)
  end.

(** [s] between double quotes. *)
Definition quoted (s : string) : string :=
  String (ascii_of_N 34) (s ++ String (ascii_of_N 34) "").

(** [!action || !['buy', 'sell'].includes(action.toLowerCase())]. *)
Definition bad_action (action : jsval) : outcome bool :=
  if truthy action
  then match action with
       | VStr s =>
           Returned (negb (includes ["buy"; "sell"] (VStr (toLowerCase s))))
       | _ => Threw TypeError
       end
  else Returned true.

Definition validateTradeParams (params : object) : outcome Result :=
  let errors := ∅ in
  let errors :=
    check (negb (truthy (get_prop params "symbol")))
          "symbol" "Symbol is required" errors in
  match bad_action (get_prop params "action") with
  | Threw e => Threw e
  | Returned bad =>
      let errors :=
        check bad "action"
              ("Action must be either " ++ quoted "buy" ++ " or " ++ quoted "sell")
              errors in
      let errors :=
        check (not_positive (get_prop params "volume"))
              "volume" "Volume must be a positive number" errors in
      let errors :=
        check (defined (get_prop params "stopLoss")
               && not_positive (get_prop params "stopLoss"))
              "stopLoss" "Stop loss must be a positive number" errors in
      let errors :=
        check (defined (get_prop params "takeProfit")
               && not_positive (get_prop params "takeProfit"))
              "takeProfit" "Take profit must be a positive number" errors in
      Returned (result errors)
  end.

(** The integer a number is, when it is one: a finite number with no
    fractional part. *)
Definition integer_value (x : float) : option Z :=
  match Prim2SF x with
  | S754_zero _ => Some 0%Z
  | S754_finite s m e =>
      let sign n := if s then (- n)%Z else n in
      if (0 <=? e)%Z then Some (sign (Z.pos m * 2 ^ e)%Z)
      else if (Z.pos m mod 2 ^ (- e) =? 0)%Z
           then Some (sign (Z.pos m / 2 ^ (- e))%Z)
           else None
  | _ => None
  end.

(** [Number.isInteger(v)]. *)
Definition Number_isInteger (v : jsval) : bool :=
  match v with
  | VNum x => bool_decide (is_Some (integer_value x))
  | _ => false
  end.

(** [!Number.isInteger(v) || v < 1 || v > 5000]. *)
Definition bad_limit (v : jsval) : bool :=
  negb (Number_isInteger v)
  || match v with
     | VNum x => PrimFloat.ltb x 1 || PrimFloat.ltb 5000 x
     | _ => false
     end.

Definition validateMarketDataRequest (params : object) : Result :=
  let errors := ∅ in
  let errors :=
    check (negb (truthy (get_prop params "symbol")))
          "symbol" "Symbol is required" errors in
  let errors :=
    check (truthy (get_prop params "timeframe")
           && negb (includes validTimeframes (get_prop params "timeframe")))
          "timeframe"
          ("Timeframe must be one of: " ++ String.concat ", " validTimeframes)
          errors in
  let errors :=
    check (defined (get_prop params "limit")
           && bad_limit (get_prop params "limit"))
          "limit" "Limit must be an integer between 1 and 5000" errors in
  result errors.

End Validation.

(** ** The user model *)

Module User.

(** [limits] of [canCreateBot]. *)
Definition limits : list (string * jsval) :=
  [ ("free", VNum 1); ("basic", VNum 3); ("premium", VNum 10);
    ("enterprise", VNum infinity) ].

Section Numbers.

Variable StringToNumber : string -> float.

(** [this.bots?.length < limits[this.subscription.plan]]. [bots] is
    absent ([None]: [undefined] or [null], so that [?.] gives
    [undefined]) or an array of the given length; [<] compares its
    operands as numbers. *)
Definition canCreateBot (bots : option float) (plan : string) : bool :=
  let length := match bots with Some n => VNum n | None => VUndef end in
  PrimFloat.ltb (BrokerIntegration.ToNumber StringToNumber length)
                (BrokerIntegration.ToNumber StringToNumber
                   (get_literal limits plan)).

End Numbers.

End User.

(** * Properties *)

Import BrokerIntegration MarketDataService.

(** ** Values *)

Section Values.

Lemma strict_eq_VStr (v : jsval) (s : string) :
  strict_eq v (VStr s) = true <-> v = VStr s.
Proof.
  destruct v as [| | | |t|]; simpl; split; try done.
  - by intros ->%String.eqb_eq.
  - intros [= ->]. apply String.eqb_refl.
Qed.

Lemma strict_eq_VStr_false (v : jsval) (s : string) :
  strict_eq v (VStr s) = false <-> v <> VStr s.
Proof.
  rewrite <- strict_eq_VStr. by destruct (strict_eq v (VStr s)).
Qed.

End Values.

(** ** Binary64 facts *)

Section Binary64.

Lemma Prim2SF_zero : Prim2SF zero = S754_zero false.
Proof. reflexivity. Qed.

Lemma Prim2SF_infinity : Prim2SF infinity = S754_infinity false.
Proof. reflexivity. Qed.

Lemma is_zero_Prim2SF (x : float) :
  PrimFloat.is_zero x = true -> exists s, Prim2SF x = S754_zero s.
Proof.
  unfold PrimFloat.is_zero. rewrite FloatAxioms.eqb_spec, Prim2SF_zero.
  destruct (Prim2SF x) as [s|s| |s m e]; try discriminate; eauto.
  - by destruct s.
  - by destruct s.
Qed.

Lemma Prim2SF_is_zero (x : float) (s : bool) :
  Prim2SF x = S754_zero s -> PrimFloat.is_zero x = true.
Proof.
  intros E. unfold PrimFloat.is_zero.
  by rewrite FloatAxioms.eqb_spec, Prim2SF_zero, E.
Qed.

Lemma SFeqb_finite_refl s m e :
  SFeqb (S754_finite s m e) (S754_finite s m e) = true.
Proof.
  unfold SFeqb, SFcompare. rewrite Z.compare_refl.
  destruct s; rewrite ?Pos.compare_cont_refl; done.
Qed.

Lemma Prim2SF_is_nan (x : float) :
  PrimFloat.is_nan x = true <-> Prim2SF x = S754_nan.
Proof.
  unfold PrimFloat.is_nan. rewrite FloatAxioms.eqb_spec.
  destruct (Prim2SF x) as [s|s| |s m e]; split; try done.
  - by destruct s.
  - by rewrite SFeqb_finite_refl.
Qed.

Lemma is_nan_false_Prim2SF (x : float) :
  PrimFloat.is_nan x = false <-> Prim2SF x <> S754_nan.
Proof.
  rewrite <- Prim2SF_is_nan. by destruct (PrimFloat.is_nan x).
Qed.

Lemma is_finite_Prim2SF (x : float) :
  PrimFloat.is_finite x = sf_finite (Prim2SF x).
Proof.
  unfold PrimFloat.is_finite, PrimFloat.is_infinity.
  pose proof (Prim2SF_is_nan x) as Hn.
  rewrite FloatAxioms.eqb_spec, abs_spec, Prim2SF_infinity.
  destruct (Prim2SF x) as [s|s| |s m e] eqn:E; simpl.
  - destruct (PrimFloat.is_nan x); [by destruct Hn as [Hn _]; discriminate Hn|done].
  - by rewrite orb_true_r.
  - by destruct Hn as [_ ->].
  - destruct (PrimFloat.is_nan x); [by destruct Hn as [Hn _]; discriminate Hn|].
    by destruct s.
Qed.

(** A number above zero is neither a zero nor [NaN]. *)
Lemma positive_not_zero_nan (x : float) :
  PrimFloat.ltb 0 x = true ->
  PrimFloat.is_zero x = false /\ PrimFloat.is_nan x = false.
Proof.
  rewrite ltb_spec. change (Prim2SF 0%float) with (S754_zero false).
  intros H. split.
  - unfold PrimFloat.is_zero. rewrite FloatAxioms.eqb_spec, Prim2SF_zero.
    by destruct (Prim2SF x) as [s|[]| |[] m e].
  - apply is_nan_false_Prim2SF. by destruct (Prim2SF x).
Qed.

(** A finite number times a zero is a zero. *)
Lemma mul_zero_finite (d u : float) :
  PrimFloat.is_finite d = true -> PrimFloat.is_zero u = true ->
  PrimFloat.is_zero (d * u) = true.
Proof.
  rewrite is_finite_Prim2SF. intros Hd Hu.
  apply is_zero_Prim2SF in Hu as [su Hu].
  destruct (Prim2SF d) as [sd|sd| |sd m e] eqn:E; try discriminate;
    apply (Prim2SF_is_zero _ (xorb sd su)); by rewrite mul_spec, E, Hu.
Qed.

(** An infinity or [NaN] times a zero is [NaN]. *)
Lemma mul_zero_not_finite (d u : float) :
  PrimFloat.is_finite d = false -> PrimFloat.is_zero u = true ->
  PrimFloat.is_nan (d * u) = true.
Proof.
  rewrite is_finite_Prim2SF. intros Hd Hu.
  apply is_zero_Prim2SF in Hu as [su Hu].
  apply Prim2SF_is_nan. rewrite mul_spec, Hu.
  by destruct (Prim2SF d) as [sd|sd| |sd m e].
Qed.

Lemma binary_round_sign (s : bool) (m : positive) (e : Z) :
  sf_finite (binary_round prec emax s m e)
  = sf_finite (binary_round prec emax (negb s) m e).
Proof.
  unfold binary_round. destruct (shl_align _ _ _) as [mz ez].
  unfold binary_round_aux.
  destruct (shr_fexp _ _ _ _ _) as [mrs e'].
  destruct (shr_fexp _ _ _ _ _) as [mrs' e''].
  destruct (shr_m mrs'); try done. by destruct (_ <=? _)%Z.
Qed.

Lemma SF64sub_finite_sym (x y : spec_float) :
  sf_finite (SF64sub x y) = sf_finite (SF64sub y x).
Proof.
  destruct x as [sx|sx| |sx mx ex], y as [sy|sy| |sy my ey]; try done;
    try (by destruct sx, sy).
  unfold SF64sub, SFsub. rewrite (Z.min_comm ey ex).
  set (a := cond_Zopp sx _). set (b := cond_Zopp sy _).
  replace (b - a)%Z with (- (a - b))%Z by lia.
  unfold binary_normalize.
  destruct (a - b)%Z; simpl; try done.
  - apply (binary_round_sign false).
  - apply (binary_round_sign true).
Qed.

(** [x - y] is finite exactly when [y - x] is. *)
Lemma sub_finite_sym (x y : float) :
  PrimFloat.is_finite (x - y) = PrimFloat.is_finite (y - x).
Proof.
  rewrite !is_finite_Prim2SF, !sub_spec. apply SF64sub_finite_sym.
Qed.

Local Open Scope Z_scope.

Lemma shr_1_nonneg mrs : 0 <= shr_m mrs -> 0 <= shr_m (shr_1 mrs).
Proof.
  destruct mrs as [m r s]; simpl. destruct m as [|[p|p|]|[p|p|]]; simpl; lia.
Qed.

Lemma iter_shr_1_nonneg p mrs :
  0 <= shr_m mrs -> 0 <= shr_m (SpecFloat.iter_pos shr_1 p mrs).
Proof.
  revert mrs. induction p as [p IH|p IH|]; intros mrs H; simpl;
    auto using shr_1_nonneg.
Qed.

Lemma shr_fexp_nonneg m e l :
  0 <= m -> 0 <= shr_m (shr_fexp prec emax m e l).1.
Proof.
  intros H. unfold shr_fexp, shr.
  assert (0 <= shr_m (shr_record_of_loc m l)) by (by destruct l as [|[]]).
  destruct (_ - e); simpl; auto using iter_shr_1_nonneg.
Qed.

Lemma round_nearest_even_nonneg m l : 0 <= m -> 0 <= round_nearest_even m l.
Proof.
  intros H. destruct l as [|[]]; simpl; try lia. destruct (Z.even m); lia.
Qed.

Lemma binary_round_nonneg (m : positive) e :
  sf_nonneg (binary_round prec emax false m e) = true.
Proof.
  unfold binary_round. destruct (shl_align _ _ _) as [mz ez].
  unfold binary_round_aux.
  pose proof (shr_fexp_nonneg (Z.pos mz) ez loc_Exact) as H1.
  destruct (shr_fexp _ _ (Z.pos mz) _ _) as [mrs e']. simpl in H1.
  pose proof (shr_fexp_nonneg
                (round_nearest_even (shr_m mrs) (loc_of_shr_record mrs))
                e' loc_Exact) as H2.
  destruct (shr_fexp _ _ (round_nearest_even _ _) _ _) as [mrs' e''].
  simpl in H2.
  destruct (shr_m mrs') as [|p|p] eqn:E; [done| |].
  - by destruct (_ <=? _).
  - exfalso. specialize (H1 ltac:(lia)).
    specialize (H2 (round_nearest_even_nonneg _ _ H1)). lia.
Qed.

Lemma binary_normalize_nonneg m e :
  0 <= m -> sf_nonneg (binary_normalize prec emax m e false) = true.
Proof.
  destruct m; simpl; [done| |lia]. intros _. apply binary_round_nonneg.
Qed.

Lemma digits2_pos_bounds (m : positive) :
  2 ^ (Z.pos (digits2_pos m) - 1) <= Z.pos m < 2 ^ Z.pos (digits2_pos m).
Proof.
  induction m as [m IH|m IH|]; simpl; [| |lia].
  - rewrite Pos2Z.inj_succ.
    replace (Z.succ (Z.pos (digits2_pos m)) - 1)
      with (Z.succ (Z.pos (digits2_pos m) - 1)) by lia.
    rewrite !Z.pow_succ_r by lia. lia.
  - rewrite Pos2Z.inj_succ.
    replace (Z.succ (Z.pos (digits2_pos m)) - 1)
      with (Z.succ (Z.pos (digits2_pos m) - 1)) by lia.
    rewrite !Z.pow_succ_r by lia. lia.
Qed.

Lemma iter_xO (d m : positive) :
  Z.pos (Pos.iter xO m d) = Z.pos m * 2 ^ Z.pos d.
Proof.
  induction d as [|d IH] using Pos.peano_ind.
  - simpl. lia.
  - rewrite Pos.iter_succ, Pos2Z.inj_xO, IH, Pos2Z.inj_succ,
      Z.pow_succ_r by lia. lia.
Qed.

(** The mantissa aligned to a smaller exponent. *)
Lemma shl_align_value (m : positive) e e' :
  e' <= e -> Z.pos (shl_align m e e').1 = Z.pos m * 2 ^ (e - e').
Proof.
  intros H. unfold shl_align. destruct (e' - e) as [|d|d] eqn:E; simpl.
  - replace (e - e') with 0 by lia. lia.
  - lia.
  - rewrite iter_xO. f_equal. f_equal. lia.
Qed.

(** Of two canonical numbers, the one with the smaller exponent is the
    smaller in magnitude. *)
Lemma canonical_exponent_lt (m1 m2 : positive) e1 e2 :
  canonical_mantissa prec emax m1 e1 = true ->
  canonical_mantissa prec emax m2 e2 = true ->
  e1 < e2 -> Z.pos m1 < Z.pos m2 * 2 ^ (e2 - e1).
Proof.
  unfold canonical_mantissa, fexp, emin. intros H1%Z.eqb_eq H2%Z.eqb_eq Hlt.
  pose proof (digits2_pos_bounds m1) as [_ B1].
  pose proof (digits2_pos_bounds m2) as [B2 _].
  assert (Z.pos (digits2_pos m1) <= prec) as D1 by lia.
  assert (Z.pos (digits2_pos m2) = prec) as D2 by lia.
  rewrite D2 in B2.
  assert (2 ^ Z.pos (digits2_pos m1) <= 2 ^ prec) as P1
    by (apply Z.pow_le_mono_r; lia).
  assert (2 ^ 1 <= 2 ^ (e2 - e1)) as P2 by (apply Z.pow_le_mono_r; lia).
  assert (2 ^ prec = 2 ^ (prec - 1) * 2 ^ 1) as P3
    by (rewrite <- Z.pow_add_r; [f_equal|..]; unfold prec; lia).
  nia.
Qed.



Lemma SFleb_zero_nonneg (r : spec_float) :
  sf_nonneg r = true -> SFleb (S754_zero false) r = true.
Proof. by destruct r as [s|[]| |[] m e]. Qed.

Lemma valid_canonical s m e :
  valid_binary (S754_finite s m e) = true ->
  canonical_mantissa prec emax m e = true.
Proof. simpl. unfold bounded. by intros [? _]%andb_prop. Qed.

(** The aligned mantissas of two canonical numbers of the same sign
    compare as the numbers do. *)
Lemma aligned_le (m1 m2 : positive) e1 e2 :
  canonical_mantissa prec emax m1 e1 = true ->
  canonical_mantissa prec emax m2 e2 = true ->
  match e1 ?= e2 with
  | Eq => (m1 ?= m2)%positive <> Gt
  | Lt => True
  | Gt => False
  end ->
  Z.pos (shl_align m1 e1 (Z.min e2 e1)).1
  <= Z.pos (shl_align m2 e2 (Z.min e2 e1)).1.
Proof.
  intros C1 C2 H. rewrite !shl_align_value by lia.
  destruct (Z.compare_spec e1 e2) as [->|Hlt|Hgt]; [| |done].
  - rewrite Z.min_id, Z.sub_diag, Z.pow_0_r, !Z.mul_1_r.
    change (m1 <= m2)%positive in H. lia.
  - rewrite Z.min_r by lia. rewrite Z.sub_diag, Z.pow_0_r, Z.mul_1_r.
    pose proof (canonical_exponent_lt _ _ _ _ C1 C2 Hlt). lia.
Qed.

Lemma SF64sub_nonneg (x y : spec_float) :
  valid_binary x = true -> valid_binary y = true ->
  sf_finite x = true -> sf_finite y = true ->
  SFleb y x = true -> sf_nonneg (SF64sub x y) = true.
Proof.
  intros Vx Vy Fx Fy Hle.
  destruct x as [sx|sx| |sx mx ex], y as [sy|sy| |sy my ey];
    try discriminate.
  - by destruct sx, sy.
  - by destruct sy.
  - by destruct sx.
  - apply valid_canonical in Vx, Vy.
    unfold SF64sub, SFsub. apply binary_normalize_nonneg.
    unfold SFleb, SFcompare in Hle.
    pose proof (Pos2Z.is_pos (shl_align mx ex (Z.min ex ey)).1).
    pose proof (Pos2Z.is_pos (shl_align my ey (Z.min ex ey)).1).
    destruct sx, sy; simpl; try discriminate; try lia.
    + (* both negative: |x| <= |y| *)
      pose proof (aligned_le mx my ex ey Vx Vy) as A.
      rewrite (Z.min_comm ey ex) in A.
      assert (Z.pos (shl_align mx ex (Z.min ex ey)).1
              <= Z.pos (shl_align my ey (Z.min ex ey)).1); [|lia].
      apply A. rewrite (Z.compare_antisym ex ey) in Hle.
      destruct (ex ?= ey); simpl in *; try done.
      change (Pos.compare_cont Eq my mx) with (my ?= mx)%positive in Hle.
      rewrite (Pos.compare_antisym mx my) in Hle.
      by destruct (mx ?= my)%positive.
    + (* both positive: y <= x *)
      pose proof (aligned_le my mx ey ex Vy Vx) as A.
      assert (Z.pos (shl_align my ey (Z.min ex ey)).1
              <= Z.pos (shl_align mx ex (Z.min ex ey)).1); [|lia].
      apply A.
      destruct (ey ?= ex); simpl in *; try done.
      change (Pos.compare_cont Eq my mx) with (my ?= mx)%positive in Hle.
      by destruct (my ?= mx)%positive.
Qed.

Lemma shr_1_div2 mrs : 0 <= shr_m mrs -> shr_m (shr_1 mrs) = Z.div2 (shr_m mrs).
Proof.
  destruct mrs as [m r s]; simpl. destruct m as [|[p|p|]|[p|p|]]; simpl; lia.
Qed.

Lemma iter_shr_1_shiftr p mrs :
  0 <= shr_m mrs ->
  shr_m (SpecFloat.iter_pos shr_1 p mrs) = Z.shiftr (shr_m mrs) (Z.pos p).
Proof.
  revert mrs. induction p as [p IH|p IH|]; intros mrs H; simpl SpecFloat.iter_pos.
  - assert (0 <= shr_m (shr_1 mrs)) as H1
      by (rewrite shr_1_div2 by done; by apply Z.div2_nonneg).
    assert (0 <= shr_m (SpecFloat.iter_pos shr_1 p (shr_1 mrs))) as H2
      by (rewrite IH by done; by apply Z.shiftr_nonneg).
    rewrite IH, IH, shr_1_div2 by done.
    rewrite Z.div2_spec, !Z.shiftr_shiftr by lia. f_equal. lia.
  - assert (0 <= shr_m (SpecFloat.iter_pos shr_1 p mrs)) as H2
      by (rewrite IH by done; by apply Z.shiftr_nonneg).
    rewrite IH, IH by done. rewrite !Z.shiftr_shiftr by lia. f_equal. lia.
  - rewrite shr_1_div2 by done. by rewrite Z.div2_spec.
Qed.

(** Shifting a number down to [prec] digits, or not at all, leaves it
    positive. *)
Lemma shr_fexp_pos (m : positive) e l :
  SpecFloat.emin prec emax <= e ->
  0 < shr_m (shr_fexp prec emax (Z.pos m) e l).1
  /\ SpecFloat.emin prec emax <= (shr_fexp prec emax (Z.pos m) e l).2.
Proof.
  intros He. unfold shr_fexp, shr, fexp. simpl Zdigits2.
  assert (shr_m (shr_record_of_loc (Z.pos m) l) = Z.pos m) as Hm
    by (by destruct l as [|[]]).
  destruct (_ - e) as [|n|n] eqn:E; simpl; rewrite ?Hm; try lia.
  split; [|lia].
  rewrite iter_shr_1_shiftr by (rewrite Hm; lia). rewrite Hm.
  rewrite Z.shiftr_div_pow2 by lia.
  pose proof (digits2_pos_bounds m) as [B _].
  assert (Z.pos n <= Z.pos (digits2_pos m) - 1) as Hn by (unfold prec in *; lia).
  assert (2 ^ Z.pos n <= 2 ^ (Z.pos (digits2_pos m) - 1))
    by (apply Z.pow_le_mono_r; lia).
  apply Z.div_str_pos. lia.
Qed.

Lemma round_nearest_even_pos m l : 0 < m -> 0 < round_nearest_even m l.
Proof.
  intros H. destruct l as [|[]]; simpl; try lia. destruct (Z.even m); lia.
Qed.

Lemma shl_align_exponent (m : positive) e e' :
  SpecFloat.emin prec emax <= e -> SpecFloat.emin prec emax <= e' ->
  SpecFloat.emin prec emax <= (shl_align m e e').2.
Proof. unfold shl_align. by destruct (e' - e). Qed.

(** Rounding a non-zero number at an exponent in range never gives a
    zero or [NaN]: the result is finite or infinite, with the sign asked
    for. *)
Lemma binary_round_negative (m : positive) e :
  SpecFloat.emin prec emax <= e ->
  sf_negative (binary_round prec emax true m e) = true.
Proof.
  intros He. unfold binary_round.
  pose proof (shl_align_exponent m e
                (fexp prec emax (Z.pos (digits2_pos m) + e)) He) as Hz.
  destruct (shl_align _ _ _) as [mz ez]. simpl in Hz.
  specialize (Hz ltac:(unfold fexp; lia)).
  unfold binary_round_aux.
  pose proof (shr_fexp_pos mz ez loc_Exact Hz) as [H1 He'].
  destruct (shr_fexp _ _ (Z.pos mz) _ _) as [mrs e']. simpl in H1, He'.
  pose proof (round_nearest_even_pos _ (loc_of_shr_record mrs) H1) as H2.
  destruct (round_nearest_even _ _) as [|r|r] eqn:R; try lia.
  pose proof (shr_fexp_pos r e' loc_Exact He') as [H3 _].
  destruct (shr_fexp _ _ (Z.pos r) _ _) as [mrs' e'']. simpl in H3.
  destruct (shr_m mrs') as [|p|p] eqn:E; try lia.
  by destruct (_ <=? _).
Qed.

Lemma canonical_emin (m : positive) e :
  canonical_mantissa prec emax m e = true -> SpecFloat.emin prec emax <= e.
Proof. unfold canonical_mantissa, fexp. intros H%Z.eqb_eq. lia. Qed.

Lemma aligned_lt (m1 m2 : positive) e1 e2 :
  canonical_mantissa prec emax m1 e1 = true ->
  canonical_mantissa prec emax m2 e2 = true ->
  match e1 ?= e2 with
  | Eq => (m1 ?= m2)%positive = Lt
  | Lt => True
  | Gt => False
  end ->
  Z.pos (shl_align m1 e1 (Z.min e2 e1)).1
  < Z.pos (shl_align m2 e2 (Z.min e2 e1)).1.
Proof.
  intros C1 C2 H. rewrite !shl_align_value by lia.
  destruct (Z.compare_spec e1 e2) as [->|Hlt|Hgt]; [| |done].
  - rewrite Z.min_id, Z.sub_diag, Z.pow_0_r, !Z.mul_1_r.
    change (m1 < m2)%positive in H. lia.
  - rewrite Z.min_r by lia. rewrite Z.sub_diag, Z.pow_0_r, Z.mul_1_r.
    by apply canonical_exponent_lt.
Qed.

Lemma SFltb_negative_zero (r : spec_float) :
  sf_negative r = true -> SFltb r (S754_zero false) = true.
Proof. by destruct r as [s|[]| |[] m e]. Qed.

Lemma binary_normalize_negative m e :
  m < 0 -> SpecFloat.emin prec emax <= e ->
  sf_negative (binary_normalize prec emax m e false) = true.
Proof.
  destruct m; simpl; [lia|lia|]. intros _. apply binary_round_negative.
Qed.

Lemma SF64sub_negative (x y : spec_float) :
  valid_binary x = true -> valid_binary y = true ->
  sf_finite x = true -> sf_finite y = true ->
  SFltb x y = true -> sf_negative (SF64sub x y) = true.
Proof.
  intros Vx Vy Fx Fy Hlt.
  destruct x as [sx|sx| |sx mx ex], y as [sy|sy| |sy my ey];
    try discriminate.
  - by destruct sy.
  - by destruct sx.
  - apply valid_canonical in Vx, Vy.
    pose proof (canonical_emin _ _ Vx). pose proof (canonical_emin _ _ Vy).
    unfold SF64sub, SFsub. apply binary_normalize_negative; [|lia].
    unfold SFltb, SFcompare in Hlt.
    pose proof (Pos2Z.is_pos (shl_align mx ex (Z.min ex ey)).1).
    pose proof (Pos2Z.is_pos (shl_align my ey (Z.min ex ey)).1).
    destruct sx, sy; simpl; try discriminate; try lia.
    + (* both negative: |y| < |x| *)
      pose proof (aligned_lt my mx ey ex Vy Vx) as A.
      assert (Z.pos (shl_align my ey (Z.min ex ey)).1
              < Z.pos (shl_align mx ex (Z.min ex ey)).1); [|lia].
      apply A. rewrite (Z.compare_antisym ex ey).
      destruct (ex ?= ey); simpl in *; try done.
      change (Pos.compare_cont Eq mx my) with (mx ?= my)%positive in Hlt.
      rewrite (Pos.compare_antisym mx my).
      by destruct (mx ?= my)%positive.
    + (* both positive: x < y *)
      pose proof (aligned_lt mx my ex ey Vx Vy) as A.
      rewrite (Z.min_comm ey ex) in A.
      assert (Z.pos (shl_align mx ex (Z.min ex ey)).1
              < Z.pos (shl_align my ey (Z.min ex ey)).1); [|lia].
      apply A.
      destruct (ex ?= ey); simpl in *; try done.
      change (Pos.compare_cont Eq mx my) with (mx ?= my)%positive in Hlt.
      by destruct (mx ?= my)%positive.
Qed.

Local Close Scope Z_scope.

(** For finite [x >= y], the difference [x - y] is not negative. *)
Lemma sub_nonneg (x y : float) :
  PrimFloat.is_finite x = true -> PrimFloat.is_finite y = true ->
  PrimFloat.leb y x = true -> PrimFloat.leb 0 (x - y) = true.
Proof.
  rewrite !is_finite_Prim2SF, !leb_spec, sub_spec.
  intros Fx Fy Hle. change (Prim2SF 0) with (S754_zero false).
  apply SFleb_zero_nonneg, SF64sub_nonneg; auto using Prim2SF_valid.
Qed.

(** For finite [x < y], the difference [x - y] is negative. *)
Lemma sub_negative (x y : float) :
  PrimFloat.is_finite x = true -> PrimFloat.is_finite y = true ->
  PrimFloat.ltb x y = true -> PrimFloat.ltb (x - y) 0 = true.
Proof.
  rewrite !is_finite_Prim2SF, !ltb_spec, sub_spec.
  intros Fx Fy Hlt. change (Prim2SF 0) with (S754_zero false).
  apply SFltb_negative_zero, SF64sub_negative; auto using Prim2SF_valid.
Qed.

End Binary64.

(** ** Unrealized P&L *)

Section UnrealizedPnL.

Lemma pnl_long (position : Position) (currentPrice : float) :
  side position = VStr "BUY" ->
  calculateUnrealizedPnL position currentPrice
  = ((currentPrice - averagePrice position) * units position)%float.
Proof. unfold calculateUnrealizedPnL. by intros ->. Qed.

Lemma pnl_short (position : Position) (currentPrice : float) :
  side position <> VStr "BUY" ->
  calculateUnrealizedPnL position currentPrice
  = ((averagePrice position - currentPrice) * units position)%float.
Proof.
  unfold calculateUnrealizedPnL. intros Hs.
  destruct (side position) as [| | | |s|]; simpl; try done.
  destruct (String.eqb_spec s "BUY"); [congruence|done].
Qed.

(** C1, as the code has it: the long and the short formula, and a zero
    result for zero units as long as the price difference is finite. A
    price difference that is infinite or [NaN] gives [NaN]. The result is
    a function of the position and the price alone: nothing else is read
    and nothing is written. *)
Theorem calculateUnrealizedPnL_spec (position : Position) (currentPrice : float) :
  (side position = VStr "BUY" ->
     calculateUnrealizedPnL position currentPrice
     = ((currentPrice - averagePrice position) * units position)%float)
  /\ (side position <> VStr "BUY" ->
     calculateUnrealizedPnL position currentPrice
     = ((averagePrice position - currentPrice) * units position)%float)
  /\ (PrimFloat.is_zero (units position) = true ->
      PrimFloat.is_finite (currentPrice - averagePrice position) = true ->
      PrimFloat.is_zero (calculateUnrealizedPnL position currentPrice) = true)
  /\ (PrimFloat.is_zero (units position) = true ->
      PrimFloat.is_finite (currentPrice - averagePrice position) = false ->
      PrimFloat.is_nan (calculateUnrealizedPnL position currentPrice) = true).
Proof.
  split; [apply pnl_long|]. split; [apply pnl_short|].
  unfold calculateUnrealizedPnL.
  split; intros Hu H1; pose proof H1 as H2;
    rewrite sub_finite_sym in H2; destruct (strict_eq _ _);
    auto using mul_zero_finite, mul_zero_not_finite.
Qed.

Lemma calculateUnrealizedPnL_spec_witness :
  calculateUnrealizedPnL (mkPosition (VStr "BUY") 1000 1.5) 1.75 = 250%float
  /\ calculateUnrealizedPnL (mkPosition (VStr "SELL") 1000 1.5) 1.75
     = (-250)%float
  /\ PrimFloat.is_zero
       (calculateUnrealizedPnL (mkPosition (VStr "BUY") 0 1.75) 1.5) = true.
Proof.
  split; [|split].
  - rewrite (proj1 (calculateUnrealizedPnL_spec
                      (mkPosition (VStr "BUY") 1000 1.5) 1.75) eq_refl).
    reflexivity.
  - rewrite (proj1 (proj2 (calculateUnrealizedPnL_spec
                      (mkPosition (VStr "SELL") 1000 1.5) 1.75))).
    + reflexivity.
    + discriminate.
  - apply (calculateUnrealizedPnL_spec (mkPosition (VStr "BUY") 0 1.75) 1.5);
      reflexivity.
Defined.

(** C1 as stated fails: zero units and an infinite price give [NaN]. *)
Lemma calculateUnrealizedPnL_zero_units_nan :
  units (mkPosition (VStr "BUY") 0 1.5) = 0%float
  /\ calculateUnrealizedPnL (mkPosition (VStr "BUY") 0 1.5) infinity = nan
  /\ PrimFloat.eqb
       (calculateUnrealizedPnL (mkPosition (VStr "BUY") 0 1.5) infinity) 0
     = false.
Proof. repeat split. Qed.

End UnrealizedPnL.

(** ** Order payload *)

Section OrderPayload.

(** What [if (v)] lets through: a supplied value other than [null],
    [false], [0], [-0], [NaN] and the empty string. *)
Lemma truthy_supplied (v : jsval) : truthy v = true -> v <> VUndef.
Proof. by destruct v. Qed.

(** C7, as the code has it: signed units, and each optional field
    present exactly when its parameter is truthy (for [price], when in
    addition the type is [LIMIT]); a present field carries the
    parameter. *)
Theorem placeOandaOrder_orderData_spec (orderParams : OrderParams) :
  let order := placeOandaOrder_orderData orderParams in
  (p_side orderParams = VStr "BUY" -> o_units order = p_units orderParams)
  /\ (p_side orderParams <> VStr "BUY" ->
      o_units order = (- p_units orderParams)%float)
  /\ (forall v, o_price order = Some v <->
        type_or_default (p_type orderParams) = VStr "LIMIT"
        /\ truthy (p_price orderParams) = true /\ v = p_price orderParams)
  /\ (forall b, o_stopLossOnFill order = Some b <->
        truthy (p_stopLoss orderParams) = true
        /\ b = mkOnFill (p_stopLoss orderParams))
  /\ (forall b, o_takeProfitOnFill order = Some b <->
        truthy (p_takeProfit orderParams) = true
        /\ b = mkOnFill (p_takeProfit orderParams)).
Proof.
  destruct orderParams as [sym sd un ty pr sl tp]. simpl.
  split; [by intros ->|]. split.
  { intros Hs. destruct (strict_eq sd (VStr "BUY")) eqn:E; [|done].
    by apply strict_eq_VStr in E. }
  split; [|split].
  - intros v. destruct (strict_eq _ _) eqn:E; simpl.
    + apply strict_eq_VStr in E. destruct (truthy pr).
      * split; [by intros [= <-]|by intros (_ & _ & ->)].
      * split; [done|by intros (_ & ? & _)].
    + split; [done|]. intros (H & _ & _).
      apply strict_eq_VStr in H. congruence.
  - intros b. destruct (truthy sl).
    + split; [by intros [= <-]|by intros (_ & ->)].
    + split; [done|by intros (? & _)].
  - intros b. destruct (truthy tp).
    + split; [by intros [= <-]|by intros (_ & ->)].
    + split; [done|by intros (? & _)].
Qed.

Lemma placeOandaOrder_orderData_spec_witness :
  o_units
    (placeOandaOrder_orderData
       (mkOrderParams (VStr "EUR_USD") (VStr "SELL") 1000 VUndef VUndef
                      (VNum 1.25) VUndef))
  = (-1000)%float
  /\ o_stopLossOnFill
       (placeOandaOrder_orderData
          (mkOrderParams (VStr "EUR_USD") (VStr "SELL") 1000 VUndef VUndef
                         (VNum 1.25) VUndef))
     = Some (mkOnFill (VNum 1.25)).
Proof.
  split.
  - refine (proj1 (proj2 (placeOandaOrder_orderData_spec
      (mkOrderParams (VStr "EUR_USD") (VStr "SELL") 1000 VUndef VUndef
                     (VNum 1.25) VUndef))) _).
    discriminate.
  - apply (proj1 (proj2 (proj2 (proj2 (placeOandaOrder_orderData_spec
      (mkOrderParams (VStr "EUR_USD") (VStr "SELL") 1000 VUndef VUndef
                     (VNum 1.25) VUndef)))))).
    by split.
Defined.

(** On the values the order validation admits, positive numbers, a
    supplied stop loss or take profit is in the payload, and so is the
    price of a limit order. *)
Lemma placeOandaOrder_positive_levels (orderParams : OrderParams) (x : float) :
  PrimFloat.ltb 0 x = true ->
  (p_stopLoss orderParams = VNum x ->
   o_stopLossOnFill (placeOandaOrder_orderData orderParams)
   = Some (mkOnFill (VNum x)))
  /\ (p_takeProfit orderParams = VNum x ->
      o_takeProfitOnFill (placeOandaOrder_orderData orderParams)
      = Some (mkOnFill (VNum x)))
  /\ (p_type orderParams = VStr "LIMIT" -> p_price orderParams = VNum x ->
      o_price (placeOandaOrder_orderData orderParams) = Some (VNum x)).
Proof.
  intros [Hz Hn]%positive_not_zero_nan.
  assert (truthy (VNum x) = true) as Ht by (simpl; by rewrite Hz, Hn).
  unfold placeOandaOrder_orderData; simpl.
  split; [|split].
  - intros ->. by rewrite Ht.
  - intros ->. by rewrite Ht.
  - intros -> ->. by rewrite Ht.
Qed.

(** C7 as stated fails: a stop loss and a limit price that are supplied
    as [0] are left out of the payload. *)
Lemma placeOandaOrder_zero_stopLoss_omitted :
  p_stopLoss (mkOrderParams (VStr "EUR_USD") (VStr "BUY") 1000
                (VStr "LIMIT") (VNum 0) (VNum 0) VUndef) <> VUndef
  /\ o_stopLossOnFill
       (placeOandaOrder_orderData
          (mkOrderParams (VStr "EUR_USD") (VStr "BUY") 1000
             (VStr "LIMIT") (VNum 0) (VNum 0) VUndef)) = None
  /\ o_price
       (placeOandaOrder_orderData
          (mkOrderParams (VStr "EUR_USD") (VStr "BUY") 1000
             (VStr "LIMIT") (VNum 0) (VNum 0) VUndef)) = None.
Proof. repeat split. discriminate. Qed.

End OrderPayload.

(** ** Timeframe conversion *)

Section Timeframes.

Lemma assoc_conversions_None (timeframe : string) :
  timeframe ∉ granularityTokens -> assoc conversions timeframe = None.
Proof.
  unfold granularityTokens, conversions; cbn [fmap list_fmap fst].
  rewrite !not_elem_of_cons. intros H.
  unfold conversions, assoc.
  repeat match goal with
         | |- context [String.eqb ?a timeframe] =>
             destruct (String.eqb_spec a timeframe); [exfalso; intuition congruence|]
         end.
  done.
Qed.

Lemma inherited_false (k : string) :
  inherited k = false -> assoc Object_prototype k = None.
Proof. unfold inherited. by destruct (assoc _ _). Qed.

(** What [convertTimeframe] does on every string (C10 away from inherited
    names): the seven tokens map to a granularity; any other string that
    is not the name of a member of [Object.prototype] comes back
    unchanged, [1w] and [1M] among them. *)
Theorem convertTimeframe_spec :
  (convertTimeframe "1m" = VStr "M1" /\ convertTimeframe "5m" = VStr "M5"
   /\ convertTimeframe "15m" = VStr "M15" /\ convertTimeframe "30m" = VStr "M30"
   /\ convertTimeframe "1h" = VStr "H1" /\ convertTimeframe "4h" = VStr "H4"
   /\ convertTimeframe "1d" = VStr "D")
  /\ (forall timeframe : string,
        timeframe ∉ granularityTokens -> inherited timeframe = false ->
        convertTimeframe timeframe = VStr timeframe)
  /\ (("1w" ∈ validTimeframes) /\ convertTimeframe "1w" = VStr "1w")
  /\ (("1M" ∈ validTimeframes) /\ convertTimeframe "1M" = VStr "1M").
Proof.
  split; [by repeat split|]. split.
  - intros timeframe Hn Hi. unfold convertTimeframe, get_literal.
    rewrite (assoc_conversions_None _ Hn), (inherited_false _ Hi). done.
  - split; (split; [unfold validTimeframes; set_solver|reflexivity]).
Qed.

Lemma convertTimeframe_spec_witness :
  ("2h" ∉ granularityTokens) /\ inherited "2h" = false
  /\ convertTimeframe "2h" = VStr "2h".
Proof.
  assert ("2h" ∉ granularityTokens) as Hn.
  { unfold granularityTokens, conversions; cbn [fmap list_fmap fst].
  rewrite !not_elem_of_cons, elem_of_nil.
    repeat split; discriminate || tauto. }
  split; [exact Hn|]. split; [reflexivity|].
  exact (proj1 (proj2 convertTimeframe_spec) "2h" Hn eq_refl).
Defined.

(** C10 fails on the code: [toString] is a string other than the seven
    tokens, and [conversions[timeframe]] finds the inherited member, which
    comes back instead of the string. *)
Lemma convertTimeframe_toString :
  ("toString" ∉ granularityTokens)
  /\ convertTimeframe "toString" = VBuiltin "Object.prototype.toString"
  /\ convertTimeframe "toString" <> VStr "toString".
Proof.
  split; [|by split].
  unfold granularityTokens, conversions; cbn [fmap list_fmap fst].
  rewrite !not_elem_of_cons, elem_of_nil.
  repeat split; discriminate || tauto.
Qed.

End Timeframes.

(** ** Transaction events *)

Section Transactions.

Implicit Types (connection : Ledger) (data : object).

(** What [Object.assign] leaves in the target, property by property. *)
Lemma Object_assign_lookup (target source : object) (k : string) :
  k <> "__proto__" ->
  Object_assign target source !! k
  = match source !! k with Some v => Some v | None => target !! k end.
Proof.
  intros Hk. unfold Object_assign.
  destruct (bool_decide _); rewrite lookup_union.
  - destruct (source !! k), (target !! k); done.
  - rewrite lookup_delete_ne by done.
    destruct (source !! k), (target !! k); done.
Qed.

Lemma handle_fill connection data :
  get_prop data "type" = VStr "ORDER_FILL" ->
  handleTransactionUpdate connection data = updatePosition connection data.
Proof. unfold handleTransactionUpdate. by intros ->. Qed.

Lemma handle_cancel connection data :
  get_prop data "type" = VStr "ORDER_CANCEL" ->
  handleTransactionUpdate connection data = cancelOrder connection data.
Proof. unfold handleTransactionUpdate. by intros ->. Qed.

(** C2, as the code has it: a fill changes nothing but the object of
    the position the event names, and only when that position exists;
    the event's own properties are written over the object's. No
    position is created or removed, and the order set is untouched. *)
Theorem handleTransactionUpdate_fill connection data :
  get_prop data "type" = VStr "ORDER_FILL" ->
  let positionId := get_prop data "positionId" in
  let connection' := handleTransactionUpdate connection data in
  positions connection' = positions connection
  /\ orders connection' = orders connection
  /\ match Map_get (positions connection) positionId with
     | None => objects connection' = objects connection
     | Some position =>
         (forall o, objects connection !! position = Some o ->
                    objects connection' !! position
                    = Some (Object_assign o data))
         /\ (forall l, l <> position ->
                       objects connection' !! l = objects connection !! l)
     end.
Proof.
  intros Ht. simpl. rewrite (handle_fill _ _ Ht). unfold updatePosition.
  destruct (Map_get _ _) as [position|] eqn:E; simpl; [|done].
  split; [|split; [done|split]].
  - unfold Map_set. by apply insert_id.
  - intros o Ho. by rewrite lookup_alter_eq, Ho.
  - intros l Hl. by rewrite lookup_alter_ne.
Qed.

(** C5: a cancel event applied twice leaves what one application
    leaves, and changes nothing when the order id is absent. *)
Theorem handleTransactionUpdate_cancel_idempotent connection data :
  get_prop data "type" = VStr "ORDER_CANCEL" ->
  handleTransactionUpdate (handleTransactionUpdate connection data) data
  = handleTransactionUpdate connection data
  /\ (Map_get (orders connection) (get_prop data "orderId") = None ->
      handleTransactionUpdate connection data = connection).
Proof.
  intros Ht. rewrite !(handle_cancel _ _ Ht).
  destruct connection as [σ ps os]. unfold cancelOrder, Map_delete; simpl.
  split.
  - by rewrite delete_delete_eq.
  - unfold Map_get. intros Ha. by rewrite delete_id.
Qed.

Lemma handleTransactionUpdate_fill_witness :
  get_prop {[ "type" := VStr "ORDER_FILL"; "positionId" := VStr "p1";
              "units" := VNum 0 ]} "type" = VStr "ORDER_FILL"
  /\ orders
       (handleTransactionUpdate
          (mkLedger {[ 0 := {[ "units" := VNum 1000 ]} ]}
                    {[ VStr "p1" := 0 ]} {[ VStr "o1" := 1 ]})
          {[ "type" := VStr "ORDER_FILL"; "positionId" := VStr "p1";
             "units" := VNum 0 ]})
     = {[ VStr "o1" := 1 ]}.
Proof.
  assert (get_prop {[ "type" := VStr "ORDER_FILL"; "positionId" := VStr "p1";
                      "units" := VNum 0 ]} "type" = VStr "ORDER_FILL") as Ht
    by reflexivity.
  split; [exact Ht|].
  exact (proj1 (proj2 (handleTransactionUpdate_fill
    (mkLedger {[ 0 := {[ "units" := VNum 1000 ]} ]}
              {[ VStr "p1" := 0 ]} {[ VStr "o1" := 1 ]}) _ Ht))).
Defined.

(** C2 as stated fails. A fill for a position that does not exist
    creates none and leaves the order it names in the order set; a fill
    that brings a position's units to [0] leaves the position in
    place. *)
Lemma handleTransactionUpdate_fill_no_upsert :
  (Map_get
     (positions
        (handleTransactionUpdate
           (mkLedger {[ 1 := {[ "units" := VNum 1000 ]} ]}
                     ∅ {[ VStr "o1" := 1 ]})
           {[ "type" := VStr "ORDER_FILL"; "positionId" := VStr "p1";
              "orderId" := VStr "o1"; "units" := VNum 1000 ]}))
     (VStr "p1") = None
   /\ Map_get
        (orders
           (handleTransactionUpdate
              (mkLedger {[ 1 := {[ "units" := VNum 1000 ]} ]}
                        ∅ {[ VStr "o1" := 1 ]})
              {[ "type" := VStr "ORDER_FILL"; "positionId" := VStr "p1";
                 "orderId" := VStr "o1"; "units" := VNum 1000 ]}))
        (VStr "o1") = Some 1)
  /\ (Map_get
        (positions
           (handleTransactionUpdate
              (mkLedger {[ 0 := {[ "units" := VNum 1000 ]} ]}
                        {[ VStr "p1" := 0 ]} ∅)
              {[ "type" := VStr "ORDER_FILL"; "positionId" := VStr "p1";
                 "units" := VNum 0 ]}))
        (VStr "p1") = Some 0
      /\ (objects
            (handleTransactionUpdate
               (mkLedger {[ 0 := {[ "units" := VNum 1000 ]} ]}
                         {[ VStr "p1" := 0 ]} ∅)
               {[ "type" := VStr "ORDER_FILL"; "positionId" := VStr "p1";
                  "units" := VNum 0 ]}) !! 0) ≫= (.!! "units")
         = Some (VNum 0)).
Proof. vm_compute. repeat split. Qed.

Lemma handleTransactionUpdate_cancel_idempotent_witness :
  get_prop {[ "type" := VStr "ORDER_CANCEL"; "orderId" := VStr "o1" ]} "type"
  = VStr "ORDER_CANCEL"
  /\ handleTransactionUpdate
       (handleTransactionUpdate
          (mkLedger ∅ ∅ {[ VStr "o1" := 1; VStr "o2" := 2 ]})
          {[ "type" := VStr "ORDER_CANCEL"; "orderId" := VStr "o1" ]})
       {[ "type" := VStr "ORDER_CANCEL"; "orderId" := VStr "o1" ]}
     = handleTransactionUpdate
         (mkLedger ∅ ∅ {[ VStr "o1" := 1; VStr "o2" := 2 ]})
         {[ "type" := VStr "ORDER_CANCEL"; "orderId" := VStr "o1" ]}.
Proof.
  assert (get_prop {[ "type" := VStr "ORDER_CANCEL";
                      "orderId" := VStr "o1" ]} "type"
          = VStr "ORDER_CANCEL") as Ht by reflexivity.
  split; [exact Ht|].
  exact (proj1 (handleTransactionUpdate_cancel_idempotent
    (mkLedger ∅ ∅ {[ VStr "o1" := 1; VStr "o2" := 2 ]}) _ Ht)).
Defined.

End Transactions.

(** ** Snapshot cache *)

Section Cache.

Implicit Types (st : Service) (symbol timeframe : string) (d : MarketData).

Lemma getCachedData_state st symbol timeframe :
  (getCachedData st symbol timeframe).2 = st.
Proof.
  unfold getCachedData. destruct (cache st !! _) as [e|]; [|done].
  by destruct (_ <? _)%Z.
Qed.

Lemma getCachedData_hit st symbol timeframe d :
  (getCachedData st symbol timeframe).1 = Some d <->
  exists e, cache st !! (symbol ++ "_" ++ timeframe) = Some e
            /\ data e = d /\ (clock st - timestamp e < 60000)%Z.
Proof.
  unfold getCachedData. destruct (cache st !! _) as [e|] eqn:E.
  - destruct (Z.ltb_spec (clock st - timestamp e) 60000); simpl.
    + split; [intros [= <-]; eauto|]. by intros (e' & [= <-] & -> & _).
    + split; [done|]. intros (e' & [= <-] & _ & ?). lia.
  - split; [done|]. by intros (e' & ? & _).
Qed.

Lemma getCachedData_after_put st symbol d (ms : Z) :
  (getCachedData (advance (updateCache st symbol d) ms) symbol
                 (string_or (data_timeframe d) "realtime")).1
  = if (ms <? 60000)%Z then Some d else None.
Proof.
  unfold getCachedData, advance, updateCache; simpl.
  rewrite lookup_insert_eq; simpl.
  replace (clock st + ms - clock st)%Z with ms by lia.
  by destruct (ms <? 60000)%Z.
Qed.

(** C4: a hit is exactly a stored entry younger than 60 seconds; a read
    changes nothing, so a stale entry stays; a read right after a write
    under the same key gives back what was written, and a read 61
    seconds later misses. *)
Theorem getCachedData_spec st symbol timeframe :
  (forall d,
     (getCachedData st symbol timeframe).1 = Some d <->
     exists e, cache st !! (symbol ++ "_" ++ timeframe) = Some e
               /\ data e = d /\ (clock st - timestamp e < 60000)%Z)
  /\ ((getCachedData st symbol timeframe).1 = None <->
      forall e, cache st !! (symbol ++ "_" ++ timeframe) = Some e ->
                (60000 <= clock st - timestamp e)%Z)
  /\ (getCachedData st symbol timeframe).2 = st
  /\ (forall d,
        cache (updateCache st symbol d)
          !! (symbol ++ "_" ++ string_or (data_timeframe d) "realtime")
        = Some (mkCacheEntry d (clock st))
        /\ (getCachedData (updateCache st symbol d) symbol
               (string_or (data_timeframe d) "realtime")).1 = Some d
        /\ (getCachedData (advance (updateCache st symbol d) 61000) symbol
               (string_or (data_timeframe d) "realtime")).1 = None
        /\ cache (getCachedData (advance (updateCache st symbol d) 61000)
                   symbol (string_or (data_timeframe d) "realtime")).2
             !! (symbol ++ "_" ++ string_or (data_timeframe d) "realtime")
           = Some (mkCacheEntry d (clock st))).
Proof.
  split; [intros d; apply getCachedData_hit|].
  split; [|split; [apply getCachedData_state|]].
  - unfold getCachedData. destruct (cache st !! _) as [e|] eqn:E.
    + destruct (Z.ltb_spec (clock st - timestamp e) 60000); simpl.
      * split; [done|]. intros H'. specialize (H' e eq_refl). lia.
      * split; [|done]. by intros _ e' [= <-].
    + split; [|done]. by intros _ e' ?.
  - intros d. split; [|split; [|split]].
    + unfold updateCache; simpl. by rewrite lookup_insert_eq.
    + pose proof (getCachedData_after_put st symbol d 0) as H.
      assert (advance (updateCache st symbol d) 0 = updateCache st symbol d)
        as E.
      { unfold advance, updateCache, set_cache; simpl. f_equal. lia. }
      by rewrite E in H.
    + apply (getCachedData_after_put st symbol d 61000).
    + rewrite getCachedData_state. unfold advance, updateCache; simpl.
      by rewrite lookup_insert_eq.
Qed.

Lemma getCachedData_spec_witness :
  (getCachedData
     (updateCache (new 0) "EUR_USD"
        (TickData (mkTick (VStr "EUR_USD") 1.25 1.125 1.25 0.125 "" 0 0 0)))
     "EUR_USD" "realtime").1
  = Some (TickData (mkTick (VStr "EUR_USD") 1.25 1.125 1.25 0.125 "" 0 0 0))
  /\ (getCachedData
        (advance
           (updateCache (new 0) "EUR_USD"
              (TickData (mkTick (VStr "EUR_USD") 1.25 1.125 1.25 0.125 "" 0 0 0)))
           61000)
        "EUR_USD" "realtime").1
     = None.
Proof.
  pose proof (proj2 (proj2 (proj2
    (getCachedData_spec (new 0) "EUR_USD" "realtime")))
    (TickData (mkTick (VStr "EUR_USD") 1.25 1.125 1.25 0.125 "" 0 0 0)))
    as (_ & Hhit & Hmiss & _).
  split; [exact Hhit|exact Hmiss].
Defined.

End Cache.

(** ** Ticks *)

Section Ticks.

Variable parseFloatString : string -> float.
Variable toISOString : Z -> string.

(** C8, as the code has it: bid and ask are what [parseFloat] reads, and
    the spread is their binary64 difference, with nothing done about its
    sign. For finite bid and ask, the spread is non-negative when bid is
    at most ask and negative when bid is above ask. *)
Theorem processRealTimeData_spread (now : Z) (data : object) :
  let tick := processRealTimeData parseFloatString toISOString now data in
  t_bid tick = parseFloat parseFloatString (get_prop data "bid")
  /\ t_ask tick = parseFloat parseFloatString (get_prop data "ask")
  /\ t_spread tick = (t_ask tick - t_bid tick)%float
  /\ (PrimFloat.is_finite (t_bid tick) = true ->
      PrimFloat.is_finite (t_ask tick) = true ->
      (PrimFloat.leb (t_bid tick) (t_ask tick) = true ->
       PrimFloat.leb 0 (t_spread tick) = true)
      /\ (PrimFloat.ltb (t_ask tick) (t_bid tick) = true ->
          PrimFloat.ltb (t_spread tick) 0 = true)).
Proof.
  simpl. repeat split.
  - by apply sub_nonneg.
  - by apply sub_negative.
Qed.

End Ticks.

Lemma processRealTimeData_spread_witness :
  PrimFloat.leb 0
    (t_spread (processRealTimeData (fun _ => nan) (fun _ => "") 0
                 {[ "instrument" := VStr "EUR_USD";
                    "bid" := VNum 1.125; "ask" := VNum 1.25 ]}))
  = true.
Proof.
  refine (proj1 (proj2 (proj2 (proj2
    (processRealTimeData_spread (fun _ => nan) (fun _ => "") 0
       {[ "instrument" := VStr "EUR_USD";
          "bid" := VNum 1.125; "ask" := VNum 1.25 ]}))) _ _) _);
    reflexivity.
Defined.

(** C8 as stated fails: an inverted quote gives a negative spread. The
    quote is numeric, so the string parser plays no part. *)
Lemma processRealTimeData_negative_spread :
  t_spread (processRealTimeData (fun _ => nan) (fun _ => "") 0
              {[ "instrument" := VStr "EUR_USD";
                 "bid" := VNum 1.25; "ask" := VNum 1.125 ]})
  = (-0.125)%float
  /\ PrimFloat.ltb
       (t_spread (processRealTimeData (fun _ => nan) (fun _ => "") 0
                    {[ "instrument" := VStr "EUR_USD";
                       "bid" := VNum 1.25; "ask" := VNum 1.125 ]})) 0
     = true.
Proof. split; reflexivity. Qed.

(** ** Connecting to the broker *)

Section Connect.

Variable axios_get : list call -> call -> outcome Response.
Variable io : list call -> call -> outcome unit.

Implicit Types (w : Broker) (e : error).

Lemma bind_Returned {A B} (m : M A) (k : A -> M B) w a w' :
  m w = (Returned a, w') -> (m ≫= k) w = k a w'.
Proof. unfold mbind, M_bind, bind. by intros ->. Qed.

Lemma bind_Threw {A B} (m : M A) (k : A -> M B) w e w' :
  m w = (Threw e, w') -> (m ≫= k) w = (Threw e, w').
Proof. unfold mbind, M_bind, bind. by intros ->. Qed.

Lemma keeps_bind {A B} (m : M A) (k : A -> M B) :
  keeps_registry m -> (forall a, keeps_registry (k a)) ->
  keeps_registry (m ≫= k).
Proof.
  intros Hm Hk w r w'. unfold mbind, M_bind, bind.
  destruct (m w) as [[a|e] w1] eqn:E.
  - intros H. rewrite (Hk _ _ _ _ H). eapply Hm, E.
  - intros [= <- <-]. eapply Hm, E.
Qed.

Lemma keeps_ret {A} (a : A) : keeps_registry (ret a).
Proof. by intros w r w' [= <- <-]. Qed.

Lemma keeps_throw {A} e : keeps_registry (@throw A e).
Proof. by intros w r w' [= <- <-]. Qed.

Lemma keeps_lift {A} (o : outcome A) : keeps_registry (lift o).
Proof. by intros w r w' [= <- <-]. Qed.

Lemma keeps_record c : keeps_registry (record c).
Proof. by intros w r w' [= <- <-]. Qed.

Lemma keeps_alloc c : keeps_registry (alloc c).
Proof. by intros w r w' [= <- <-]. Qed.

Lemma keeps_read l : keeps_registry (read l).
Proof.
  intros w r w'. unfold read. by destruct (_ !! _); intros [= <- <-].
Qed.

Lemma keeps_write l c : keeps_registry (write l c).
Proof. by intros w r w' [= <- <-]. Qed.

Lemma keeps_request c : keeps_registry (request axios_get c).
Proof. by intros w r w' [= <- <-]. Qed.

Lemma keeps_open_socket c : keeps_registry (open_socket io c).
Proof.
  intros w r w'. unfold open_socket. by destruct (io _ _); intros [= <- <-].
Qed.

Create HintDb registry.
Hint Resolve keeps_ret keeps_throw keeps_lift keeps_record keeps_alloc
  keeps_read keeps_write keeps_request keeps_open_socket : registry.

Ltac keeps :=
  repeat first
    [ apply keeps_bind; [|intros ?]
    | progress auto with registry
    | match goal with
      | |- keeps_registry (if ?b then _ else _) => destruct b
      | |- keeps_registry (match ?x with _ => _ end) => destruct x
      end ].

Lemma keeps_authenticate l : keeps_registry (authenticate axios_get l).
Proof. unfold authenticate, authenticateOanda. keeps. Qed.

Lemma keeps_getAccountInfo l : keeps_registry (getAccountInfo axios_get l).
Proof. unfold getAccountInfo, getOandaAccountInfo. keeps. Qed.

Lemma keeps_connectToStream l :
  keeps_registry (BrokerIntegration.connectToStream io l).
Proof.
  unfold BrokerIntegration.connectToStream, connectOandaStream. keeps.
Qed.

Lemma keeps_lookup_broker b : keeps_registry (lookup_broker b).
Proof. unfold lookup_broker. keeps. Qed.

Hint Resolve keeps_authenticate keeps_getAccountInfo keeps_connectToStream
  keeps_lookup_broker : registry.

Lemma keeps_connect_steps b c d :
  keeps_registry (connect_steps axios_get io b c d).
Proof. unfold connect_steps. keeps. Qed.

(** Whatever makes [connectToBroker] throw, [this.connections] is as it
    was. *)
Lemma connectToBroker_Threw b c d w e w' :
  connectToBroker axios_get io b c d w = (Threw e, w') ->
  BrokerIntegration.connections w' = BrokerIntegration.connections w.
Proof.
  unfold connectToBroker. destruct (negb _).
  { by intros [= <- <-]. }
  unfold try_catch, mbind at 1, M_bind at 1, bind at 1.
  destruct (connect_steps _ _ _ _ _ w) as [[l|e1] w1] eqn:E; [done|].
  intros [= <- <-]. simpl. eapply keeps_connect_steps, E.
Qed.

Lemma grows_bind {A B} (m : M A) (k : A -> M B) :
  grows m -> (forall a, grows (k a)) -> grows (m ≫= k).
Proof.
  intros Hm Hk w r w'. unfold mbind, M_bind, bind.
  destruct (m w) as [[a|e] w1] eqn:E.
  - intros H. destruct (Hm _ _ _ E) as [cs E1].
    destruct (Hk _ _ _ _ H) as [cs' E2]. exists (cs ++ cs')%list.
    by rewrite E2, E1, app_assoc.
  - intros [= <- <-]. eapply Hm, E.
Qed.

Lemma grows_nil {A} (m : M A) :
  (forall w r w', m w = (r, w') -> calls w' = calls w) -> grows m.
Proof. intros H w r w' E. exists []. by rewrite app_nil_r, (H _ _ _ E). Qed.

Lemma grows_ret {A} (a : A) : grows (ret a).
Proof. apply grows_nil. by intros w r w' [= <- <-]. Qed.

Lemma grows_throw {A} e : grows (@throw A e).
Proof. apply grows_nil. by intros w r w' [= <- <-]. Qed.

Lemma grows_lift {A} (o : outcome A) : grows (lift o).
Proof. apply grows_nil. by intros w r w' [= <- <-]. Qed.

Lemma grows_read l : grows (read l).
Proof.
  apply grows_nil. intros w r w'. unfold read.
  by destruct (_ !! _); intros [= <- <-].
Qed.

Lemma grows_write l c : grows (write l c).
Proof. apply grows_nil. by intros w r w' [= <- <-]. Qed.

Lemma grows_request c : grows (request axios_get c).
Proof. intros w r w' [= <- <-]. by eexists. Qed.

Lemma grows_open_socket c : grows (open_socket io c).
Proof.
  intros w r w'. unfold open_socket.
  destruct (io _ _); intros [= <- <-]; by eexists.
Qed.

Hint Resolve grows_ret grows_throw grows_lift grows_read grows_write
  grows_request grows_open_socket : registry.

Ltac grows :=
  repeat first
    [ apply grows_bind; [|intros ?]
    | progress auto with registry
    | match goal with
      | |- grows (if ?b then _ else _) => destruct b
      | |- grows (match ?x with _ => _ end) => destruct x
      end ].

Lemma grows_getAccountInfo l : grows (getAccountInfo axios_get l).
Proof. unfold getAccountInfo, getOandaAccountInfo. grows. Qed.

Lemma grows_connectToStream l :
  grows (BrokerIntegration.connectToStream io l).
Proof. unfold BrokerIntegration.connectToStream, connectOandaStream. grows. Qed.

(** A successful [authenticate] has sent the accounts request. *)
Lemma authenticate_Returned l w u w' :
  authenticate axios_get l w = (Returned u, w') ->
  exists c apiKey,
    sessions w !! l = Some c
    /\ calls w' = (calls w ++ [AxiosGetAccounts (baseUrl c) apiKey])%list.
Proof.
  unfold authenticate, authenticateOanda, mbind, M_bind, bind, read, lift,
    request, write, throw.
  destruct (sessions w !! l) as [c|]; [|done].
  destruct (json_get (credentials c) "apiKey") as [apiKey|]; [|done].
  destruct (axios_get _ _) as [response|]; [|done].
  destruct (negb _); [done|].
  destruct (json_get _ "accounts") as [accounts|]; [|done].
  destruct (json_first accounts) as [first|]; [|done].
  intros [= <- <-]. by exists c, apiKey.
Qed.

Lemma connect_steps_oanda c d w :
  connect_steps axios_get io (VStr "oanda") c (isDemo_or_default d) w
  = (authenticate axios_get (length (sessions w));;
     getAccountInfo axios_get (length (sessions w));;
     BrokerIntegration.connectToStream io (length (sessions w));;
     ret (length (sessions w))) (started (VStr "oanda") c d w).
Proof. reflexivity. Qed.

Lemma connectToBroker_oanda c d w :
  connectToBroker axios_get io (VStr "oanda") c d w
  = try_catch
      (connection ← connect_steps axios_get io (VStr "oanda") c
                                   (isDemo_or_default d);
       connections_set (VStr "oanda") connection;;
       ret connection)
      (fun error => record (ConsoleError (VStr "oanda") error);; throw error)
      w.
Proof. reflexivity. Qed.

Lemma connectToBroker_not_oanda b c d w :
  b <> VStr "oanda" ->
  connectToBroker axios_get io b c d w = (Threw OnlyOandaSupported, w).
Proof.
  intros Hb%strict_eq_VStr_false. unfold connectToBroker. by rewrite Hb.
Qed.

Lemma authenticate_session l w u w' :
  authenticate axios_get l w = (Returned u, w') ->
  exists c apiKey response accounts,
    sessions w !! l = Some c
    /\ json_get (credentials c) "apiKey" = Returned apiKey
    /\ axios_get (calls w) (AxiosGetAccounts (baseUrl c) apiKey)
       = Returned response
    /\ status response = 200%Z
    /\ json_get (r_data response) "accounts" = Returned accounts
    /\ exists first,
        json_first accounts = Returned first
        /\ w' = mkBroker (BrokerIntegration.connections w)
                  (<[l := mkConnection (brokerId c) (isDemo c) (baseUrl c)
                            (streamUrl c) (credentials c) true first
                            (accountInfo c) (c_positions c) (c_orders c)
                            (stream c)]> (sessions w))
                  (streams w)
                  (calls w ++ [AxiosGetAccounts (baseUrl c) apiKey]).
Proof.
  unfold authenticate, authenticateOanda, mbind, M_bind, bind, read, lift,
    request, write, throw.
  destruct (sessions w !! l) as [c|]; [|done].
  destruct (json_get (credentials c) "apiKey") as [apiKey|] eqn:Ek; [|done].
  destruct (axios_get _ _) as [response|] eqn:Er; [|done].
  destruct (status response =? 200)%Z eqn:Es; [|done]. simpl.
  destruct (json_get _ "accounts") as [accounts|] eqn:Ea; [|done].
  destruct (json_first accounts) as [first|] eqn:Ef; [|done].
  intros [= <- <-]. apply Z.eqb_eq in Es.
  exists c, apiKey, response, accounts. repeat split; try done. by exists first.
Qed.

Lemma getAccountInfo_session l w u w' :
  getAccountInfo axios_get l w = (Returned u, w') ->
  exists c id apiKey response,
    sessions w !! l = Some c
    /\ json_get (account c) "id" = Returned id
    /\ json_get (credentials c) "apiKey" = Returned apiKey
    /\ w' = mkBroker (BrokerIntegration.connections w)
              (<[l := mkConnection (brokerId c) (isDemo c) (baseUrl c)
                        (streamUrl c) (credentials c) (connected c)
                        (account c) (r_data response) (c_positions c)
                        (c_orders c) (stream c)]> (sessions w))
              (streams w)
              (calls w ++ [AxiosGetAccount (baseUrl c) id apiKey]).
Proof.
  unfold getAccountInfo, getOandaAccountInfo, mbind, M_bind, bind, read, lift,
    request, write.
  destruct (sessions w !! l) as [c|]; [|done].
  destruct (json_get (account c) "id") as [id|] eqn:Ei; [|done].
  destruct (json_get (credentials c) "apiKey") as [apiKey|] eqn:Ek; [|done].
  destruct (axios_get _ _) as [response|] eqn:Er; [|done].
  intros [= <- <-]. by exists c, id, apiKey, response.
Qed.

Lemma connectToStream_session l w u w' :
  BrokerIntegration.connectToStream io l w = (Returned u, w') ->
  exists c token,
    sessions w !! l = Some c
    /\ w' = mkBroker (BrokerIntegration.connections w)
              (<[l := mkConnection (brokerId c) (isDemo c) (baseUrl c)
                        (streamUrl c) (credentials c) (connected c)
                        (account c) (accountInfo c) (c_positions c)
                        (c_orders c) (Some (streams w))]> (sessions w))
              (S (streams w))
              (calls w ++ [Io (streamUrl c) token]).
Proof.
  unfold BrokerIntegration.connectToStream, connectOandaStream, mbind, M_bind,
    bind, read, lift, open_socket, write.
  destruct (sessions w !! l) as [c|]; [|done].
  destruct (json_get (credentials c) "apiKey") as [token|] eqn:Ek; [|done].
  destruct (io _ _) as [[]|] eqn:Er; [|done].
  intros [= <- <-]. by exists c, token.
Qed.

(** [connectToStream] does what [io()] does: it throws when [io()]
    throws, and returns as soon as [io()] has returned a socket. *)
Lemma connectToStream_io l w c token :
  sessions w !! l = Some c ->
  json_get (credentials c) "apiKey" = Returned token ->
  BrokerIntegration.connectToStream io l w
  = match io (calls w) (Io (streamUrl c) token) with
    | Returned _ =>
        (Returned tt,
         mkBroker (BrokerIntegration.connections w)
           (<[l := mkConnection (brokerId c) (isDemo c) (baseUrl c)
                     (streamUrl c) (credentials c) (connected c)
                     (account c) (accountInfo c) (c_positions c)
                     (c_orders c) (Some (streams w))]> (sessions w))
           (S (streams w))
           (calls w ++ [Io (streamUrl c) token]))
    | Threw e =>
        (Threw e,
         mkBroker (BrokerIntegration.connections w) (sessions w) (streams w)
                  (calls w ++ [Io (streamUrl c) token]))
    end.
Proof.
  intros Hc Hk.
  unfold BrokerIntegration.connectToStream, connectOandaStream, mbind, M_bind,
    bind, read, lift, open_socket, write.
  rewrite Hc, Hk. by destruct (io _ _) as [[]|].
Qed.

(** C3, as the code has it: when the guard, authentication, account
    discovery or the account-detail fetch throws, or [io()] itself
    throws, [connectToBroker] throws and [this.connections] is as it
    was. Stream setup is not waited for: it fails only where [io()]
    throws, and once [io()] has returned a socket the session is
    registered and returned, the call of [io()] being the last thing
    done about the stream. *)
Theorem connectToBroker_fails_closed (brokerId : jsval) (credentials : json)
        (isDemo : jsval) w :
  let connection := length (sessions w) in
  let w0 := started brokerId credentials isDemo w in
  ((brokerId <> VStr "oanda"
    \/ (exists e w1, authenticate axios_get connection w0 = (Threw e, w1))
    \/ (exists w1 e w2,
          authenticate axios_get connection w0 = (Returned tt, w1)
          /\ getAccountInfo axios_get connection w1 = (Threw e, w2))
    \/ (exists w1 w2 e w3,
          authenticate axios_get connection w0 = (Returned tt, w1)
          /\ getAccountInfo axios_get connection w1 = (Returned tt, w2)
          /\ BrokerIntegration.connectToStream io connection w2
             = (Threw e, w3))) ->
   exists e w',
     connectToBroker axios_get io brokerId credentials isDemo w = (Threw e, w')
     /\ BrokerIntegration.connections w' = BrokerIntegration.connections w)
  /\ (brokerId = VStr "oanda" ->
      forall w1 w2,
        authenticate axios_get connection w0 = (Returned tt, w1) ->
        getAccountInfo axios_get connection w1 = (Returned tt, w2) ->
        exists streamUrl token,
          match io (calls w2) (Io streamUrl token) with
          | Threw e =>
              exists w3, BrokerIntegration.connectToStream io connection w2
                         = (Threw e, w3)
          | Returned _ =>
              exists w',
                connectToBroker axios_get io brokerId credentials isDemo w
                = (Returned connection, w')
                /\ Map_get (BrokerIntegration.connections w') brokerId
                   = Some connection
                /\ calls w' = (calls w2 ++ [Io streamUrl token])%list
          end).
Proof.
  intros connection w0. split.
  { intros H.
    assert (exists e w', connectToBroker axios_get io brokerId credentials
                           isDemo w = (Threw e, w')) as (e & w' & E).
    { destruct (decide (brokerId = VStr "oanda")) as [->|Hb];
        [|by rewrite connectToBroker_not_oanda; eauto].
      rewrite connectToBroker_oanda. unfold try_catch.
      assert (exists e w1, connect_steps axios_get io (VStr "oanda") credentials
                (isDemo_or_default isDemo) w = (Threw e, w1)) as (e & w1 & E).
      { rewrite connect_steps_oanda. fold connection. fold w0.
        destruct H as [?|[(e & w1 & E1)|[(w1 & e & w2 & E1 & E2)
                         |(w1 & w2 & e & w3 & E1 & E2 & E3)]]]; [done|..].
        - exists e, w1. by apply bind_Threw.
        - exists e, w2. rewrite (bind_Returned _ _ _ _ _ E1).
          by apply bind_Threw.
        - exists e, w3. rewrite (bind_Returned _ _ _ _ _ E1).
          rewrite (bind_Returned _ _ _ _ _ E2). by apply bind_Threw. }
      rewrite (bind_Threw _ _ _ _ _ E). eauto. }
    exists e, w'. split; [done|]. eapply connectToBroker_Threw, E. }
  rename credentials into given, isDemo into demo.
  intros -> w1 w2 E1 E2.
  pose proof E2 as (c1 & id & apiKey & response & Hc1 & _ & Hk & Ew2)
    %getAccountInfo_session.
  assert (connection < length (sessions w1)) as Hl
    by (by eapply lookup_lt_Some).
  set (c2 := mkConnection (brokerId c1) (isDemo c1) (baseUrl c1) (streamUrl c1)
               (credentials c1) (connected c1) (account c1)
               (r_data response) (c_positions c1) (c_orders c1) (stream c1))
    in Ew2.
  assert (sessions w2 !! connection = Some c2) as Hc2.
  { rewrite Ew2; simpl. by rewrite list_lookup_insert_eq. }
  pose proof (connectToStream_io connection w2 c2 apiKey Hc2 Hk) as E3.
  exists (streamUrl c2), apiKey.
  destruct (io (calls w2) (Io (streamUrl c2) apiKey)) as [[]|e] eqn:Eio;
    [|by eexists].
  eexists. rewrite connectToBroker_oanda. unfold try_catch.
  unfold mbind at 1, M_bind at 1, bind at 1.
  rewrite connect_steps_oanda. fold connection. fold w0.
  rewrite (bind_Returned _ _ _ _ _ E1), (bind_Returned _ _ _ _ _ E2),
    (bind_Returned _ _ _ _ _ E3).
  split; [reflexivity|]. simpl. split; [|done].
  unfold Map_get, Map_set. by rewrite lookup_insert_eq.
Qed.

(** What a successful [connectToBroker] went through. *)
Lemma connectToBroker_Returned b c d w l w' :
  connectToBroker axios_get io b c d w = (Returned l, w') ->
  b = VStr "oanda" /\ l = length (sessions w)
  /\ exists w1 w2 w3,
      authenticate axios_get l (started b c d w) = (Returned tt, w1)
      /\ getAccountInfo axios_get l w1 = (Returned tt, w2)
      /\ BrokerIntegration.connectToStream io l w2 = (Returned tt, w3)
      /\ w' = mkBroker (Map_set (BrokerIntegration.connections w3) b l)
                       (sessions w3) (streams w3) (calls w3).
Proof.
  destruct (decide (b = VStr "oanda")) as [->|Hb];
    [|by rewrite connectToBroker_not_oanda].
  rewrite connectToBroker_oanda. unfold try_catch.
  unfold mbind at 1, M_bind at 1, bind at 1.
  rewrite connect_steps_oanda.
  unfold mbind, M_bind, bind.
  destruct (authenticate _ _ _) as [[[]|e1] w1] eqn:E1; [|done].
  destruct (getAccountInfo _ _ _) as [[[]|e2] w2] eqn:E2; [|done].
  destruct (BrokerIntegration.connectToStream _ _ _) as [[[]|e3] w3] eqn:E3;
    [|done].
  simpl. intros [= <- <-]. split; [done|]. split; [done|].
  exists w1, w2, w3. by rewrite E1.
Qed.

(** C6, as the code has it: connecting under an id that is already
    registered goes through the whole attempt again. When it succeeds,
    the accounts request has been sent again, the connection returned is
    a new one, and it replaces the registered one; when it fails, the
    registered one stays. *)
Theorem connectToBroker_again (brokerId : jsval) (credentials : json)
        (isDemo : jsval) w (existing : nat) :
  Map_get (BrokerIntegration.connections w) brokerId = Some existing ->
  existing < length (sessions w) ->
  match connectToBroker axios_get io brokerId credentials isDemo w with
  | (Returned connection, w') =>
      connection = length (sessions w)
      /\ connection <> existing
      /\ Map_get (BrokerIntegration.connections w') brokerId = Some connection
      /\ (exists url apiKey cs,
            calls w' = (calls w ++ AxiosGetAccounts url apiKey :: cs)%list)
  | (Threw e, w') =>
      BrokerIntegration.connections w' = BrokerIntegration.connections w
  end.
Proof.
  intros Hreg Hlt.
  destruct (connectToBroker _ _ _ _ _ w) as [[l|e] w'] eqn:E;
    [|by eapply connectToBroker_Threw].
  apply connectToBroker_Returned in E
    as (-> & -> & w1 & w2 & w3 & E1 & E2 & E3 & ->).
  split; [done|]. split; [lia|]. split.
  - unfold Map_get, Map_set; simpl. by rewrite lookup_insert_eq.
  - apply authenticate_Returned in E1 as (c & apiKey & _ & C1).
    apply grows_getAccountInfo in E2 as [cs2 C2].
    apply grows_connectToStream in E3 as [cs3 C3].
    exists (baseUrl c), apiKey, (cs2 ++ cs3)%list. simpl.
    rewrite C3, C2, C1. unfold started; simpl.
    by rewrite <- !app_assoc.
Qed.

End Connect.

(** A venue that is down: every request times out. *)
Lemma connectToBroker_fails_closed_witness :
  exists e w',
    connectToBroker (fun _ _ => Threw (External "timeout"))
                    (fun _ _ => Returned tt)
                    (VStr "oanda") (JObj [("apiKey", JPrim (VStr "key"))])
                    VUndef (mkBroker ∅ [] 0 [])
    = (Threw e, w')
    /\ BrokerIntegration.connections w' = ∅.
Proof.
  apply (proj1 (connectToBroker_fails_closed
                  (fun _ _ => Threw (External "timeout"))
                  (fun _ _ => Returned tt)
                  (VStr "oanda") (JObj [("apiKey", JPrim (VStr "key"))]) VUndef
                  (mkBroker ∅ [] 0 []))).
  right; left. eexists _, _. reflexivity.
Defined.

(** C3 as stated fails at stream setup: with a stream host that never
    answers, [connectToBroker] returns all the same and the session is
    registered, marked connected; the last thing it did was to call
    [io()]. *)
Lemma connectToBroker_silent_stream_registered :
  (connectToBroker venue_up stream_silent (VStr "oanda")
     (JObj [("apiKey", JPrim (VStr "key"))]) VUndef (mkBroker ∅ [] 0 [])).1
  = Returned 0
  /\ Map_get
       (BrokerIntegration.connections
          (connectToBroker venue_up stream_silent (VStr "oanda")
             (JObj [("apiKey", JPrim (VStr "key"))]) VUndef
             (mkBroker ∅ [] 0 [])).2)
       (VStr "oanda") = Some 0
  /\ connected
       <$> sessions
             (connectToBroker venue_up stream_silent (VStr "oanda")
                (JObj [("apiKey", JPrim (VStr "key"))]) VUndef
                (mkBroker ∅ [] 0 [])).2 !! 0
     = Some true
  /\ last (calls
             (connectToBroker venue_up stream_silent (VStr "oanda")
                (JObj [("apiKey", JPrim (VStr "key"))]) VUndef
                (mkBroker ∅ [] 0 [])).2)
     = Some (Io (VStr "https://stream-fxpractice.oanda.com")
                (JPrim (VStr "key"))).
Proof. vm_compute. by repeat split. Qed.

Lemma connectToBroker_again_witness :
  Map_get (BrokerIntegration.connections connected_once) (VStr "oanda") = Some 0
  /\ 0 < length (sessions connected_once)
  /\ match connectToBroker venue_up (fun _ _ => Returned tt) (VStr "oanda")
             (JObj [("apiKey", JPrim (VStr "second"))]) VUndef connected_once
     with
     | (Returned connection, w') =>
         connection = length (sessions connected_once)
         /\ connection <> 0
         /\ Map_get (BrokerIntegration.connections w') (VStr "oanda")
            = Some connection
         /\ (exists url apiKey cs,
               calls w'
               = (calls connected_once ++ AxiosGetAccounts url apiKey :: cs)%list)
     | (Threw e, w') =>
         BrokerIntegration.connections w'
         = BrokerIntegration.connections connected_once
     end.
Proof.
  assert (Map_get (BrokerIntegration.connections connected_once) (VStr "oanda")
          = Some 0) as Hreg by (vm_compute; reflexivity).
  assert (0 < length (sessions connected_once)) as Hlt
    by (vm_compute; lia).
  split; [exact Hreg|]. split; [exact Hlt|].
  exact (connectToBroker_again venue_up (fun _ _ => Returned tt)
           (VStr "oanda") (JObj [("apiKey", JPrim (VStr "second"))])
           VUndef connected_once 0 Hreg Hlt).
Defined.

(** An account list that comes back empty: [authenticate] returns, the
    account detail cannot be asked for, and nothing is registered. *)
Example connectToBroker_no_account :
  (connectToBroker venue_no_account (fun _ _ => Returned tt) (VStr "oanda")
     (JObj [("apiKey", JPrim (VStr "key"))]) VUndef (mkBroker ∅ [] 0 [])).1
  = Threw TypeError
  /\ Map_get
       (BrokerIntegration.connections
          (connectToBroker venue_no_account (fun _ _ => Returned tt)
             (VStr "oanda") (JObj [("apiKey", JPrim (VStr "key"))]) VUndef
             (mkBroker ∅ [] 0 [])).2)
       (VStr "oanda") = None.
Proof. vm_compute. by split. Qed.

(** C6 as stated fails: the second call sends the accounts request again,
    returns another connection than the registered one, and registers
    it. *)
Lemma connectToBroker_again_not_noop :
  Map_get (BrokerIntegration.connections connected_once) (VStr "oanda") = Some 0
  /\ (connectToBroker venue_up (fun _ _ => Returned tt) (VStr "oanda")
        (JObj [("apiKey", JPrim (VStr "second"))]) VUndef connected_once).1
     = Returned 1
  /\ Map_get
       (BrokerIntegration.connections
          (connectToBroker venue_up (fun _ _ => Returned tt) (VStr "oanda")
             (JObj [("apiKey", JPrim (VStr "second"))]) VUndef
             connected_once).2)
       (VStr "oanda") = Some 1
  /\ length (calls connected_once) = 3
  /\ nth_error
       (calls
          (connectToBroker venue_up (fun _ _ => Returned tt) (VStr "oanda")
             (JObj [("apiKey", JPrim (VStr "second"))]) VUndef
             connected_once).2) 3
     = Some (AxiosGetAccounts (VStr "https://api-fxpractice.oanda.com")
                              (JPrim (VStr "second"))).
Proof. vm_compute. repeat split. Qed.

(** ** Reconnection *)

Section Reconnect.

Variable parseFloatString : string -> float.
Variable toISOString : Z -> string.
Variable close_emits_disconnect : bool.

Implicit Types (st : Service) (t : Timer) (symbol : string).

Local Abbreviation disconnect := (disconnect close_emits_disconnect).
Local Abbreviation run := (run parseFloatString toISOString close_emits_disconnect).

Lemma fire_trace st t :
  trace (fire st t)
  = (trace st ++ [IoOpen (tm_symbol t) (length (sockets st))])%list.
Proof. reflexivity. Qed.

Lemma fire_sockets st t : length (sockets (fire st t)) = S (length (sockets st)).
Proof. unfold fire; simpl. rewrite length_app; simpl. lia. Qed.

Lemma fire_connections st t :
  connections (fire st t)
  = <[tm_symbol t := length (sockets st)]> (connections st).
Proof. reflexivity. Qed.

(** Firing timers only adds to the trace and to the sockets. *)
Lemma foldl_fire_grows st (l : list Timer) :
  length (sockets st) <= length (sockets (foldl fire st l))
  /\ exists es, trace (foldl fire st l) = (trace st ++ es)%list.
Proof.
  revert st. induction l as [|t l IH]; intros st; simpl.
  - split; [lia|]. exists []. by rewrite app_nil_r.
  - destruct (IH (fire st t)) as [Hs [es He]]. rewrite fire_sockets in Hs.
    split; [lia|]. rewrite He, fire_trace, <- app_assoc. eauto.
Qed.

(** A registration made with a socket at or above [n] is still one after
    more timers fire. *)
Lemma foldl_fire_registered st (l : list Timer) symbol (n s : nat) :
  n <= length (sockets st) -> n <= s ->
  connections st !! symbol = Some s ->
  exists s', n <= s' /\ connections (foldl fire st l) !! symbol = Some s'.
Proof.
  revert st s. induction l as [|t l IH]; intros st s Hn Hs Hc; simpl.
  - eauto.
  - destruct (decide (tm_symbol t = symbol)) as [E|E].
    + apply (IH (fire st t) (length (sockets st))); [|done|].
      * rewrite fire_sockets. lia.
      * by rewrite fire_connections, E, lookup_insert_eq.
    + apply (IH (fire st t) s); [|done|].
      * rewrite fire_sockets. lia.
      * by rewrite fire_connections, lookup_insert_ne.
Qed.

(** Every timer that fires opens a socket for its symbol and registers
    one. *)
Lemma foldl_fire_reconnects st (l : list Timer) t :
  t ∈ l ->
  exists (s : nat) es es',
    length (sockets st) <= s
    /\ trace (foldl fire st l)
       = (trace st ++ es ++ IoOpen (tm_symbol t) s :: es')%list
    /\ exists s', length (sockets st) <= s'
                  /\ connections (foldl fire st l) !! tm_symbol t = Some s'.
Proof.
  revert st. induction l as [|t0 l IH]; intros st Ht; [by inversion Ht|].
  apply elem_of_cons in Ht as [->|Ht]; simpl.
  - destruct (foldl_fire_grows (fire st t0) l) as [_ [es He]].
    exists (length (sockets st)), [], es. split; [done|]. split.
    + by rewrite He, fire_trace, <- app_assoc.
    + apply (foldl_fire_registered _ _ _ _ (length (sockets st))); [|done|].
      * rewrite fire_sockets. lia.
      * by rewrite fire_connections, lookup_insert_eq.
  - destruct (IH (fire st t0) Ht) as (s & es & es' & Hs & He & s' & Hs' & Hc).
    rewrite fire_sockets in Hs, Hs'.
    exists s, (IoOpen (tm_symbol t0) (length (sockets st)) :: es), es'.
    split; [lia|]. split.
    + by rewrite He, fire_trace, <- app_assoc.
    + exists s'. split; [lia|done].
Qed.

(** [disconnect] closes at most one socket and may schedule a timer; it
    cancels none. *)
Lemma disconnect_timers st symbol t :
  t ∈ timers st -> t ∈ timers (disconnect st symbol).
Proof.
  unfold MarketDataService.disconnect, socket_disconnect.
  destruct (connections st !! symbol) as [c|]; [|done]; simpl.
  destruct (sockets st !! c) as [sk|]; [|done].
  destruct (s_open sk); [|done].
  destruct close_emits_disconnect; simpl; [|done].
  intros H. apply elem_of_app. by left.
Qed.

Lemma disconnect_grows st symbol :
  length (sockets (disconnect st symbol)) = length (sockets st)
  /\ clock (disconnect st symbol) = clock st
  /\ connections (disconnect st symbol) !! symbol = None
  /\ exists es, trace (disconnect st symbol) = (trace st ++ es)%list.
Proof.
  unfold MarketDataService.disconnect, socket_disconnect.
  destruct (connections st !! symbol) as [c|] eqn:Ec; simpl.
  2: { repeat split; [done|]. exists []. by rewrite app_nil_r. }
  destruct (sockets st !! c) as [sk|]; simpl.
  2: { rewrite lookup_delete_eq. repeat split. exists [].
       by rewrite app_nil_r. }
  destruct (s_open sk); simpl.
  2: { rewrite lookup_delete_eq. repeat split. exists [].
       by rewrite app_nil_r. }
  destruct close_emits_disconnect; simpl;
    rewrite lookup_delete_eq, length_insert;
    repeat split; rewrite <- ?app_assoc; eauto.
Qed.

(** [disconnect] leaves the socket registered under the symbol closed. *)
Lemma disconnect_closes st symbol (connection : nat) sk :
  connections st !! symbol = Some connection ->
  sockets st !! connection = Some sk ->
  exists sk', sockets (disconnect st symbol) !! connection = Some sk'
              /\ s_open sk' = false.
Proof.
  intros Hc Hs. unfold MarketDataService.disconnect, socket_disconnect.
  rewrite Hc; simpl. rewrite Hs.
  destruct (s_open sk) eqn:Ho; simpl.
  - exists (mkSocket (s_symbol sk) (s_callback sk) false). split; [|done].
    destruct close_emits_disconnect; simpl;
      apply list_lookup_insert_eq; by eapply lookup_lt_Some.
  - exists sk. by rewrite Hs.
Qed.

(** A network drop on an open socket schedules one reconnection, five
    seconds ahead. *)
Lemma drop_schedules st (socket : nat) sk :
  sockets st !! socket = Some sk -> s_open sk = true ->
  timers (step parseFloatString toISOString close_emits_disconnect st
               (Socket_disconnect socket))
  = (timers st ++ [mkTimer (clock st + 5000) (s_symbol sk) (s_callback sk)])%list.
Proof. unfold step, deliver. by intros -> ->. Qed.

(** C9, as the code has it: [disconnect] removes the symbol's entry and
    closes its socket, and leaves a reconnection that a network drop
    scheduled in place; once that timer is due, [connectToStream] runs
    again, opens a new socket for the symbol and registers it. *)
Theorem disconnect_leaves_reconnect st symbol t (ms : nat) :
  t ∈ timers st -> tm_symbol t = symbol ->
  (due t <= clock st + Z.of_nat ms)%Z ->
  connections (disconnect st symbol) !! symbol = None
  /\ (forall (connection : nat) sk,
        connections st !! symbol = Some connection ->
        sockets st !! connection = Some sk ->
        exists sk', sockets (disconnect st symbol) !! connection = Some sk'
                    /\ s_open sk' = false)
  /\ t ∈ timers (disconnect st symbol)
  /\ exists (s s' : nat) es es',
       length (sockets st) <= s /\ length (sockets st) <= s'
       /\ trace (run st [Call_disconnect symbol; Elapse ms])
          = (trace (disconnect st symbol)
             ++ es ++ IoOpen symbol s :: es')%list
       /\ connections (run st [Call_disconnect symbol; Elapse ms]) !! symbol
          = Some s'.
Proof.
  intros Ht <- Hdue.
  destruct (disconnect_grows st (tm_symbol t)) as (Hlen & Hclock & Hnone & _).
  split; [done|]. split; [apply disconnect_closes|].
  split; [by apply disconnect_timers|].
  unfold MarketDataService.run; simpl. unfold elapse.
  set (st1 := disconnect st (tm_symbol t)) in *.
  set (st2 := mkService _ _ _ _ _ _).
  set (l := filter _ _).
  assert (t ∈ l) as Hl.
  { apply list_elem_of_filter. split; [|by apply disconnect_timers].
    unfold is_due, advance; simpl. rewrite Hclock. by apply Z.leb_le. }
  destruct (foldl_fire_reconnects st2 l t Hl)
    as (s & es & es' & Hs & He & s' & Hs' & Hc).
  exists s, s', es, es'. subst st2; simpl in *.
  rewrite Hlen in Hs, Hs'. done.
Qed.

End Reconnect.

Lemma disconnect_leaves_reconnect_witness :
  exists (s s' : nat) es es',
    1 <= s /\ 1 <= s'
    /\ trace (MarketDataService.run (fun _ => nan) (fun _ => "") false
                (MarketDataService.run (fun _ => nan) (fun _ => "") false
                   (new 0) subscribe_then_drop)
                [Call_disconnect "EUR_USD"; Elapse 5000])
       = (trace (MarketDataService.disconnect false
                   (MarketDataService.run (fun _ => nan) (fun _ => "") false
                      (new 0) subscribe_then_drop)
                   "EUR_USD")
          ++ es ++ IoOpen "EUR_USD" s :: es')%list
    /\ connections
         (MarketDataService.run (fun _ => nan) (fun _ => "") false
            (MarketDataService.run (fun _ => nan) (fun _ => "") false
               (new 0) subscribe_then_drop)
            [Call_disconnect "EUR_USD"; Elapse 5000]) !! "EUR_USD"
       = Some s'.
Proof.
  refine (proj2 (proj2 (proj2
    (disconnect_leaves_reconnect (fun _ => nan) (fun _ => "") false
       (MarketDataService.run (fun _ => nan) (fun _ => "") false (new 0)
          subscribe_then_drop)
       "EUR_USD" (mkTimer 5000 "EUR_USD" 7) 5000 _ _ _)))).
  - vm_compute. apply list_elem_of_here.
  - reflexivity.
  - vm_compute. discriminate.
Defined.

(** C9 as stated fails. A socket drops, the symbol is disconnected one
    second later, and four seconds after that a new socket is opened for
    the symbol and registered, whether or not the socket library reports
    the close to the listeners. No price event occurs, so the number
    parser plays no part. *)
Lemma reconnect_after_disconnect :
  (connections
     (MarketDataService.run (fun _ => nan) (fun _ => "") false (new 0)
        drop_then_disconnect)
     !! "EUR_USD" = None
   /\ trace
        (MarketDataService.run (fun _ => nan) (fun _ => "") false (new 0)
           (drop_then_disconnect ++ [Elapse 4000]))
      = (trace
           (MarketDataService.run (fun _ => nan) (fun _ => "") false (new 0)
              drop_then_disconnect)
         ++ [IoOpen "EUR_USD" 1])%list
   /\ connections
        (MarketDataService.run (fun _ => nan) (fun _ => "") false (new 0)
           (drop_then_disconnect ++ [Elapse 4000]))
        !! "EUR_USD" = Some 1)
  /\ (connections
        (MarketDataService.run (fun _ => nan) (fun _ => "") true (new 0)
           drop_then_disconnect)
        !! "EUR_USD" = None
      /\ trace
           (MarketDataService.run (fun _ => nan) (fun _ => "") true (new 0)
              (drop_then_disconnect ++ [Elapse 4000]))
         = (trace
              (MarketDataService.run (fun _ => nan) (fun _ => "") true (new 0)
                 drop_then_disconnect)
            ++ [IoOpen "EUR_USD" 1])%list
      /\ connections
           (MarketDataService.run (fun _ => nan) (fun _ => "") true (new 0)
              (drop_then_disconnect ++ [Elapse 4000]))
           !! "EUR_USD" = Some 1).
Proof. vm_compute. repeat split. Qed.

(** ** Strings and regular expressions *)

Section Strings.
Import JSString RegExp.

Lemma text_chars (s : string) : text (chars s) = s.
Proof. apply String.string_of_list_ascii_of_string. Qed.

Lemma chars_text (l : list ascii) : chars (text l) = l.
Proof. apply String.list_ascii_of_string_of_list_ascii. Qed.

Lemma length_text (l : list ascii) : String.length (text l) = length l.
Proof. induction l as [|c l IH]; simpl; [done|by rewrite <- IH]. Qed.

Lemma length_chars (s : string) : length (chars s) = String.length s.
Proof. by rewrite <- (text_chars s) at 2; rewrite length_text. Qed.

Lemma chars_app (s t : string) : chars (s ++ t) = (chars s ++ chars t)%list.
Proof.
  induction s as [|c s IH]; [done|].
  change (chars (String c (s ++ t)) = c :: (chars s ++ chars t))%list.
  unfold chars in *. simpl. by rewrite IH.
Qed.

Lemma trimStart_suffix (l : list ascii) : trimStart l `suffix_of` l.
Proof.
  induction l as [|c l IH]; simpl; [done|].
  destruct (is_space c); [by apply suffix_cons_r|done].
Qed.

Lemma trimEnd_prefix (l : list ascii) : trimEnd l `prefix_of` l.
Proof.
  unfold trimEnd. destruct (trimStart_suffix (reverse l)) as [k Hk].
  exists (reverse k). apply (inj reverse).
  by rewrite reverse_app, !reverse_involutive.
Qed.

Lemma trim_sublist (s : string) : chars (trim s) `sublist_of` chars s.
Proof.
  unfold trim. rewrite chars_text.
  destruct (trimEnd_prefix (trimStart (chars s))) as [k1 Hk1].
  destruct (trimStart_suffix (chars s)) as [k2 Hk2].
  rewrite Hk2 at 2. rewrite Hk1 at 2.
  by apply sublist_inserts_l, sublist_inserts_r.
Qed.

Lemma trimStart_head (l : list ascii) (c : ascii) :
  head (trimStart l) = Some c -> is_space c = false.
Proof.
  induction l as [|d l IH]; simpl; [done|].
  destruct (is_space d) eqn:E; [done|]. by intros [= <-].
Qed.

Lemma trimStart_id (l : list ascii) :
  (forall c, head l = Some c -> is_space c = false) -> trimStart l = l.
Proof. destruct l as [|c l]; simpl; [done|]. intros H. by rewrite H. Qed.

(** *** The matcher decides membership *)

Lemma Matches_Cat (r1 r2 : regex) (l : list ascii) :
  Matches (Cat r1 r2) l
  <-> exists l1 l2, l = (l1 ++ l2)%list /\ Matches r1 l1 /\ Matches r2 l2.
Proof.
  split.
  - inversion 1; subst; eauto.
  - intros (l1 & l2 & -> & H1 & H2). by constructor.
Qed.

Lemma Matches_nullable (r : regex) : nullable r = true <-> Matches r [].
Proof.
  induction r as [| |p|r1 IH1 r2 IH2|r1 IH1 r2 IH2|r IH]; simpl.
  - split; [done|inversion 1].
  - split; [constructor|done].
  - split; [done|inversion 1].
  - rewrite andb_true_iff, IH1, IH2. split.
    + intros [H1 H2]. by apply (MCat _ _ [] []).
    + intros (s1 & s2 & E & H1 & H2)%Matches_Cat.
      symmetry in E. apply app_eq_nil in E as [-> ->]. done.
  - rewrite orb_true_iff, IH1, IH2. split.
    + intros [H|H]; [by apply MAltL|by apply MAltR].
    + inversion 1; subst; auto.
  - split; [constructor|done].
Qed.

Lemma Matches_Star_cons (r : regex) (c : ascii) (s : list ascii) :
  Matches (Star r) (c :: s) ->
  exists s1 s2, s = (s1 ++ s2)%list /\ Matches r (c :: s1) /\ Matches (Star r) s2.
Proof.
  intros H. remember (Star r) as r' eqn:Er. remember (c :: s) as s' eqn:Es.
  revert s Es. induction H as [| | | | | |r0 s1 s2 H1 _ H2 IH2]; try done.
  injection Er as ->. intros s Es. destruct s1 as [|d s1].
  - by apply IH2.
  - injection Es as -> <-. eauto.
Qed.

Lemma Matches_derive (r : regex) (c : ascii) (s : list ascii) :
  Matches (derive c r) s <-> Matches r (c :: s).
Proof.
  revert s.
  induction r as [| |p|r1 IH1 r2 IH2|r1 IH1 r2 IH2|r IH]; intros s; simpl.
  - split; inversion 1.
  - split; inversion 1.
  - destruct (p c) eqn:E; split; inversion 1; subst.
    + by constructor.
    + constructor.
    + congruence.
  - assert (Hcat : Matches (Cat (derive c r1) r2) s ->
                   Matches (Cat r1 r2) (c :: s)).
    { intros (s1 & s2 & -> & H1 & H2)%Matches_Cat.
      apply (MCat _ _ (c :: s1) s2); [by apply IH1|done]. }
    assert (Hinv : Matches (Cat r1 r2) (c :: s) ->
                   Matches (Cat (derive c r1) r2) s
                   \/ (Matches r1 [] /\ Matches r2 (c :: s))).
    { intros (s1 & s2 & E & H1 & H2)%Matches_Cat.
      destruct s1 as [|d s1]; simpl in E; [subst; auto|].
      injection E as -> ->. left. constructor; [by apply IH1|done]. }
    destruct (nullable r1) eqn:En.
    + split.
      * inversion 1; subst; [auto|].
        apply (MCat _ _ [] (c :: s)); [by apply Matches_nullable|by apply IH2].
      * intros H. destruct (Hinv H) as [H'|[_ H']];
          [by apply MAltL|by apply MAltR, IH2].
    + split; [done|]. intros H. destruct (Hinv H) as [H'|[H' _]]; [done|].
      apply Matches_nullable in H'. congruence.
  - split.
    + inversion 1; subst; [by apply MAltL, IH1|by apply MAltR, IH2].
    + inversion 1; subst; [by apply MAltL, IH1|by apply MAltR, IH2].
  - split.
    + intros (s1 & s2 & -> & H1 & H2)%Matches_Cat.
      apply (MStarS _ (c :: s1) s2); [by apply IH|done].
    + intros H. apply Matches_Star_cons in H as (s1 & s2 & -> & H1 & H2).
      constructor; [by apply IH|done].
Qed.

Lemma test_Matches (r : regex) (s : string) :
  test r s = true <-> Matches r (chars s).
Proof.
  unfold test. generalize (chars s) as l. intros l. revert r.
  induction l as [|c l IH]; intros r; simpl.
  - apply Matches_nullable.
  - rewrite IH. apply Matches_derive.
Qed.

Lemma Matches_Star_Class (p : ascii -> bool) (l : list ascii) :
  Matches (Star (Class p)) l <-> Forall (fun c => p c = true) l.
Proof.
  split.
  - intros H. remember (Star (Class p)) as r eqn:Er.
    induction H as [| | | | | |r0 s1 s2 H1 _ H2 IH2]; try done.
    injection Er as ->. inversion H1; subst. constructor; auto.
  - induction 1 as [|c l Hc _ IH]; [constructor|].
    apply (MStarS _ [c] l); [by constructor|done].
Qed.

Lemma Matches_Plus_Class (p : ascii -> bool) (l : list ascii) :
  Matches (Plus (Class p)) l <-> l <> [] /\ Forall (fun c => p c = true) l.
Proof.
  unfold Plus. split.
  - intros (s1 & s2 & -> & H1 & H2)%Matches_Cat.
    inversion H1; subst. split; [done|].
    constructor; [done|by apply Matches_Star_Class].
  - intros [Hn Hl]. destruct Hl as [|c l Hc Hl]; [done|].
    apply (MCat _ _ [c] l); [by constructor|by apply Matches_Star_Class].
Qed.

Lemma Matches_Cat_char (x : ascii) (r : regex) (l : list ascii) :
  Matches (Cat (Class (Validation.is_char x)) r) l
  <-> exists l', l = x :: l' /\ Matches r l'.
Proof.
  split.
  - intros (s1 & s2 & -> & H1 & H2)%Matches_Cat.
    inversion H1 as [|p c Hc| | | | |]; subst.
    unfold Validation.is_char in Hc. apply Ascii.eqb_eq in Hc as ->. eauto.
  - intros (l' & -> & H). apply (MCat _ _ [x] l'); [|done].
    constructor. apply Ascii.eqb_refl.
Qed.

End Strings.

(** ** Comparisons of binary64 numbers *)

Section Compare.
Local Open Scope Z_scope.

Lemma SFcompare_antisym (x y : spec_float) :
  SFcompare y x = option_map CompOpp (SFcompare x y).
Proof.
  destruct x as [sx|sx| |sx mx ex], y as [sy|sy| |sy my ey]; try done;
    try (by destruct sx, sy); try (by destruct sx); try (by destruct sy).
  unfold SFcompare. rewrite (Z.compare_antisym ex ey).
  change (Pos.compare_cont Eq my mx) with (my ?= mx)%positive.
  change (Pos.compare_cont Eq mx my) with (mx ?= my)%positive.
  rewrite (Pos.compare_antisym mx my).
  destruct sx, sy, (ex ?= ey), (mx ?= my)%positive; done.
Qed.

Lemma SFcompare_None (x y : spec_float) :
  SFcompare x y = None <-> x = S754_nan \/ y = S754_nan.
Proof.
  split.
  - destruct x as [sx|sx| |sx mx ex], y as [sy|sy| |sy my ey]; simpl; auto;
      try (by destruct sx, sy); try (by destruct sx); try (by destruct sy).
  - intros [-> | ->]; [done|]. by destruct x as [[]|[]| |[]].
Qed.

(** [x < y] is false exactly when [y <= x] or one of them is [NaN]. *)
Lemma ltb_false_iff (x y : float) :
  PrimFloat.ltb x y = false
  <-> PrimFloat.is_nan x = true \/ PrimFloat.is_nan y = true
      \/ PrimFloat.leb y x = true.
Proof.
  rewrite ltb_spec, leb_spec, !Prim2SF_is_nan. unfold SFltb, SFleb.
  rewrite (SFcompare_antisym (Prim2SF x) (Prim2SF y)).
  pose proof (SFcompare_None (Prim2SF x) (Prim2SF y)) as Hn.
  destruct (SFcompare (Prim2SF x) (Prim2SF y)) as [[]|]; simpl;
    intuition congruence.
Qed.

(** [x <= y] is false exactly when [y < x] or one of them is [NaN]. *)
Lemma leb_false_iff (x y : float) :
  PrimFloat.leb x y = false
  <-> PrimFloat.is_nan x = true \/ PrimFloat.is_nan y = true
      \/ PrimFloat.ltb y x = true.
Proof.
  rewrite ltb_spec, leb_spec, !Prim2SF_is_nan. unfold SFltb, SFleb.
  rewrite (SFcompare_antisym (Prim2SF x) (Prim2SF y)).
  pose proof (SFcompare_None (Prim2SF x) (Prim2SF y)) as Hn.
  destruct (SFcompare (Prim2SF x) (Prim2SF y)) as [[]|]; simpl;
    intuition congruence.
Qed.

End Compare.

(** ** Validators *)

Section Validators.
Import JSString RegExp Validation.

Lemma isValid_result (errors : gmap string string) :
  isValid (result errors) = true <-> errors = ∅.
Proof.
  unfold result. simpl. rewrite Nat.eqb_eq. apply map_size_empty_iff.
Qed.

Lemma check_empty (cond : bool) (key message : string)
      (errors : gmap string string) :
  check cond key message errors = ∅ <-> cond = false /\ errors = ∅.
Proof.
  unfold check. destruct cond.
  - split; [|by intros [? _]]. intros H. by apply insert_non_empty in H.
  - tauto.
Qed.

Lemma not_ratio_false (v : jsval) :
  not_ratio v = false
  <-> exists x, v = VNum x
        /\ (PrimFloat.is_nan x = true
            \/ (PrimFloat.leb 0 x = true /\ PrimFloat.leb x 1 = true)).
Proof.
  destruct v as [| |b|x|s|n]; simpl;
    try (split; [done|by intros (? & ? & _)]).
  rewrite orb_false_iff, !ltb_false_iff. split.
  - intros [H0 H1]. exists x. split; [done|].
    destruct H0 as [H0|[H0|H0]]; [by left|done|].
    destruct H1 as [H1|[H1|H1]]; [done|by left|by right].
  - intros (? & [= <-] & [H|[H0 H1]]); auto.
Qed.

Lemma not_positive_false (v : jsval) :
  not_positive v = false
  <-> exists x, v = VNum x
        /\ (PrimFloat.is_nan x = true \/ PrimFloat.ltb 0 x = true).
Proof.
  destruct v as [| |b|x|s|n]; simpl;
    try (split; [done|by intros (? & ? & _)]).
  rewrite leb_false_iff. split.
  - intros H. exists x. split; [done|]. destruct H as [H|[H|H]]; auto. done.
  - intros (? & [= <-] & [H|H]); auto.
Qed.

Lemma defined_false (v : jsval) : defined v = false <-> v = VUndef.
Proof. by destruct v. Qed.

Lemma optional_false (v : jsval) (bad : bool) :
  defined v && bad = false <-> v = VUndef \/ bad = false.
Proof. rewrite andb_false_iff, defined_false. done. Qed.

Lemma includes_true (list : list string) (v : jsval) :
  includes list v = true <-> exists s, v = VStr s /\ s ∈ list.
Proof.
  destruct v as [| |b|x|s|n]; simpl;
    try (split; [done|by intros (? & ? & _)]).
  rewrite bool_decide_eq_true. split; [eauto|by intros (? & [= <-] & ?)].
Qed.

End Validators.

Section Inputs.
Import JSString RegExp Validation.

Variable NumberToString : float -> string.
Variable BuiltinToString : string -> string.
Variable StringToNumber : string -> float.

Local Abbreviation ToString := (ToString NumberToString BuiltinToString).
Local Abbreviation ToNumeric :=
  (ToNumeric NumberToString BuiltinToString StringToNumber).
Local Abbreviation validateEmail :=
  (validateEmail NumberToString BuiltinToString).
Local Abbreviation validatePassword :=
  (validatePassword NumberToString BuiltinToString StringToNumber).

Lemma Forall_sublist {A} (P : A -> Prop) (l k : list A) :
  l `sublist_of` k -> Forall P k -> Forall P l.
Proof.
  induction 1 as [|x l k _ IH|x l k _ IH]; [done| |];
    intros [Hx Hk]%Forall_cons; [constructor|]; auto.
Qed.

Lemma filter_Forall_id {A} (P : A -> Prop) `{!forall x, Decision (P x)}
      (l : list A) :
  Forall P l -> filter P l = l.
Proof.
  induction 1 as [|x l Hx _ IH]; [done|].
  by rewrite filter_cons_True, IH.
Qed.

Lemma filter_Forall_nil {A} (P : A -> Prop) `{!forall x, Decision (P x)}
      (l : list A) :
  Forall (fun x => ~ P x) l -> filter P l = [].
Proof.
  induction 1 as [|x l Hx _ IH]; [done|].
  by rewrite filter_cons_False, IH.
Qed.

Lemma not_space_at_true (c : ascii) :
  not_space_at c = true <-> is_space c = false /\ c <> "@"%char.
Proof.
  unfold not_space_at.
  rewrite andb_true_iff, !negb_true_iff, Ascii.eqb_neq. done.
Qed.

Lemma Forall_not_space_at (l : list ascii) :
  Forall (fun c => not_space_at c = true) l
  <-> Forall (fun c => is_space c = false /\ c <> "@"%char) l.
Proof. apply Forall_proper; [|done]. intros c. apply not_space_at_true. Qed.

(** The strings [emailRegex] accepts. *)
Lemma emailRegex_parts (s : string) :
  test emailRegex s = true <->
  exists local domain tld : list ascii,
    chars s = (local ++ "@"%char :: domain ++ "."%char :: tld)%list
    /\ local <> [] /\ domain <> [] /\ tld <> []
    /\ Forall (fun c => is_space c = false /\ c <> "@"%char)
              (local ++ domain ++ tld)%list.
Proof.
  rewrite test_Matches. unfold emailRegex. split.
  - intros (l1 & k1 & E1 & [N1 F1]%Matches_Plus_Class & H)%Matches_Cat.
    apply Matches_Cat_char in H as (k2 & -> & H).
    apply Matches_Cat in H as (l2 & k3 & -> & [N2 F2]%Matches_Plus_Class & H).
    apply Matches_Cat_char in H as (l3 & -> & [N3 F3]%Matches_Plus_Class).
    exists l1, l2, l3. repeat split; try done.
    rewrite <- Forall_not_space_at, !Forall_app. done.
  - intros (l1 & l2 & l3 & -> & N1 & N2 & N3 & F).
    rewrite <- Forall_not_space_at, !Forall_app in F. destruct F as (F1 & F2 & F3).
    apply Matches_Cat. exists l1, ("@"%char :: l2 ++ "."%char :: l3)%list.
    split; [done|]. split; [by apply Matches_Plus_Class|].
    apply Matches_Cat_char. eexists. split; [done|].
    apply Matches_Cat. exists l2, ("."%char :: l3)%list.
    split; [done|]. split; [by apply Matches_Plus_Class|].
    apply Matches_Cat_char. eexists. split; [done|].
    by apply Matches_Plus_Class.
Qed.

(** X1. [validateEmail] accepts exactly the values whose text has the
    form [local@domain.tld], the three parts not empty and holding
    neither white space nor [@]. The text of a string is the string;
    an array of one string has the text of that string, so that it is
    accepted when the string is; and [validateEmail] throws exactly
    when the conversion to text does. *)
Theorem validateEmail_spec (email : json) :
  (validateEmail email = Returned true <->
   exists local domain tld : list ascii,
     ToString email
     = Returned (text (local ++ "@"%char :: domain ++ "."%char :: tld)%list)
     /\ local <> [] /\ domain <> [] /\ tld <> []
     /\ Forall (fun c => is_space c = false /\ c <> "@"%char)
               (local ++ domain ++ tld)%list)
  /\ (forall s, ToString (JPrim (VStr s)) = Returned s)
  /\ (forall s, validateEmail (JArr [JPrim (VStr s)])
                = validateEmail (JPrim (VStr s)))
  /\ (forall e, validateEmail email = Threw e <-> ToString email = Threw e).
Proof.
  split; [|split; [done|split; [done|]]].
  - unfold Validation.validateEmail.
    destruct (ToString email) as [s|e];
      [|split; [done|by intros (? & ? & ? & ? & _)]].
    split.
    + intros [= (l1 & l2 & l3 & E & H)%emailRegex_parts].
      exists l1, l2, l3. split; [|done]. by rewrite <- E, text_chars.
    + intros (l1 & l2 & l3 & [= ->] & H). f_equal.
      apply emailRegex_parts. exists l1, l2, l3.
      split; [|done]. by rewrite chars_text.
  - intros e. unfold Validation.validateEmail.
    destruct (ToString email) as [s|e']; [done|].
    split; by intros [= ->].
Qed.

(** X2. An address [validateEmail] accepts has exactly one [@], no
    white space and at least five characters: so has the text of
    whatever value it accepts, and the text of a string is the string
    itself. *)
Theorem validateEmail_one_at (email : json) :
  validateEmail email = Returned true ->
  exists s,
    ToString email = Returned s
    /\ length (filter (fun c => c = "@"%char) (chars s)) = 1%nat
    /\ Forall (fun c => is_space c = false) (chars s)
    /\ (5 <= String.length s)%nat.
Proof.
  unfold Validation.validateEmail.
  destruct (ToString email) as [s|]; [|done].
  intros [= (l1 & l2 & l3 & E & N1 & N2 & N3 & F)%emailRegex_parts].
  exists s. split; [done|].
  rewrite !Forall_app in F. destruct F as (F1 & F2 & F3).
  assert (Hat : forall l, Forall (fun c => is_space c = false /\ c <> "@"%char) l
                  -> filter (fun c => c = "@"%char) l = []).
  { intros l Hl. apply filter_Forall_nil.
    eapply Forall_impl; [exact Hl|]. by intros c [_ ?]. }
  assert (Hsp : forall l, Forall (fun c => is_space c = false /\ c <> "@"%char) l
                  -> Forall (fun c => is_space c = false) l).
  { intros l Hl. eapply Forall_impl; [exact Hl|]. by intros c [? _]. }
  rewrite <- length_chars, E. split; [|split].
  - rewrite filter_app, filter_cons_True, filter_app, filter_cons_False,
      !Hat by done. done.
  - rewrite Forall_app, Forall_cons, Forall_app, Forall_cons.
    repeat split; auto.
  - rewrite length_app. simpl. rewrite length_app. simpl.
    destruct l1, l2, l3; simpl; try done; lia.
Qed.

Lemma truthy_VStr (s : string) :
  truthy (VStr s) = true <-> (0 < String.length s)%nat.
Proof. destruct s; simpl; [split; [done|lia]|split; [lia|done]]. Qed.

(** X3. [validatePassword] gives a truthy result exactly for a string
    of six characters or more, an array of six elements or more, and a
    plain object whose own [length] is, as a number, six or more. *)
Theorem validatePassword_spec (password : json) :
  (exists r, validatePassword password = Returned r /\ truthy_json r = true)
  <->
  (exists s, password = JPrim (VStr s) /\ (6 <= String.length s)%nat)
  \/ (exists items, password = JArr items /\ (6 <= length items)%nat)
  \/ (exists fields v n,
        password = JObj fields /\ jassoc fields "length" = Some v
        /\ ToNumeric v = Returned n /\ PrimFloat.leb 6 n = true).
Proof.
  unfold Validation.validatePassword.
  destruct password as [v|items|fields].
  - destruct (truthy_json (JPrim v)) eqn:Ht.
    + destruct v as [| |b|x|s|n]; try (split;
        [by intros (? & [= <-] & ?)
        |by intros [(? & ? & _)|[(? & ? & _)|(? & ? & ? & ? & _)]]]).
      split.
      * intros (r & [= <-] & Hr). left. exists s. split; [done|].
        by apply Nat.leb_le.
      * intros [(? & [= <-] & H)|[(? & ? & _)|(? & ? & ? & ? & _)]];
          try done.
        eexists. split; [done|]. by apply Nat.leb_le.
    + split.
      * intros (r & [= <-] & Hr). congruence.
      * intros [(s & [= ->] & H)|[(? & ? & _)|(? & ? & ? & ? & _)]];
          try done.
        destruct s; simpl in *; [lia|done].
  - change (truthy_json (JArr items)) with true. cbv iota. split.
    + intros (r & [= <-] & Hr). right. left. exists items. split; [done|].
      apply Nat.leb_le, Hr.
    + intros [(? & ? & _)|[(? & [= <-] & H)|(? & ? & ? & ? & _)]]; try done.
      eexists. split; [done|]. apply Nat.leb_le, H.
  - change (truthy_json (JObj fields)) with true. cbv iota. split.
    + intros (r & Hr & Ht).
      destruct (jassoc fields "length") as [v|] eqn:Ev.
      * change (default (JPrim VUndef) (Some v)) with v in Hr.
        destruct (ToNumeric v) as [n|e] eqn:En; [|done].
        injection Hr as <-. right. right. by exists fields, v, n.
      * change (ToNumeric (default (JPrim VUndef) None))
          with (@Returned float nan) in Hr.
        injection Hr as <-. exfalso.
        change (PrimFloat.leb 6 nan = true) in Ht.
        by rewrite leb_spec in Ht.
    + intros [(? & ? & _)|[(? & ? & _)|(? & v & n & [= <-] & Ev & En & H)]];
        try done.
      rewrite Ev.
      change (default (JPrim VUndef) (Some v)) with v. rewrite En.
      by eexists.
Qed.

(** X4. [validateName] accepts exactly the strings that have between 2
    and 50 characters once the surrounding white space is taken off. *)
Theorem validateName_accepts (name : jsval) :
  (exists r, validateName name = Returned r /\ truthy r = true) <->
  exists s, name = VStr s
            /\ (2 <= String.length (trim s) <= 50)%nat.
Proof.
  unfold validateName. destruct (truthy name) eqn:Ht.
  - destruct name as [| |b|x|s|n];
      try (split; [by intros (? & ? & _)|by intros (? & ? & _)]).
    split.
    + intros (r & Hr & Hok). exists s. split; [done|].
      destruct (2 <=? _)%nat eqn:E2; injection Hr as <-; [|done].
      simpl in Hok. apply Nat.leb_le in E2, Hok. done.
    + intros (? & [= <-] & H2 & H50). apply Nat.leb_le in H2, H50.
      rewrite H2. eexists. split; [done|]. done.
  - split.
    + intros (r & [= <-] & Hr). congruence.
    + intros (s & -> & H2 & _).
      pose proof (sublist_length _ _ (trim_sublist s)) as Hl.
      rewrite !length_chars in Hl.
      assert (truthy (VStr s) = true) by (apply truthy_VStr; lia).
      congruence.
Qed.

(** X5. [validateName] throws a [TypeError] exactly on a truthy value
    that is not a string (a non-zero number, [true]): it has no [trim]. *)
Theorem validateName_throws (name : jsval) (e : error) :
  validateName name = Threw e <->
  e = TypeError /\ truthy name = true /\ forall s, name <> VStr s.
Proof.
  unfold validateName. destruct (truthy name) eqn:Ht.
  - destruct name as [| |b|x|s|n]; try done;
      try (split; [by intros [= <-]|by intros (-> & _)]).
    split; [by destruct (2 <=? _)%nat|]. intros (_ & _ & H). by destruct (H s).
  - split; [done|]. by intros (_ & ? & _).
Qed.

Lemma is_angle_false (c : ascii) :
  is_angle c = false <-> c <> "<"%char /\ c <> ">"%char.
Proof. unfold is_angle. by rewrite orb_false_iff, !Ascii.eqb_neq. Qed.

Lemma sanitizeInput_parts (s : string) :
  let l := take 1000 (filter (fun c => is_angle c = false) (chars (trim s))) in
  sanitizeInput (VStr s) = VStr (text l)
  /\ (length l <= 1000)%nat
  /\ l `sublist_of` chars s
  /\ Forall (fun c => is_angle c = false) l.
Proof.
  intros l. split; [done|]. split; [|split].
  - unfold l. rewrite length_take. lia.
  - unfold l. etrans; [apply sublist_take|].
    etrans; [apply sublist_filter|]. apply trim_sublist.
  - unfold l. apply Forall_take, Forall_forall.
    by intros c [? _]%list_elem_of_filter.
Qed.

(** X6. On a string [sanitizeInput] returns a string of at most 1000
    characters, with no [<] and no [>], made of characters of the
    input in their order: it removes, and never adds or reorders. *)
Theorem sanitizeInput_spec (s : string) :
  exists t,
    sanitizeInput (VStr s) = VStr t
    /\ (String.length t <= 1000)%nat
    /\ chars t `sublist_of` chars s
    /\ Forall (fun c => c <> "<"%char /\ c <> ">"%char) (chars t).
Proof.
  destruct (sanitizeInput_parts s) as (E & Hl & Hs & Ha).
  eexists. split; [exact E|]. rewrite length_text, chars_text.
  split; [done|]. split; [done|].
  eapply Forall_impl; [exact Ha|]. intros c. apply is_angle_false.
Qed.

(** X7. [sanitizeInput] is not idempotent: on its own result it only
    trims. Taking out a bracket can uncover white space at either end
    (["< a"] gives [" a"]), which a second pass removes. *)
Theorem sanitizeInput_twice (s t : string) :
  sanitizeInput (VStr s) = VStr t ->
  sanitizeInput (VStr t) = VStr (trim t).
Proof.
  destruct (sanitizeInput_parts s) as (E & Hl & _ & Ha).
  rewrite E. intros [= <-]. simpl. f_equal.
  set (l := take 1000 _) in *.
  pose proof (trim_sublist (text l)) as Hsub. rewrite chars_text in Hsub.
  rewrite filter_Forall_id by (by eapply Forall_sublist).
  rewrite take_ge by (apply sublist_length in Hsub; lia).
  apply text_chars.
Qed.

Lemma sanitizeInput_twice_witness :
  sanitizeInput (VStr "< a") = VStr " a"
  /\ sanitizeInput (VStr " a") = VStr "a".
Proof.
  split; [reflexivity|].
  exact (sanitizeInput_twice "< a" " a" eq_refl).
Defined.

End Inputs.

Lemma validateEmail_one_at_witness :
  Validation.validateEmail (fun _ => "") (fun _ => "")
                           (JPrim (VStr "trader@desk.io")) = Returned true
  /\ length (filter (fun c => c = "@"%char)
                    (JSString.chars "trader@desk.io")) = 1%nat.
Proof.
  split; [reflexivity|].
  destruct (validateEmail_one_at (fun _ => "") (fun _ => "")
              (JPrim (VStr "trader@desk.io")) eq_refl)
    as (s & [= <-] & H & _).
  exact H.
Defined.

Section Limit.
Import JSString RegExp Validation.
Local Open Scope Z_scope.

Lemma canonical_mantissa_bounds (m : positive) (e : Z) :
  canonical_mantissa prec emax m e = true ->
  Z.pos m < 2 ^ 53 /\ (-1074 < e -> 2 ^ 52 <= Z.pos m).
Proof.
  unfold canonical_mantissa, fexp, SpecFloat.emin, emax, prec.
  intros H%Z.eqb_eq.
  pose proof (digits2_pos_bounds m) as [B1 B2]. split.
  - assert (Z.pos (digits2_pos m) <= 53) as D by lia.
    eapply Z.lt_le_trans; [exact B2|]. apply Z.pow_le_mono_r; lia.
  - intros He. assert (Z.pos (digits2_pos m) = 53) as D by lia.
    by rewrite D in B1.
Qed.

(** One case for each integer from [lo] up to [-1]. *)
Ltac each_exponent e lo tac :=
  let z := eval vm_compute in (lo =? 0) in
  match z with
  | true => exfalso; lia
  | false =>
      let E := fresh "E" in
      let lo' := eval vm_compute in (lo + 1) in
      assert (E : e = lo \/ lo' <= e) by lia;
      destruct E as [->|E]; [tac|each_exponent e lo' tac]
  end.

(** The goal at one exponent between [-52] and [-1]. *)
Ltac at_exponent m :=
  match goal with
  | |- context [2 ^ (- ?c)] =>
      let v := eval vm_compute in (2 ^ (- c)) in
      replace (2 ^ (- c)) with v by reflexivity
  end;
  match goal with
  | |- context [?a =? 0] => destruct (Z.eqb_spec a 0)
  end;
  match goal with
  | |- context [?a ?= -52] => destruct (Z.compare_spec a (-52)); try lia
  end;
  match goal with
  | |- context [-40 ?= ?a] => destruct (Z.compare_spec (-40) a); try lia
  end;
  try (destruct (Z.compare_spec (Z.pos m) 4503599627370496));
  try (destruct (Z.compare_spec 5497558138880000 (Z.pos m)));
  (split;
   [intros (Hint & Hone & Hmax); try discriminate;
    try (by destruct Hint); eexists; (split; [reflexivity|Z.div_mod_to_equations; lia])
   |intros (val & Hint & Hone & Hmax); try discriminate; injection Hint as <-;
    (split; [by eexists|]); split; try reflexivity; exfalso; Z.div_mod_to_equations; lia]).

(** A number passes the three tests on [limit] exactly when it is an
    integer between 1 and 5000. *)
Lemma bad_limit_false (x : float) :
  bad_limit (VNum x) = false
  <-> exists n, integer_value x = Some n /\ 1 <= n <= 5000.
Proof.
  unfold bad_limit, Number_isInteger, integer_value.
  rewrite !ltb_spec.
  change (Prim2SF 1) with (S754_finite false 4503599627370496 (-52)).
  change (Prim2SF 5000) with (S754_finite false 5497558138880000 (-40)).
  pose proof (Prim2SF_valid x) as Hv.
  destruct (Prim2SF x) as [s|s| |s m e].
  - split; [by destruct s|]. intros (n & [= <-] & ?). lia.
  - split; [by destruct s|]. by intros (n & ? & _).
  - split; [done|]. by intros (n & ? & _).
  - apply valid_canonical, canonical_mantissa_bounds in Hv as [Hm Hn].
    destruct s.
    { split.
      { intros [_ H]%orb_false_iff. cbn [SFltb SFcompare orb] in H.
        discriminate. }
      intros (n & Hi & H1 & _). exfalso. clear Hm Hn.
      destruct (0 <=? e) eqn:E0.
      - injection Hi as <-. apply Z.leb_le in E0.
        pose proof (Z.pow_nonneg 2 e ltac:(lia)). nia.
      - destruct (_ =? 0); [|done]. injection Hi as <-.
        apply Z.leb_gt in E0.
        assert (0 <= Z.pos m / 2 ^ (- e))
          by (apply Z.div_pos; [lia|apply Z.pow_pos_nonneg; lia]).
        lia. }
    unfold SFltb, SFcompare.
    replace (Pos.compare_cont Eq m 4503599627370496)
      with (Z.pos m ?= 4503599627370496) by reflexivity.
    replace (Pos.compare_cont Eq 5497558138880000 m)
      with (5497558138880000 ?= Z.pos m) by reflexivity.
    destruct (Z.leb_spec 0 e) as [E0|E0].
    { (* an integer of 2^52 or more *)
      replace (-40 ?= e) with Lt by (symmetry; apply Z.compare_lt_iff; lia).
      rewrite orb_true_r. split; [by rewrite orb_true_r|].
      intros (n & [= <-] & _ & H5). exfalso.
      assert (1 <= 2 ^ e) as Hp by (apply (Z.pow_le_mono_r 2 0 e); lia).
      specialize (Hn ltac:(lia)).
      change (2 ^ 52) with 4503599627370496 in Hn. clear Hm.
      revert Hp H5. generalize (2 ^ e). intros p Hp H5. nia. }
    destruct (Z.lt_ge_cases e (-52)) as [E52|E52].
    { (* below 1 in magnitude: no integer *)
      replace (e ?= -52) with Lt by (symmetry; apply Z.compare_lt_iff; lia).
      rewrite orb_true_r. split; [done|].
      destruct (_ =? 0) eqn:Em; [|by intros (n & ? & _)].
      apply Z.eqb_eq in Em. intros _.
      assert (2 ^ 53 <= 2 ^ (- e)) by (apply Z.pow_le_mono_r; lia).
      apply Z.mod_divide in Em; [|lia]. apply Z.divide_pos_le in Em; lia. }
    specialize (Hn ltac:(lia)).
    change (2 ^ 53) with 9007199254740992 in Hm.
    change (2 ^ 52) with 4503599627370496 in Hn.
    rewrite !orb_false_iff, negb_false_iff, bool_decide_eq_true.
    each_exponent e (-52) ltac:(at_exponent m).
Qed.

End Limit.

Section ValidatorResults.
Import JSString RegExp Validation.

(** Membership in a list that is written out. *)
Ltac listed :=
  repeat first [apply list_elem_of_here|apply list_elem_of_further].

Lemma bad_action_Returned (action : jsval) (bad : bool) :
  bad_action action = Returned bad ->
  (bad = false <-> exists s, action = VStr s /\ toLowerCase s ∈ ["buy"; "sell"]).
Proof.
  unfold bad_action. destruct (truthy action) eqn:Ht.
  - destruct action as [| |b|x|s|n]; try done. intros [= <-].
    rewrite negb_false_iff, bool_decide_eq_true. split.
    + eauto.
    + by intros (? & [= <-] & ?).
  - intros [= <-]. split; [done|]. intros (s & -> & Hs).
    destruct s; [|done]. change (toLowerCase "") with "" in Hs.
    repeat apply elem_of_cons in Hs as [Hs|Hs]; try done.
    by apply elem_of_nil in Hs.
Qed.

Lemma bad_action_Threw (action : jsval) (e : error) :
  bad_action action = Threw e
  <-> e = TypeError /\ truthy action = true /\ forall s, action <> VStr s.
Proof.
  unfold bad_action. destruct (truthy action) eqn:Ht.
  - destruct action as [| |b|x|s|n]; try done;
      try (split; [by intros [= <-]|by intros (-> & _)]).
    split; [done|]. intros (_ & _ & H). by destruct (H s).
  - split; [done|]. by intros (_ & ? & _).
Qed.

Lemma blank_or_shorter_Returned (n : nat) (v : jsval) (bad : bool) :
  blank_or_shorter n v = Returned bad ->
  (bad = false
   <-> exists s, v = VStr s /\ (n <= String.length (trim s))%nat
                 /\ (0 < String.length s)%nat).
Proof.
  unfold blank_or_shorter. destruct (truthy v) eqn:Ht.
  - destruct v as [| |b|x|s|k]; try done. intros [= <-].
    apply truthy_VStr in Ht. rewrite Nat.ltb_ge. split.
    + intros ?. eauto.
    + by intros (? & [= <-] & ? & _).
  - intros [= <-]. split; [done|]. intros (s & -> & _ & Hs).
    apply truthy_VStr in Hs. congruence.
Qed.

Lemma blank_or_shorter_Threw (n : nat) (v : jsval) (e : error) :
  blank_or_shorter n v = Threw e
  <-> e = TypeError /\ truthy v = true /\ forall s, v <> VStr s.
Proof.
  unfold blank_or_shorter. destruct (truthy v) eqn:Ht.
  - destruct v as [| |b|x|s|k]; try done;
      try (split; [by intros [= <-]|by intros (-> & _)]).
    split; [done|]. intros (_ & _ & H). by destruct (H s).
  - split; [done|]. by intros (_ & ? & _).
Qed.

(** X8. [validateTradingConfig] reports a configuration valid exactly
    when each of the three ratios, where given, is a number that is
    within [0, 1] or is [NaN]; the lot size, where given, is a number
    that is positive or is [NaN]; and the risk level, where given, is
    one of the three level names. [NaN] passes every numeric test. *)
Theorem validateTradingConfig_valid (config : object) :
  isValid (validateTradingConfig config) = true <->
  (forall field,
      field ∈ ["maxDrawdown"; "maxDailyLoss"; "maxPositionSize"] ->
      get_prop config field = VUndef
      \/ exists x, get_prop config field = VNum x
           /\ (PrimFloat.is_nan x = true
               \/ (PrimFloat.leb 0 x = true /\ PrimFloat.leb x 1 = true)))
  /\ (get_prop config "defaultLotSize" = VUndef
      \/ exists x, get_prop config "defaultLotSize" = VNum x
           /\ (PrimFloat.is_nan x = true \/ PrimFloat.ltb 0 x = true))
  /\ (get_prop config "riskLevel" = VUndef
      \/ exists s, get_prop config "riskLevel" = VStr s
           /\ s ∈ validRiskLevels).
Proof.
  unfold validateTradingConfig.
  rewrite isValid_result, !check_empty, !optional_false, !not_ratio_false,
    not_positive_false, negb_false_iff, includes_true.
  split.
  - intros (H5 & H4 & H3 & H2 & H1 & _). split; [|done].
    intros field Hf. repeat apply elem_of_cons in Hf as [->|Hf]; try done.
    by apply elem_of_nil in Hf.
  - intros (H & H4 & H5).
    repeat split; try done; apply H; listed.
Qed.

(** X9. [validateTradeParams] throws a [TypeError], and reports
    nothing, exactly when [action] is a truthy value that is not a
    string: it has no [toLowerCase]. *)
Theorem validateTradeParams_throws (params : object) (e : error) :
  validateTradeParams params = Threw e <->
  e = TypeError
  /\ truthy (get_prop params "action") = true
  /\ forall s, get_prop params "action" <> VStr s.
Proof.
  unfold validateTradeParams. rewrite <- bad_action_Threw.
  destruct (bad_action _); [split; discriminate|split; by intros [= ->]].
Qed.

(** X10. [validateTradeParams] reports a trade valid exactly when the
    symbol is truthy, the action is a string that reads [buy] or [sell]
    in lower case, the volume is a number that is positive or is [NaN],
    and each of stop loss and take profit is absent or such a number. *)
Theorem validateTradeParams_valid (params : object) :
  (exists r, validateTradeParams params = Returned r /\ isValid r = true) <->
  truthy (get_prop params "symbol") = true
  /\ (exists s, get_prop params "action" = VStr s
                /\ toLowerCase s ∈ ["buy"; "sell"])
  /\ (exists x, get_prop params "volume" = VNum x
                /\ (PrimFloat.is_nan x = true \/ PrimFloat.ltb 0 x = true))
  /\ (forall field, field ∈ ["stopLoss"; "takeProfit"] ->
        get_prop params field = VUndef
        \/ exists x, get_prop params field = VNum x
             /\ (PrimFloat.is_nan x = true \/ PrimFloat.ltb 0 x = true)).
Proof.
  unfold validateTradeParams.
  destruct (bad_action _) as [bad|e] eqn:Ea.
  - apply bad_action_Returned in Ea. rewrite <- Ea. split.
    + intros (r & [= <-] & Hr). revert Hr.
      rewrite isValid_result, !check_empty, !optional_false,
        !not_positive_false, negb_false_iff.
      intros (H5 & H4 & H3 & H2 & H1 & _). repeat split; try done.
      intros field Hf. repeat apply elem_of_cons in Hf as [->|Hf]; try done.
      by apply elem_of_nil in Hf.
    + intros (H1 & H2 & H3 & H). eexists. split; [done|].
      rewrite isValid_result, !check_empty, !optional_false,
        !not_positive_false, negb_false_iff.
      repeat split; try done; apply H; listed.
  - apply bad_action_Threw in Ea as (_ & _ & Hs). split.
    + by intros (? & ? & _).
    + intros (_ & (s & Hs' & _) & _). by destruct (Hs s).
Qed.

(** X11. [validateBotConfig] throws a [TypeError] exactly when [name]
    is a truthy value that is not a string; otherwise it reports the
    configuration valid exactly when the name has three characters or
    more once trimmed, strategy and symbol are truthy, and each of lot
    size, stop loss and take profit is absent or a number that is
    positive or is [NaN]. *)
Theorem validateBotConfig_spec (config : object) :
  (forall e, validateBotConfig config = Threw e <->
     e = TypeError
     /\ truthy (get_prop config "name") = true
     /\ forall s, get_prop config "name" <> VStr s)
  /\ ((exists r, validateBotConfig config = Returned r /\ isValid r = true) <->
      (exists s, get_prop config "name" = VStr s
                 /\ (3 <= String.length (trim s))%nat)
      /\ truthy (get_prop config "strategy") = true
      /\ truthy (get_prop config "symbol") = true
      /\ (forall field, field ∈ ["lotSize"; "stopLoss"; "takeProfit"] ->
            get_prop config field = VUndef
            \/ exists x, get_prop config field = VNum x
                 /\ (PrimFloat.is_nan x = true \/ PrimFloat.ltb 0 x = true))).
Proof.
  unfold validateBotConfig. split.
  { intros e. rewrite <- (blank_or_shorter_Threw 3).
    destruct (blank_or_shorter _ _); [split; discriminate|split; by intros [= ->]]. }
  destruct (blank_or_shorter _ _) as [bad|e] eqn:Ea.
  - apply blank_or_shorter_Returned in Ea.
    assert (bad = false <->
            exists s, get_prop config "name" = VStr s
                      /\ (3 <= String.length (trim s))%nat) as Hb.
    { rewrite Ea. split; [intros (s & ? & ? & _); eauto|].
      intros (s & Hs & Hl). exists s. repeat split; try done.
      pose proof (sublist_length _ _ (trim_sublist s)) as Hsub.
      rewrite !length_chars in Hsub. lia. }
    rewrite <- Hb. split.
    + intros (r & [= <-] & Hr). revert Hr.
      rewrite isValid_result, !check_empty, !optional_false,
        !not_positive_false, !negb_false_iff.
      intros (H6 & H5 & H4 & H3 & H2 & H1 & _). repeat split; try done.
      intros field Hf. repeat apply elem_of_cons in Hf as [->|Hf]; try done.
      by apply elem_of_nil in Hf.
    + intros (H1 & H2 & H3 & H). eexists. split; [done|].
      rewrite isValid_result, !check_empty, !optional_false,
        !not_positive_false, !negb_false_iff.
      repeat split; try done; apply H; listed.
  - apply blank_or_shorter_Threw in Ea as (_ & _ & Hs). split.
    + by intros (? & ? & _).
    + intros ((s & Hs' & _) & _). by destruct (Hs s).
Qed.

(** A timeframe that passes is falsy or listed. *)
Lemma valid_timeframe_listed (params : object) :
  isValid (validateMarketDataRequest params) = true ->
  truthy (get_prop params "timeframe") = false
  \/ exists s, get_prop params "timeframe" = VStr s /\ s ∈ validTimeframes.
Proof.
  unfold validateMarketDataRequest.
  rewrite isValid_result, !check_empty, !andb_false_iff, !negb_false_iff,
    includes_true.
  by intros (_ & Ht & _).
Qed.

(** X12. [validateMarketDataRequest] reports a request valid exactly
    when the symbol is truthy, the timeframe is falsy (absent, empty)
    or one of the nine tokens, and the limit is absent or a number
    that is an integer between 1 and 5000. *)
Theorem validateMarketDataRequest_valid (params : object) :
  isValid (validateMarketDataRequest params) = true <->
  truthy (get_prop params "symbol") = true
  /\ (truthy (get_prop params "timeframe") = false
      \/ exists s, get_prop params "timeframe" = VStr s
                   /\ s ∈ validTimeframes)
  /\ (get_prop params "limit" = VUndef
      \/ exists x n, get_prop params "limit" = VNum x
                     /\ integer_value x = Some n /\ (1 <= n <= 5000)%Z).
Proof.
  unfold validateMarketDataRequest.
  rewrite isValid_result, !check_empty, optional_false, andb_false_iff,
    !negb_false_iff, includes_true.
  assert (bad_limit (get_prop params "limit") = false <->
          exists x n, get_prop params "limit" = VNum x
                      /\ integer_value x = Some n /\ (1 <= n <= 5000)%Z) as Hl.
  { destruct (get_prop params "limit") as [| |b|x|s|k];
      try (split; [done|by intros (? & ? & ? & _)]).
    rewrite bad_limit_false. split.
    - intros (n & ?). eauto.
    - intros (? & n & [= <-] & ?). eauto. }
  rewrite Hl. tauto.
Qed.

(** X13. A timeframe that [validateMarketDataRequest] lets through is
    turned by [convertTimeframe] into a string, never into a member of
    [Object.prototype]: into its granularity for the seven tokens
    [convertTimeframe] knows, and into itself for [1w] and [1M], which
    the validator accepts and the conversion does not translate. *)
Theorem validated_timeframe_converts (params : object) (timeframe : string) :
  isValid (validateMarketDataRequest params) = true ->
  get_prop params "timeframe" = VStr timeframe ->
  timeframe <> "" ->
  (exists granularity,
      convertTimeframe timeframe = VStr granularity
      /\ granularity ∈ ["M1"; "M5"; "M15"; "M30"; "H1"; "H4"; "D"; "1w"; "1M"])
  /\ (timeframe ∈ ["1w"; "1M"] -> convertTimeframe timeframe = VStr timeframe).
Proof.
  intros Ht%valid_timeframe_listed Etf Hne.
  rewrite Etf in Ht. destruct Ht as [Ht|(s & [= <-] & Hs)].
  { by destruct timeframe. }
  unfold validTimeframes in Hs.
  repeat apply elem_of_cons in Hs as [->|Hs];
    try (split; [eexists; split; [reflexivity|listed]|]);
    try (intros Hw; repeat apply elem_of_cons in Hw as [Hw|Hw];
         try done; by apply elem_of_nil in Hw).
  by apply elem_of_nil in Hs.
Qed.

Lemma validated_timeframe_converts_witness :
  let params : object :=
    {[ "symbol" := VStr "EUR_USD"; "timeframe" := VStr "1w" ]} in
  isValid (validateMarketDataRequest params) = true
  /\ convertTimeframe "1w" = VStr "1w".
Proof.
  intros params. split; [reflexivity|].
  apply (validated_timeframe_converts params "1w");
    [reflexivity|reflexivity|discriminate|listed].
Defined.

End ValidatorResults.

(** ** Streams of the market-data service *)

Section Streams.

Variable parseFloatString : string -> float.
Variable toISOString : Z -> string.
Variable close_emits_disconnect : bool.

Implicit Types (st : Service) (symbol : string) (sk : Socket).

Local Abbreviation step := (step parseFloatString toISOString
                                 close_emits_disconnect).
Local Abbreviation socket_disconnect :=
  (socket_disconnect close_emits_disconnect).
Local Abbreviation disconnect :=
  (MarketDataService.disconnect close_emits_disconnect).
Local Abbreviation disconnectAll :=
  (MarketDataService.disconnectAll close_emits_disconnect).

Lemma socket_disconnect_frame st (c : nat) :
  connections (socket_disconnect st c) = connections st
  /\ cache (socket_disconnect st c) = cache st
  /\ clock (socket_disconnect st c) = clock st
  /\ length (sockets (socket_disconnect st c)) = length (sockets st)
  /\ (forall t, t ∈ timers st -> t ∈ timers (socket_disconnect st c))
  /\ exists es, trace (socket_disconnect st c) = (trace st ++ es)%list.
Proof.
  unfold MarketDataService.socket_disconnect.
  destruct (sockets st !! c) as [sk|];
    [|repeat split; try done; exists []; by rewrite app_nil_r].
  destruct (s_open sk);
    [|repeat split; try done; exists []; by rewrite app_nil_r].
  destruct close_emits_disconnect; simpl;
    rewrite length_insert; repeat split; try done.
  - intros t Ht. apply elem_of_app. by left.
  - rewrite <- app_assoc. by eexists.
  - by eexists.
Qed.

Lemma socket_disconnect_other st (c i : nat) :
  c <> i -> sockets (socket_disconnect st c) !! i = sockets st !! i.
Proof.
  intros Hne. unfold MarketDataService.socket_disconnect.
  destruct (sockets st !! c) as [sk|]; [|done].
  destruct (s_open sk); [|done].
  destruct close_emits_disconnect; simpl; by rewrite list_lookup_insert_ne.
Qed.

Lemma socket_disconnect_closes st (c : nat) sk :
  sockets st !! c = Some sk ->
  exists sk', sockets (socket_disconnect st c) !! c = Some sk'
              /\ s_open sk' = false.
Proof.
  intros Hs. unfold MarketDataService.socket_disconnect. rewrite Hs.
  destruct (s_open sk) eqn:Ho; [|eauto].
  assert (c < length (sockets st)) by (by eapply lookup_lt_Some).
  destruct close_emits_disconnect; simpl;
    rewrite list_lookup_insert_eq by done; eauto.
Qed.

Lemma socket_disconnect_closed st (c i : nat) :
  (exists sk, sockets st !! i = Some sk /\ s_open sk = false) ->
  exists sk, sockets (socket_disconnect st c) !! i = Some sk
             /\ s_open sk = false.
Proof.
  intros (sk & Hs & Ho). destruct (decide (c = i)) as [->|Hne].
  - by eapply socket_disconnect_closes.
  - rewrite socket_disconnect_other by done. eauto.
Qed.

Lemma foldl_socket_disconnect_frame st (l : list nat) :
  connections (foldl socket_disconnect st l) = connections st
  /\ cache (foldl socket_disconnect st l) = cache st
  /\ clock (foldl socket_disconnect st l) = clock st
  /\ length (sockets (foldl socket_disconnect st l)) = length (sockets st)
  /\ (forall t, t ∈ timers st -> t ∈ timers (foldl socket_disconnect st l))
  /\ exists es, trace (foldl socket_disconnect st l) = (trace st ++ es)%list.
Proof.
  revert st. induction l as [|c l IH]; intros st; simpl.
  - repeat split; try done. exists []. by rewrite app_nil_r.
  - destruct (socket_disconnect_frame st c) as (E1 & E2 & E3 & E4 & E5 & es & E6).
    destruct (IH (socket_disconnect st c)) as (F1 & F2 & F3 & F4 & F5 & es' & F6).
    rewrite F1, F2, F3, F4, F6, E1, E2, E3, E4, E6.
    repeat split; auto. rewrite <- app_assoc. by eexists.
Qed.

Lemma foldl_socket_disconnect_other st (l : list nat) (i : nat) :
  i ∉ l -> sockets (foldl socket_disconnect st l) !! i = sockets st !! i.
Proof.
  revert st. induction l as [|c l IH]; intros st Hi; simpl; [done|].
  apply not_elem_of_cons in Hi as [Hne Hi].
  rewrite IH by done. by apply socket_disconnect_other.
Qed.

Lemma foldl_socket_disconnect_closed st (l : list nat) (i : nat) :
  (exists sk, sockets st !! i = Some sk /\ s_open sk = false) ->
  exists sk, sockets (foldl socket_disconnect st l) !! i = Some sk
             /\ s_open sk = false.
Proof.
  revert st. induction l as [|c l IH]; intros st H; simpl; [done|].
  by apply IH, socket_disconnect_closed.
Qed.

Lemma foldl_socket_disconnect_closes st (l : list nat) (c : nat) sk :
  c ∈ l -> sockets st !! c = Some sk ->
  exists sk', sockets (foldl socket_disconnect st l) !! c = Some sk'
              /\ s_open sk' = false.
Proof.
  revert st sk. induction l as [|d l IH]; intros st sk Hc Hs; simpl.
  - by apply elem_of_nil in Hc.
  - destruct (decide (d = c)) as [->|Hne].
    + by eapply foldl_socket_disconnect_closed, socket_disconnect_closes.
    + apply elem_of_cons in Hc as [->|Hc]; [done|].
      apply (IH _ sk); [done|]. by rewrite socket_disconnect_other.
Qed.

(** X14. A price event on an open socket hands the tick to the
    subscriber's callback. When the callback returns, the object as
    the callback left it is cached under the symbol of the
    subscription and the timeframe the callback left on it,
    [realtime] if it left none, and is read back from there for the
    next 60 seconds; no other key of the cache changes. When the
    callback throws, the cache is left as it was. *)
Theorem price_event_cached st (socket : nat) sk (data : object)
        (callback : Tick -> option MarketData) (ms : Z) :
  sockets st !! socket = Some sk -> s_open sk = true ->
  (0 <= ms < 60000)%Z ->
  let tick := processRealTimeData parseFloatString toISOString (clock st)
                                  data in
  let after := step st (Socket_price socket data callback) in
  trace after = (trace st ++ [Callback (s_callback sk) tick])%list
  /\ match callback tick with
     | Some kept =>
         let timeframe := string_or (data_timeframe kept) "realtime" in
         (getCachedData (advance after ms) (s_symbol sk) timeframe).1
         = Some kept
         /\ (forall key, key <> s_symbol sk ++ "_" ++ timeframe ->
               cache after !! key = cache st !! key)
     | None => cache after = cache st
     end.
Proof.
  intros Hs Ho Hms tick after. subst after.
  unfold MarketDataService.step, deliver.
  rewrite Hs, Ho. unfold on_price. fold tick.
  destruct (callback tick) as [kept|]; [|done]. split; [done|]. split.
  - pose proof (getCachedData_after_put
                  (emit st (Callback (s_callback sk) tick)) (s_symbol sk)
                  kept ms) as H.
    rewrite H. destruct (Z.ltb_spec ms 60000); [done|lia].
  - intros key Hkey. unfold updateCache; simpl.
    by rewrite lookup_insert_ne.
Qed.

(** X15. Subscribing again to a symbol orphans the socket of the first
    subscription: the second socket takes its place in
    [this.connections], the first stays open and is registered under no
    symbol, and neither [disconnect] of any symbol nor [disconnectAll]
    closes it. *)
Theorem resubscribe_orphans st symbol (first second : nat)
        (symbols : list string) :
  (forall symbol' (c : nat),
      connections st !! symbol' = Some c -> c < length (sockets st)) ->
  let i := (connectToStream st symbol first).1 in
  let st1 := (connectToStream st symbol first).2 in
  let j := (connectToStream st1 symbol second).1 in
  let st2 := (connectToStream st1 symbol second).2 in
  i <> j
  /\ connections st2 !! symbol = Some j
  /\ sockets st2 !! i = Some (mkSocket symbol first true)
  /\ (forall symbol', connections st2 !! symbol' <> Some i)
  /\ (forall symbol',
        sockets (disconnect st2 symbol') !! i
        = Some (mkSocket symbol first true))
  /\ sockets (disconnectAll st2 symbols) !! i
     = Some (mkSocket symbol first true).
Proof.
  intros Hreg i st1 j st2.
  assert (Hi : sockets st2 !! i = Some (mkSocket symbol first true)).
  { subst i st1 st2; simpl.
    rewrite lookup_app_l by (rewrite length_app; simpl; lia).
    by rewrite list_lookup_middle. }
  assert (Hij : i <> j).
  { subst i j st1; simpl. rewrite length_app; simpl. lia. }
  assert (Hfree : forall symbol', connections st2 !! symbol' <> Some i).
  { intros symbol'. subst st2 st1; simpl.
    destruct (decide (symbol = symbol')) as [->|Hne].
    - rewrite lookup_insert_eq. by intros [= E].
    - rewrite !lookup_insert_ne by done. intros Hc%Hreg.
      subst i; simpl in Hc. lia. }
  repeat split; try done.
  - subst st2; simpl. by rewrite lookup_insert_eq.
  - intros symbol'. unfold MarketDataService.disconnect.
    destruct (connections st2 !! symbol') as [c|] eqn:Ec; [|done]. simpl.
    rewrite socket_disconnect_other; [done|].
    intros ->. by apply (Hfree symbol').
  - unfold MarketDataService.disconnectAll; simpl.
    rewrite foldl_socket_disconnect_other; [done|].
    intros (symbol' & _ & Hc)%list_elem_of_omap. by apply (Hfree symbol').
Qed.

(** X16. [disconnectAll] empties [this.connections] and closes every
    socket registered in it; it leaves the cache and the clock alone,
    and every reconnection that was already scheduled stays
    scheduled. *)
Theorem disconnectAll_spec st (symbols : list string) :
  (forall symbol, is_Some (connections st !! symbol) -> symbol ∈ symbols) ->
  connections (disconnectAll st symbols) = ∅
  /\ cache (disconnectAll st symbols) = cache st
  /\ (forall symbol (c : nat) sk,
        connections st !! symbol = Some c -> sockets st !! c = Some sk ->
        exists sk', sockets (disconnectAll st symbols) !! c = Some sk'
                    /\ s_open sk' = false)
  /\ (forall t, t ∈ timers st -> t ∈ timers (disconnectAll st symbols)).
Proof.
  intros Hall. unfold MarketDataService.disconnectAll; simpl.
  set (l := omap _ symbols).
  destruct (foldl_socket_disconnect_frame st l) as (_ & E2 & _ & _ & E5 & _).
  repeat split; try done.
  intros symbol c sk Hc Hs. apply (foldl_socket_disconnect_closes _ _ _ sk); [|done].
  apply list_elem_of_omap. exists symbol. split; [|done]. apply Hall. eauto.
Qed.

End Streams.

(** A callback that sets [timeframe] to [1h] on the tick it is handed:
    the tick is filed under [1h], and nothing under [realtime]. *)
Lemma price_event_cached_witness :
  let st := (connectToStream (new 0) "EUR_USD" 7).2 in
  let data : object := {[ "instrument" := VStr "GBP_USD";
                          "bid" := VNum 1.25; "ask" := VNum 1.5 ]} in
  let after := step (fun _ => nan) (fun _ => "") false st
                    (Socket_price 0 data (fun t => Some (TimedTick t "1h"))) in
  (exists tick,
     (getCachedData (advance after 59999) "EUR_USD" "1h").1
     = Some (TimedTick tick "1h")
     /\ t_symbol tick = VStr "GBP_USD")
  /\ cache after !! "EUR_USD_realtime" = cache st !! "EUR_USD_realtime".
Proof.
  intros st data after.
  destruct (price_event_cached (fun _ => nan) (fun _ => "") false st 0
              (mkSocket "EUR_USD" 7 true) data
              (fun t => Some (TimedTick t "1h")) 59999)
    as (_ & H1 & H2); [reflexivity|reflexivity|lia|].
  split.
  - eexists. split; [exact H1|reflexivity].
  - by apply H2.
Defined.

Lemma resubscribe_orphans_witness :
  sockets (MarketDataService.disconnect false
             (connectToStream (connectToStream (new 0) "EUR_USD" 1).2
                              "EUR_USD" 2).2 "EUR_USD") !! 0%nat
  = Some (mkSocket "EUR_USD" 1 true).
Proof.
  refine (proj1 (proj2 (proj2 (proj2 (proj2
            (resubscribe_orphans false (new 0) "EUR_USD" 1 2 [] _)))))
            "EUR_USD").
  intros symbol c Hc. simpl in Hc. by rewrite lookup_empty in Hc.
Defined.

Lemma disconnectAll_spec_witness :
  connections
    (disconnectAll false (connectToStream (new 0) "EUR_USD" 1).2 ["EUR_USD"])
  = ∅.
Proof.
  refine (proj1 (disconnectAll_spec false _ ["EUR_USD"] _)).
  intros symbol [c Hc]. simpl in Hc.
  destruct (decide (symbol = "EUR_USD")) as [->|Hne]; [by left|].
  by rewrite lookup_insert_ne, lookup_empty in Hc.
Defined.

Section Undone.

Variable parseFloatString : string -> float.
Variable toISOString : Z -> string.

Implicit Types (st : Service) (symbol : string) (sk : Socket).

Lemma elapse_reconnects st (t : Timer) (ms : nat) :
  t ∈ timers st -> (due t <= clock st + Z.of_nat ms)%Z ->
  exists (s s' : nat) es es',
    length (sockets st) <= s /\ length (sockets st) <= s'
    /\ trace (elapse st ms)
       = (trace st ++ es ++ IoOpen (tm_symbol t) s :: es')%list
    /\ connections (elapse st ms) !! tm_symbol t = Some s'.
Proof.
  intros Ht Hdue. unfold elapse.
  set (st2 := mkService _ _ _ _ _ _). set (l := filter _ _).
  assert (t ∈ l) as Hl.
  { apply list_elem_of_filter. split; [|done].
    unfold is_due, advance; simpl. by apply Z.leb_le. }
  destruct (foldl_fire_reconnects st2 l t Hl)
    as (s & es & es' & Hs & He & s' & Hs' & Hc).
  by exists s, s', es, es'.
Qed.

(** X17. When the socket library reports a close made by
    [socket.disconnect()] to the socket's own [disconnect] listeners,
    an explicit [disconnect(symbol)] undoes itself: the listener
    schedules a reconnection, and five seconds later a new socket is
    opened for the symbol and registered under it. *)
Theorem disconnect_undone st symbol (c : nat) sk :
  connections st !! symbol = Some c -> sockets st !! c = Some sk ->
  s_open sk = true -> s_symbol sk = symbol ->
  let st' := MarketDataService.run parseFloatString toISOString true st
               [Call_disconnect symbol; Elapse 5000] in
  connections (MarketDataService.disconnect true st symbol) !! symbol = None
  /\ exists (s s' : nat) es es',
       length (sockets st) <= s /\ length (sockets st) <= s'
       /\ trace st'
          = (trace (MarketDataService.disconnect true st symbol)
             ++ es ++ IoOpen symbol s :: es')%list
       /\ connections st' !! symbol = Some s'.
Proof.
  intros Hc Hs Ho Hsym st'.
  destruct (disconnect_grows true st symbol) as (Hlen & Hclock & Hnone & _).
  split; [done|]. subst st'. unfold MarketDataService.run; simpl.
  set (t := mkTimer (clock st + 5000) symbol (s_callback sk)).
  assert (t ∈ timers (MarketDataService.disconnect true st symbol)) as Ht.
  { unfold MarketDataService.disconnect, socket_disconnect.
    rewrite Hc; simpl. rewrite Hs, Ho; simpl. rewrite Hsym.
    apply elem_of_app. right. by left. }
  destruct (elapse_reconnects _ t 5000 Ht)
    as (s & s' & es & es' & H1 & H2 & H3 & H4).
  { rewrite Hclock. simpl. lia. }
  rewrite Hlen in H1, H2. by exists s, s', es, es'.
Qed.

(** X18. [disconnectAll] does not cancel a reconnection a network drop
    has scheduled: once its timer is due, a new socket is opened for
    the symbol and registered, whatever the socket library does on a
    close. *)
Theorem disconnectAll_leaves_reconnect (close_emits_disconnect : bool)
        st (symbols : list string) (t : Timer) (ms : nat) :
  t ∈ timers st -> (due t <= clock st + Z.of_nat ms)%Z ->
  let st1 := disconnectAll close_emits_disconnect st symbols in
  connections st1 = ∅
  /\ exists (s s' : nat) es es',
       length (sockets st) <= s /\ length (sockets st) <= s'
       /\ trace (elapse st1 ms)
          = (trace st1 ++ es ++ IoOpen (tm_symbol t) s :: es')%list
       /\ connections (elapse st1 ms) !! tm_symbol t = Some s'.
Proof.
  intros Ht Hdue st1. split; [done|].
  destruct (foldl_socket_disconnect_frame close_emits_disconnect st
              (omap (fun symbol => connections st !! symbol) symbols))
    as (_ & _ & E3 & E4 & E5 & _).
  destruct (elapse_reconnects st1 t ms) as (s & s' & es & es' & H1 & H2 & H3 & H4).
  - apply E5, Ht.
  - subst st1. unfold disconnectAll; simpl. by rewrite E3.
  - subst st1. unfold disconnectAll in H1, H2; simpl in H1, H2.
    rewrite E4 in H1, H2. by exists s, s', es, es'.
Qed.

(** X19. [getTimeframeMs] gives the length of the seven tokens of its
    table in milliseconds, and one minute for every other string that
    is not the name of a member of [Object.prototype]: also for [1w]
    and [1M], which [validateMarketDataRequest] accepts. *)
Theorem getTimeframeMs_spec :
  (getTimeframeMs "1m" = VNum 60000 /\ getTimeframeMs "5m" = VNum 300000
   /\ getTimeframeMs "15m" = VNum 900000
   /\ getTimeframeMs "30m" = VNum 1800000
   /\ getTimeframeMs "1h" = VNum 3600000
   /\ getTimeframeMs "4h" = VNum 14400000
   /\ getTimeframeMs "1d" = VNum 86400000)
  /\ (forall timeframe : string,
        timeframe ∉ granularityTokens -> inherited timeframe = false ->
        getTimeframeMs timeframe = VNum 60000)
  /\ (forall timeframe : string,
        timeframe ∈ validTimeframes -> timeframe ∉ granularityTokens ->
        getTimeframeMs timeframe = getTimeframeMs "1m").
Proof.
  assert (Hother : forall timeframe : string,
             timeframe ∉ granularityTokens -> inherited timeframe = false ->
             getTimeframeMs timeframe = VNum 60000).
  { intros timeframe Hn Hi. unfold getTimeframeMs, get_literal.
    assert (assoc msMap timeframe = None) as ->.
    { unfold granularityTokens, conversions in Hn.
      cbn [fmap list_fmap fst] in Hn.
      repeat (apply not_elem_of_cons in Hn as [? Hn]).
      unfold msMap, assoc.
      repeat match goal with
             | |- context [String.eqb ?a timeframe] =>
                 destruct (String.eqb_spec a timeframe); [congruence|]
             end.
      done. }
    rewrite (inherited_false _ Hi). reflexivity. }
  split; [by repeat split|]. split; [done|].
  intros timeframe Hv Hn. rewrite Hother; [done|done|].
  unfold validTimeframes in Hv.
  repeat (apply elem_of_cons in Hv as [->|Hv]; [reflexivity|]).
  by apply elem_of_nil in Hv.
Qed.

End Undone.

Lemma disconnect_undone_witness :
  connections
    (MarketDataService.run (fun _ => nan) (fun _ => "") true
       (connectToStream (new 0) "EUR_USD" 7).2
       [Call_disconnect "EUR_USD"; Elapse 5000]) !! "EUR_USD" = Some 1%nat.
Proof.
  destruct (disconnect_undone (fun _ => nan) (fun _ => "")
              (connectToStream (new 0) "EUR_USD" 7).2
              "EUR_USD" 0 (mkSocket "EUR_USD" 7 true)
              eq_refl eq_refl eq_refl eq_refl) as (_ & _).
  reflexivity.
Defined.

Lemma disconnectAll_leaves_reconnect_witness :
  let st := MarketDataService.run (fun _ => nan) (fun _ => "") false (new 0)
              subscribe_then_drop in
  connections (disconnectAll false st ["EUR_USD"]) = ∅
  /\ connections (elapse (disconnectAll false st ["EUR_USD"]) 5000)
       !! "EUR_USD" = Some 1%nat.
Proof.
  intros st.
  destruct (disconnectAll_leaves_reconnect false st ["EUR_USD"]
              (mkTimer 5000 "EUR_USD" 7) 5000) as (H & _).
  - by left.
  - simpl. lia.
  - split; [exact H|reflexivity].
Defined.

(** ** Sessions of the broker integration *)

Section Sessions.

Variable axios_get : list call -> call -> outcome Response.
Variable io : list call -> call -> outcome unit.

Local Abbreviation connectToBroker := (connectToBroker axios_get io).

(** What a successful [connectToBroker] leaves behind. *)
Lemma connectToBroker_success b c d w l w' :
  connectToBroker b c d w = (Returned l, w') ->
  b = VStr "oanda" /\ l = length (sessions w)
  /\ BrokerIntegration.connections w'
     = Map_set (BrokerIntegration.connections w) b l
  /\ streams w' = S (streams w)
  /\ exists apiKey response accounts first info,
      json_get c "apiKey" = Returned apiKey
      /\ axios_get (calls w)
           (AxiosGetAccounts
              (baseUrl (new_connection b c (isDemo_or_default d) oanda))
              apiKey) = Returned response
      /\ status response = 200%Z
      /\ json_get (r_data response) "accounts" = Returned accounts
      /\ json_first accounts = Returned first
      /\ sessions w'
         = (sessions w
            ++ [mkConnection b (isDemo_or_default d)
                  (baseUrl (new_connection b c (isDemo_or_default d) oanda))
                  (streamUrl (new_connection b c (isDemo_or_default d) oanda))
                  c true first info ∅ ∅ (Some (streams w))])%list.
Proof.
  intros (-> & -> & w1 & w2 & w3 & H1 & H2 & H3 & ->)%connectToBroker_Returned.
  split; [done|]. split; [done|].
  apply authenticate_session in H1
    as (c0 & apiKey & response & accounts & Hc0 & Hk & Hr & Hs & Ha
        & first & Hf & ->).
  unfold started, alloc in Hc0, Hk, Hr |- *; simpl in Hc0, Hk, Hr.
  rewrite lookup_app_r, Nat.sub_diag in Hc0 by done. injection Hc0 as <-.
  simpl in *.
  apply getAccountInfo_session in H2
    as (c1 & id & apiKey' & response' & Hc1 & Hi & _ & ->).
  simpl in Hc1. rewrite list_lookup_insert_eq in Hc1
    by (rewrite length_app; simpl; lia).
  injection Hc1 as <-. simpl in *.
  apply connectToStream_session in H3 as (c2 & token & Hc2 & ->).
  simpl in Hc2. rewrite list_lookup_insert_eq in Hc2
    by (rewrite length_insert, length_app; simpl; lia).
  injection Hc2 as <-. simpl.
  split; [done|]. split; [done|].
  exists apiKey, response, accounts, first, (r_data response').
  repeat split; try done.
  rewrite !list_insert_insert_eq.
  replace (length (sessions w)) with (length (sessions w) + 0) at 1 by lia.
  by rewrite insert_app_r.
Qed.

(** X20. A successful [connectToBroker] registers, under the broker
    id, a new session that is marked connected, holds the credentials
    it was given and, as its account, the first account of the venue's
    answer to an accounts request that returned status 200; the session
    has the one socket opened by the call and empty position and order
    books, and the sessions that existed before are untouched. *)
Theorem connectToBroker_session (b : jsval) (c : json) (d : jsval) w l w' :
  connectToBroker b c d w = (Returned l, w') ->
  Map_get (BrokerIntegration.connections w') b = Some l
  /\ (forall j, j < length (sessions w) -> sessions w' !! j = sessions w !! j)
  /\ exists s,
      sessions w' !! l = Some s
      /\ connected s = true /\ credentials s = c
      /\ stream s = Some (streams w) /\ streams w' = S (streams w)
      /\ c_positions s = ∅ /\ c_orders s = ∅
      /\ exists apiKey response accounts,
          json_get c "apiKey" = Returned apiKey
          /\ axios_get (calls w) (AxiosGetAccounts (baseUrl s) apiKey)
             = Returned response
          /\ status response = 200%Z
          /\ json_get (r_data response) "accounts" = Returned accounts
          /\ json_first accounts = Returned (account s).
Proof.
  intros (-> & -> & Hreg & Hstreams & apiKey & response & accounts & first
          & info & Hk & Hr & Hs & Ha & Hf & Hsess)%connectToBroker_success.
  rewrite Hreg, Hsess. split; [|split].
  - unfold Map_get, Map_set. by rewrite lookup_insert_eq.
  - intros j Hj. by rewrite lookup_app_l.
  - eexists. split; [by rewrite list_lookup_middle|]. simpl.
    repeat split; try done. by exists apiKey, response, accounts.
Qed.

(** [disconnect] right after a successful [connectToBroker]. *)
Lemma disconnect_connected (b : jsval) (c : json) (d : jsval) w l w' :
  connectToBroker b c d w = (Returned l, w') ->
  BrokerIntegration.disconnect b w'
  = (Some (streams w),
     mkBroker (Map_delete (BrokerIntegration.connections w') b) (sessions w')
              (streams w') (calls w')).
Proof.
  intros (-> & -> & Hreg & Hstreams & apiKey & response & accounts & first
          & info & Hk & Hr & Hs & Ha & Hf & Hsess)%connectToBroker_success.
  unfold BrokerIntegration.disconnect. rewrite Hreg at 1.
  unfold Map_get at 1, Map_set at 1. rewrite lookup_insert_eq.
  rewrite Hsess at 1. by rewrite list_lookup_middle.
Qed.

(** X21. [disconnect] after a successful [connectToBroker] closes the
    socket that call opened and removes the registry entry, and that is
    all: the session object is left as it was, still marked
    connected. *)
Theorem disconnect_after_connect (b : jsval) (c : json) (d : jsval) w l w' :
  connectToBroker b c d w = (Returned l, w') ->
  (BrokerIntegration.disconnect b w').1 = Some (streams w)
  /\ Map_get (BrokerIntegration.connections
                (BrokerIntegration.disconnect b w').2) b = None
  /\ sessions (BrokerIntegration.disconnect b w').2 = sessions w'
  /\ calls (BrokerIntegration.disconnect b w').2 = calls w'
  /\ exists s, sessions (BrokerIntegration.disconnect b w').2 !! l = Some s
               /\ connected s = true.
Proof.
  intros H. rewrite (disconnect_connected _ _ _ _ _ _ H). simpl.
  apply connectToBroker_success in H
    as (-> & -> & Hreg & Hstreams & apiKey & response & accounts & first
        & info & Hk & Hr & Hs & Ha & Hf & Hsess).
  repeat split; try done.
  - unfold Map_get, Map_delete. by rewrite lookup_delete_eq.
  - rewrite Hsess. eexists. split; [by rewrite list_lookup_middle|done].
Qed.

(** X22. Connecting twice under one id leaks the first socket. Starting
    from an empty registry, after two successful [connectToBroker]
    calls [disconnect] closes the socket of the second session only;
    the registry is then empty, so that no later [disconnect] or
    [disconnectAll] closes anything, while the first session still
    holds its socket. *)
Theorem reconnect_leaks_stream (b : jsval) (c1 c2 : json) (d1 d2 : jsval)
        w l1 w1 l2 w2 :
  BrokerIntegration.connections w = ∅ ->
  connectToBroker b c1 d1 w = (Returned l1, w1) ->
  connectToBroker b c2 d2 w1 = (Returned l2, w2) ->
  let w3 := (BrokerIntegration.disconnect b w2).2 in
  (BrokerIntegration.disconnect b w2).1 = Some (S (streams w))
  /\ (exists s1, sessions w3 !! l1 = Some s1
                 /\ stream s1 = Some (streams w))
  /\ BrokerIntegration.connections w3 = ∅
  /\ (forall b', BrokerIntegration.disconnect b' w3 = (None, w3))
  /\ (forall brokerIds, BrokerIntegration.disconnectAll brokerIds w3 = ([], w3)).
Proof.
  intros Hempty H1 H2 w3.
  pose proof (disconnect_connected _ _ _ _ _ _ H2) as Hd.
  apply connectToBroker_success in H1
    as (-> & -> & Hreg1 & Hstreams1 & ? & ? & ? & first1 & info1 & _ & _ & _
        & _ & _ & Hsess1).
  apply connectToBroker_success in H2
    as (_ & -> & Hreg2 & Hstreams2 & ? & ? & ? & first2 & info2 & _ & _ & _
        & _ & _ & Hsess2).
  subst w3. rewrite Hd. simpl.
  assert (Map_delete (BrokerIntegration.connections w2) (VStr "oanda") = ∅)
    as Hreg3.
  { rewrite Hreg2, Hreg1, Hempty. unfold Map_delete, Map_set.
    by rewrite insert_insert_eq, delete_insert_eq, delete_empty. }
  rewrite Hreg3.
  set (w3 := mkBroker ∅ _ _ _).
  assert (forall b', BrokerIntegration.disconnect b' w3 = (None, w3)) as Hnone.
  { intros b'. unfold BrokerIntegration.disconnect, Map_get.
    simpl. by rewrite lookup_empty. }
  split; [by rewrite Hstreams1|].
  split; [|split; [reflexivity|split; [exact Hnone|]]].
  - rewrite Hsess2, Hsess1. eexists. split.
    + rewrite lookup_app_l by (rewrite length_app; simpl; lia).
      by rewrite list_lookup_middle.
    + reflexivity.
  - intros brokerIds. unfold BrokerIntegration.disconnectAll.
    induction brokerIds as [|b' ids IH] using rev_ind; [done|].
    rewrite foldl_app; simpl. rewrite IH; simpl. by rewrite Hnone.
Qed.

End Sessions.

Lemma connectToBroker_session_witness :
  exists s,
    sessions connected_once !! 0%nat = Some s
    /\ connected s = true
    /\ account s = JObj [("id", JPrim (VStr "001-001"))].
Proof.
  assert ((BrokerIntegration.connectToBroker venue_up (fun _ _ => Returned tt)
             (VStr "oanda") (JObj [("apiKey", JPrim (VStr "first"))]) VUndef
             (mkBroker ∅ [] 0 [])).1 = Returned 0%nat) as E1
    by (vm_compute; reflexivity).
  destruct (connectToBroker_session venue_up (fun _ _ => Returned tt)
              (VStr "oanda") (JObj [("apiKey", JPrim (VStr "first"))]) VUndef
              (mkBroker ∅ [] 0 []) 0 connected_once)
    as (_ & _ & s & Hs & Hc & _ & _ & _ & _ & _
        & apiKey & response & accounts & _ & Hr & _ & Ha & Hf).
  { unfold connected_once.
    destruct (BrokerIntegration.connectToBroker _ _ _ _ _ _) as [r w'].
    simpl in E1. by rewrite E1. }
  exists s. split; [done|]. split; [done|].
  injection Hr as <-. injection Ha as <-. by injection Hf as <-.
Defined.

Lemma disconnect_after_connect_witness :
  (BrokerIntegration.disconnect (VStr "oanda") connected_once).1 = Some 0%nat.
Proof.
  assert ((BrokerIntegration.connectToBroker venue_up (fun _ _ => Returned tt)
             (VStr "oanda") (JObj [("apiKey", JPrim (VStr "first"))]) VUndef
             (mkBroker ∅ [] 0 [])).1 = Returned 0%nat) as E1
    by (vm_compute; reflexivity).
  refine (proj1 (disconnect_after_connect venue_up (fun _ _ => Returned tt)
                   (VStr "oanda") (JObj [("apiKey", JPrim (VStr "first"))])
                   VUndef (mkBroker ∅ [] 0 []) 0 connected_once _)).
  unfold connected_once.
  destruct (BrokerIntegration.connectToBroker _ _ _ _ _ _) as [r w'].
  simpl in E1. by rewrite E1.
Defined.

Section Hosts.

Variable axios_get : list call -> call -> outcome Response.
Variable io : list call -> call -> outcome unit.

Lemma authenticate_calls l w r w' c :
  sessions w !! l = Some c -> authenticate axios_get l w = (r, w') ->
  exists cs, calls w' = (calls w ++ cs)%list
             /\ Forall (fun call => call_url call = Some (baseUrl c)) cs.
Proof.
  intros Hc.
  unfold authenticate, authenticateOanda, mbind, M_bind, bind, read, lift,
    request, write, throw. rewrite Hc.
  destruct (json_get (credentials c) "apiKey") as [apiKey|];
    [|intros [= <- <-]; exists []; by rewrite app_nil_r].
  destruct (axios_get _ _) as [response|];
    [|intros [= <- <-]; eexists [_]; by repeat constructor].
  destruct (negb _); [intros [= <- <-]; eexists [_]; by repeat constructor|].
  destruct (json_get _ "accounts") as [accounts|];
    [|intros [= <- <-]; eexists [_]; by repeat constructor].
  destruct (json_first accounts) as [first|];
    intros [= <- <-]; eexists [_]; by repeat constructor.
Qed.

Lemma getAccountInfo_calls l w r w' c :
  sessions w !! l = Some c -> getAccountInfo axios_get l w = (r, w') ->
  exists cs, calls w' = (calls w ++ cs)%list
             /\ Forall (fun call => call_url call = Some (baseUrl c)) cs.
Proof.
  intros Hc.
  unfold getAccountInfo, getOandaAccountInfo, mbind, M_bind, bind, read, lift,
    request, write. rewrite Hc.
  destruct (json_get (account c) "id") as [id|];
    [|intros [= <- <-]; exists []; by rewrite app_nil_r].
  destruct (json_get (credentials c) "apiKey") as [apiKey|];
    [|intros [= <- <-]; exists []; by rewrite app_nil_r].
  destruct (axios_get _ _) as [response|];
    intros [= <- <-]; eexists [_]; by repeat constructor.
Qed.

Lemma connectToStream_calls l w r w' c :
  sessions w !! l = Some c ->
  BrokerIntegration.connectToStream io l w = (r, w') ->
  exists cs, calls w' = (calls w ++ cs)%list
             /\ Forall (fun call => call_url call = Some (streamUrl c)) cs.
Proof.
  intros Hc.
  unfold BrokerIntegration.connectToStream, connectOandaStream, mbind, M_bind,
    bind, read, lift, open_socket, write. rewrite Hc.
  destruct (json_get (credentials c) "apiKey") as [token|];
    [|intros [= <- <-]; exists []; by rewrite app_nil_r].
  destruct (io _ _) as [[]|];
    intros [= <- <-]; eexists [_]; by repeat constructor.
Qed.

(** X23. Whatever happens in a connection attempt, every request and
    every socket it opens goes to the venue's practice hosts when
    [isDemo] is truthy or left out, and to the venue's trading hosts
    when [isDemo] is falsy; nothing else is contacted. *)
Theorem connectToBroker_hosts (b : jsval) (c : json) (d : jsval) w r w' :
  BrokerIntegration.connectToBroker axios_get io b c d w = (r, w') ->
  let demo := truthy (isDemo_or_default d) in
  exists cs,
    calls w' = (calls w ++ cs)%list
    /\ Forall (fun call =>
                 forall url, call_url call = Some url ->
                   url = VStr (if demo then "https://api-fxpractice.oanda.com"
                               else "https://api-fxtrade.oanda.com")
                   \/ url = VStr (if demo
                                  then "https://stream-fxpractice.oanda.com"
                                  else "https://stream-fxtrade.oanda.com"))
              cs.
Proof.
  intros H demo.
  destruct (decide (b = VStr "oanda")) as [->|Hb].
  2: { rewrite connectToBroker_not_oanda in H by done. injection H as <- <-.
       exists []. by rewrite app_nil_r. }
  rewrite connectToBroker_oanda in H. unfold try_catch in H.
  unfold mbind at 1, M_bind at 1, bind at 1 in H.
  rewrite connect_steps_oanda in H. unfold mbind, M_bind, bind in H.
  set (l := length (sessions w)) in *.
  set (c0 := new_connection (VStr "oanda") c (isDemo_or_default d) oanda).
  assert (Hbase : baseUrl c0
                  = VStr (if demo then "https://api-fxpractice.oanda.com"
                          else "https://api-fxtrade.oanda.com")).
  { subst c0 demo. simpl. by destruct (truthy _). }
  assert (Hstream : streamUrl c0
                    = VStr (if demo then "https://stream-fxpractice.oanda.com"
                            else "https://stream-fxtrade.oanda.com")).
  { subst c0 demo. simpl. by destruct (truthy _). }
  assert (Hurls : forall u cs,
             (u = baseUrl c0 \/ u = streamUrl c0) ->
             Forall (fun call => call_url call = Some u) cs ->
             Forall (fun call =>
                 forall url, call_url call = Some url ->
                   url = VStr (if demo then "https://api-fxpractice.oanda.com"
                               else "https://api-fxtrade.oanda.com")
                   \/ url = VStr (if demo
                                  then "https://stream-fxpractice.oanda.com"
                                  else "https://stream-fxtrade.oanda.com"))
               cs).
  { intros u cs Hu Hcs. eapply Forall_impl; [exact Hcs|].
    intros call Hcall url. rewrite Hcall. intros [= <-].
    destruct Hu as [->| ->]; [left|right]; done. }
  set (w0 := started (VStr "oanda") c d w) in *.
  assert (Hc0 : sessions w0 !! l = Some c0).
  { subst w0 l. unfold started, alloc; simpl. by rewrite list_lookup_middle. }
  assert (Hw0 : calls w0 = calls w) by done.
  destruct (authenticate _ _ _) as [[[]|e1] w1] eqn:E1.
  2: { destruct (authenticate_calls _ _ _ _ _ Hc0 E1) as (cs1 & C1 & F1).
       injection H as <- <-. simpl. rewrite C1, Hw0, <- app_assoc.
       eexists. split; [done|]. apply Forall_app. split; [eauto|].
       by repeat constructor. }
  destruct (authenticate_calls _ _ _ _ _ Hc0 E1) as (cs1 & C1 & F1).
  apply authenticate_session in E1
    as (c0' & ? & ? & ? & Hc0' & _ & _ & _ & _ & first & _ & Ew1).
  rewrite Hc0 in Hc0'. injection Hc0' as <-.
  assert (Hl : l < length (sessions w0)) by (by eapply lookup_lt_Some).
  assert (exists c1, sessions w1 !! l = Some c1 /\ baseUrl c1 = baseUrl c0
                     /\ streamUrl c1 = streamUrl c0) as (c1 & Hc1 & B1 & S1).
  { rewrite Ew1; simpl. rewrite list_lookup_insert_eq by done. by eexists. }
  destruct (getAccountInfo _ _ _) as [[[]|e2] w2] eqn:E2.
  2: { destruct (getAccountInfo_calls _ _ _ _ _ Hc1 E2) as (cs2 & C2 & F2).
       injection H as <- <-. simpl. rewrite C2, C1, Hw0, <- !app_assoc.
       eexists. split; [done|]. rewrite !Forall_app. rewrite B1 in F2.
       repeat split; eauto. by repeat constructor. }
  destruct (getAccountInfo_calls _ _ _ _ _ Hc1 E2) as (cs2 & C2 & F2).
  apply getAccountInfo_session in E2
    as (c1' & ? & ? & ? & Hc1' & _ & _ & Ew2).
  rewrite Hc1 in Hc1'. injection Hc1' as <-.
  assert (Hl1 : l < length (sessions w1)) by (by eapply lookup_lt_Some).
  assert (exists c2, sessions w2 !! l = Some c2 /\ baseUrl c2 = baseUrl c0
                     /\ streamUrl c2 = streamUrl c0) as (c2 & Hc2 & B2 & S2).
  { rewrite Ew2; simpl. rewrite list_lookup_insert_eq by done. by eexists. }
  rewrite B1 in F2.
  destruct (BrokerIntegration.connectToStream _ _ _) as [[[]|e3] w3] eqn:E3.
  2: { destruct (connectToStream_calls _ _ _ _ _ Hc2 E3) as (cs3 & C3 & F3).
       injection H as <- <-. simpl. rewrite C3, C2, C1, Hw0, <- !app_assoc.
       eexists. split; [done|]. rewrite !Forall_app. rewrite S2 in F3.
       repeat split; eauto. by repeat constructor. }
  destruct (connectToStream_calls _ _ _ _ _ Hc2 E3) as (cs3 & C3 & F3).
  injection H as <- <-. simpl. rewrite C3, C2, C1, Hw0, <- !app_assoc.
  eexists. split; [done|]. rewrite !Forall_app. rewrite S2 in F3.
  repeat split; eauto.
Qed.

End Hosts.

Lemma reconnect_leaks_stream_witness :
  let w2 := (BrokerIntegration.connectToBroker venue_up
               (fun _ _ => Returned tt) (VStr "oanda")
               (JObj [("apiKey", JPrim (VStr "second"))]) VUndef
               connected_once).2 in
  (BrokerIntegration.disconnect (VStr "oanda") w2).1 = Some 1%nat
  /\ BrokerIntegration.connections
       (BrokerIntegration.disconnect (VStr "oanda") w2).2 = ∅.
Proof.
  intros w2.
  assert ((BrokerIntegration.connectToBroker venue_up (fun _ _ => Returned tt)
             (VStr "oanda") (JObj [("apiKey", JPrim (VStr "first"))]) VUndef
             (mkBroker ∅ [] 0 [])).1 = Returned 0%nat) as E1
    by (vm_compute; reflexivity).
  assert ((BrokerIntegration.connectToBroker venue_up (fun _ _ => Returned tt)
             (VStr "oanda") (JObj [("apiKey", JPrim (VStr "second"))]) VUndef
             connected_once).1 = Returned 1%nat) as E2
    by (vm_compute; reflexivity).
  destruct (reconnect_leaks_stream venue_up (fun _ _ => Returned tt)
              (VStr "oanda") (JObj [("apiKey", JPrim (VStr "first"))])
              (JObj [("apiKey", JPrim (VStr "second"))]) VUndef VUndef
              (mkBroker ∅ [] 0 []) 0 connected_once 1 w2)
    as (H1 & _ & H3 & _).
  - reflexivity.
  - clear E2. unfold connected_once.
    destruct (BrokerIntegration.connectToBroker _ _ _ _ _ (mkBroker ∅ [] 0 []))
      as [r w'].
    simpl in E1. by rewrite E1.
  - subst w2.
    destruct (BrokerIntegration.connectToBroker _ _ _ _ _ connected_once)
      as [r w'].
    simpl in E2. by rewrite E2.
  - split; [exact H1|exact H3].
Defined.

Lemma connectToBroker_hosts_witness :
  exists cs,
    calls connected_once = ([] ++ cs)%list
    /\ Forall (fun call =>
                 forall url, call_url call = Some url ->
                   url = VStr "https://api-fxpractice.oanda.com"
                   \/ url = VStr "https://stream-fxpractice.oanda.com")
              cs.
Proof.
  apply (connectToBroker_hosts venue_up (fun _ _ => Returned tt)
           (VStr "oanda") (JObj [("apiKey", JPrim (VStr "first"))]) VUndef
           (mkBroker ∅ [] 0 [])
           (BrokerIntegration.connectToBroker venue_up (fun _ _ => Returned tt)
              (VStr "oanda") (JObj [("apiKey", JPrim (VStr "first"))]) VUndef
              (mkBroker ∅ [] 0 [])).1
           connected_once).
  unfold connected_once.
  by destruct (BrokerIntegration.connectToBroker _ _ _ _ _ _).
Defined.

(** ** Price events on a connection *)

Section Prices.

Variable StringToNumber : string -> float.

Local Abbreviation ToNumber := (ToNumber StringToNumber).
Local Abbreviation position_of := (position_of StringToNumber).
Local Abbreviation reprice := (reprice StringToNumber).
Local Abbreviation handlePriceUpdate := (handlePriceUpdate StringToNumber).

Lemma get_prop_insert_ne (o : object) (k k' : string) (v : jsval) :
  k <> k' -> get_prop (<[k := v]> o) k' = get_prop o k'.
Proof. intros Hne. unfold get_prop. by rewrite lookup_insert_ne. Qed.

Lemma get_prop_insert (o : object) (k : string) (v : jsval) :
  get_prop (<[k := v]> o) k = v.
Proof. unfold get_prop. by rewrite lookup_insert_eq. Qed.

Lemma position_of_repriced (o : object) (v v' : jsval) :
  position_of (<["unrealizedPnL" := v']> (<["currentPrice" := v]> o))
  = position_of o.
Proof.
  unfold BrokerIntegration.position_of. by rewrite !get_prop_insert_ne.
Qed.

Lemma position_of_priced (o : object) (v : jsval) :
  position_of (<["currentPrice" := v]> o) = position_of o.
Proof.
  unfold BrokerIntegration.position_of. by rewrite !get_prop_insert_ne.
Qed.

Lemma reprice_idem (symbol : jsval) (data o : object) :
  reprice symbol data (reprice symbol data o) = reprice symbol data o.
Proof.
  unfold BrokerIntegration.reprice.
  destruct (strict_eq (get_prop o "symbol") symbol) eqn:E; [|by rewrite E].
  rewrite !get_prop_insert_ne, E by done.
  rewrite !position_of_priced, position_of_repriced.
  rewrite (insert_insert_ne _ "currentPrice" "unrealizedPnL") by done.
  by rewrite !insert_insert_eq.
Qed.

Lemma foldl_alter_lookup (f : object -> object) (σ : store)
      (l : list (jsval * loc)) (i : loc) :
  (forall o, f (f o) = f o) ->
  foldl (fun σ entry => alter f entry.2 σ) σ l !! i
  = if decide (i ∈ l.*2) then f <$> σ !! i else σ !! i.
Proof.
  intros Hf. revert σ. induction l as [|e l IH]; intros σ.
  { simpl. destruct (decide (i ∈ [])) as [H|_]; [by apply elem_of_nil in H|done]. }
  rewrite fmap_cons. cbn [foldl]. rewrite IH. destruct (decide (i = e.2)) as [->|Hne].
  - rewrite lookup_alter_eq.
    assert (f <$> (f <$> σ !! e.2) = f <$> σ !! e.2) as Hff.
    { destruct (σ !! e.2); simpl; [by rewrite Hf|done]. }
    rewrite (decide_True (P := e.2 ∈ e.2 :: l.*2)) by (by left).
    by destruct (decide (e.2 ∈ l.*2)).
  - rewrite lookup_alter_ne by done.
    destruct (decide (i ∈ l.*2)) as [Hi|Hi].
    + by rewrite (decide_True (P := i ∈ e.2 :: l.*2)) by (by right).
    + by rewrite (decide_False (P := i ∈ e.2 :: l.*2))
        by (by apply not_elem_of_cons).
Qed.

(** X24. [handlePriceUpdate] gives every position whose [symbol] is
    the event's ([data.instrument || data.symbol]) the event's price
    as [currentPrice] and [calculateUnrealizedPnL] of it as
    [unrealizedPnL]; it leaves every other object as it was, and adds
    no position, removes none and touches no order. A position object
    held under several ids is updated as if held under one. *)
Theorem handlePriceUpdate_spec (connection : Ledger) (data : object) :
  let symbol := or_else (get_prop data "instrument") (get_prop data "symbol") in
  let price := get_prop data "price" in
  let after := handlePriceUpdate connection data in
  positions after = positions connection
  /\ orders after = orders connection
  /\ (forall id (i : loc) (o : object),
        positions connection !! id = Some i ->
        objects connection !! i = Some o ->
        objects after !! i
        = Some (if strict_eq (get_prop o "symbol") symbol
                then <["unrealizedPnL" :=
                         VNum (calculateUnrealizedPnL (position_of o)
                                                      (ToNumber price))]>
                       (<["currentPrice" := price]> o)
                else o))
  /\ (forall i : loc,
        (forall id, positions connection !! id <> Some i) ->
        objects after !! i = objects connection !! i).
Proof.
  intros symbol price after. split; [done|]. split; [done|].
  subst after. unfold BrokerIntegration.handlePriceUpdate; simpl.
  fold symbol. split.
  - intros id i o Hid Ho.
    rewrite foldl_alter_lookup by apply reprice_idem.
    destruct (decide _) as [_|Hn].
    + rewrite Ho; simpl. unfold BrokerIntegration.reprice. fold price.
      by rewrite position_of_priced.
    + destruct Hn. apply list_elem_of_fmap. exists (id, i).
      split; [done|]. by apply elem_of_map_to_list.
  - intros i Hi. rewrite foldl_alter_lookup by apply reprice_idem.
    destruct (decide _) as [Hin|_]; [|done].
    apply list_elem_of_fmap in Hin as ([id i'] & -> & Hin).
    apply elem_of_map_to_list in Hin. by destruct (Hi id).
Qed.

Lemma Prim2SF_nan : Prim2SF nan = S754_nan.
Proof. reflexivity. Qed.

Lemma calculateUnrealizedPnL_nan (position : Position) (price : float) :
  PrimFloat.is_nan price = true ->
  PrimFloat.is_nan (calculateUnrealizedPnL position price) = true.
Proof.
  intros Hp%Prim2SF_is_nan. unfold calculateUnrealizedPnL.
  destruct (strict_eq _ _); apply Prim2SF_is_nan;
    rewrite mul_spec, sub_spec, Hp.
  - by destruct (Prim2SF (averagePrice position)) as [[]|[]| |[]].
  - by destruct (Prim2SF (averagePrice position)) as [[]|[]| |[]].
Qed.

(** X25. A price event whose [price] is missing or is no number makes
    the [unrealizedPnL] of every position it matches [NaN], and their
    [currentPrice] the value the event carried. *)
Theorem handlePriceUpdate_no_price (connection : Ledger) (data : object)
        id (i : loc) (o : object) :
  positions connection !! id = Some i ->
  objects connection !! i = Some o ->
  strict_eq (get_prop o "symbol")
            (or_else (get_prop data "instrument") (get_prop data "symbol"))
  = true ->
  PrimFloat.is_nan (ToNumber (get_prop data "price")) = true ->
  exists o' x,
    objects (handlePriceUpdate connection data) !! i = Some o'
    /\ get_prop o' "currentPrice" = get_prop data "price"
    /\ get_prop o' "unrealizedPnL" = VNum x
    /\ PrimFloat.is_nan x = true.
Proof.
  intros Hid Ho Hsym Hnan.
  unfold BrokerIntegration.handlePriceUpdate; simpl.
  rewrite foldl_alter_lookup by apply reprice_idem.
  destruct (decide _) as [_|Hn].
  2: { destruct Hn. apply list_elem_of_fmap. exists (id, i).
       split; [done|]. by apply elem_of_map_to_list. }
  rewrite Ho; simpl. unfold BrokerIntegration.reprice. rewrite Hsym.
  eexists _, _. split; [done|].
  rewrite get_prop_insert_ne, !get_prop_insert by done.
  split; [done|]. split; [done|]. by apply calculateUnrealizedPnL_nan.
Qed.

End Prices.

Lemma handlePriceUpdate_no_price_witness :
  let connection :=
    mkLedger {[ 0%nat := ({[ "side" := VStr "BUY"; "units" := VNum 100;
                             "averagePrice" := VNum 1.25 ]} : object) ]}
             {[ VStr "p1" := 0%nat ]} ∅ in
  exists o' x,
    objects (handlePriceUpdate (fun _ => nan) connection ∅) !! 0%nat = Some o'
    /\ get_prop o' "currentPrice" = VUndef
    /\ get_prop o' "unrealizedPnL" = VNum x
    /\ PrimFloat.is_nan x = true.
Proof.
  intros connection.
  destruct (handlePriceUpdate_no_price (fun _ => nan) connection ∅
              (VStr "p1") 0 {[ "side" := VStr "BUY"; "units" := VNum 100;
                               "averagePrice" := VNum 1.25 ]})
    as (o' & x & H1 & H2 & H3 & H4).
  - apply lookup_singleton_eq.
  - apply lookup_singleton_eq.
  - reflexivity.
  - reflexivity.
  - exists o', x. repeat split; done.
Defined.

(** ** What the cache holds *)

Section CacheContents.

Variable parseFloatString : string -> float.
Variable toISOString : Z -> string.
Variable close_emits_disconnect : bool.

Implicit Types (st : Service) (symbol timeframe : string).

Local Abbreviation step := (step parseFloatString toISOString
                                 close_emits_disconnect).
Local Abbreviation run := (MarketDataService.run parseFloatString toISOString
                                                 close_emits_disconnect).

Lemma foldl_fire_cache st (l : list Timer) :
  cache (foldl fire st l) = cache st.
Proof. revert st. induction l as [|t l IH]; intros st; simpl; [done|]. by rewrite IH. Qed.

(** Only a price event writes to the cache; when the callback leaves
    no timeframe on the tick, it writes under the key of the
    subscription's symbol and [realtime]. *)
Lemma step_cache st (e : event) :
  match e with
  | Socket_price _ _ callback =>
      forall tick kept, callback tick = Some kept ->
                        string_or (data_timeframe kept) "realtime" = "realtime"
  | _ => True
  end ->
  cache (step st e) = cache st
  \/ exists symbol entry,
       cache (step st e) = <[symbol ++ "_realtime" := entry]> (cache st).
Proof.
  destruct e as [symbol callback|symbol|socket|socket data callback|socket|ms];
    simpl; intros Hquiet.
  - by left.
  - left. unfold MarketDataService.disconnect.
    destruct (connections st !! symbol) as [c|]; [|done]. simpl.
    apply socket_disconnect_frame.
  - left. unfold deliver. destruct (sockets st !! socket) as [sk|]; [|done].
    by destruct (s_open sk).
  - unfold deliver. destruct (sockets st !! socket) as [sk|]; [|by left].
    destruct (s_open sk); [|by left]. unfold on_price.
    destruct (callback _) as [kept|] eqn:Ec; [|by left]. right.
    unfold updateCache; simpl. rewrite (Hquiet _ _ Ec). by eexists _, _.
  - left. unfold deliver. destruct (sockets st !! socket) as [sk|]; [|done].
    by destruct (s_open sk).
  - left. unfold elapse. by rewrite foldl_fire_cache.
Qed.

Lemma run_cache st (events : list event) :
  Forall (fun e =>
            match e with
            | Socket_price _ _ callback =>
                forall tick kept, callback tick = Some kept ->
                  string_or (data_timeframe kept) "realtime" = "realtime"
            | _ => True
            end) events ->
  (forall key e, cache st !! key = Some e ->
     exists symbol, key = symbol ++ "_realtime") ->
  forall key e, cache (run st events) !! key = Some e ->
    exists symbol, key = symbol ++ "_realtime".
Proof.
  intros Hq. revert st.
  induction Hq as [|ev events Hev _ IH]; intros st Hst; [done|].
  apply IH. intros key e.
  destruct (step_cache st ev Hev) as [->|(symbol & entry & ->)]; [apply Hst|].
  destruct (decide (symbol ++ "_realtime" = key)) as [<-|Hne].
  - rewrite lookup_insert_eq. intros _. by eexists.
  - rewrite lookup_insert_ne by done. apply Hst.
Qed.

Lemma split_at_last {A} (c : A) (l1 l2 r1 r2 : list A) :
  (l1 ++ c :: r1 = l2 ++ c :: r2)%list -> c ∉ r1 -> c ∉ r2 -> r1 = r2.
Proof.
  revert l2. induction l1 as [|a l1 IH]; intros [|b l2]; simpl.
  - by intros [= ->].
  - intros [= <- ->] H1 _. destruct H1. apply elem_of_app. right. by left.
  - intros [= -> <-] _ H2. destruct H2. apply elem_of_app. right. by left.
  - intros [= <- H]. by apply (IH l2).
Qed.

(** X26. The service itself caches nothing but ticks under
    [realtime]. As long as no subscriber's callback leaves a timeframe
    on the tick it is handed, then whatever calls and socket events a
    service goes through from its creation, [getCachedData] misses for
    every timeframe other than [realtime] that has no underscore in
    it: for each of the nine timeframe tokens, the cache never holds
    historical data. *)
Theorem cache_only_realtime (now : Z) (events : list event)
        symbol timeframe :
  Forall (fun e =>
            match e with
            | Socket_price _ _ callback =>
                forall tick kept, callback tick = Some kept ->
                  string_or (data_timeframe kept) "realtime" = "realtime"
            | _ => True
            end) events ->
  "_"%char ∉ JSString.chars timeframe -> timeframe <> "realtime" ->
  (getCachedData (run (new now) events) symbol timeframe).1 = None.
Proof.
  intros Hq Hu Hne. unfold getCachedData.
  destruct (cache _ !! _) as [e|] eqn:E; [|done]. exfalso.
  apply (run_cache _ _ Hq) in E as (s & Hkey).
  2: { intros key e'. simpl. by rewrite lookup_empty. }
  apply (f_equal JSString.chars) in Hkey.
  rewrite !chars_app in Hkey.
  change (JSString.chars "_realtime")
    with ("_"%char :: JSString.chars "realtime") in Hkey.
  change (JSString.chars "_") with ["_"%char] in Hkey. simpl in Hkey.
  apply split_at_last in Hkey; [|done|].
  - apply Hne. by rewrite <- (text_chars timeframe), Hkey.
  - intros H. repeat (apply elem_of_cons in H as [H|H]; [done|]).
    by apply elem_of_nil in H.
Qed.

End CacheContents.

Lemma cache_only_realtime_witness :
  let events :=
    [ Call_connectToStream "EUR_USD" 7; Socket_connect 0;
      Socket_price 0 {[ "instrument" := VStr "EUR_USD";
                        "bid" := VNum 1.25; "ask" := VNum 1.5 ]}
                   (fun t => Some (TickData t)) ] in
  (getCachedData (MarketDataService.run (fun _ => nan) (fun _ => "") false
                    (new 0) events) "EUR_USD" "1h").1 = None
  /\ exists tick,
       (getCachedData (MarketDataService.run (fun _ => nan) (fun _ => "") false
                         (new 0) events) "EUR_USD" "realtime").1
       = Some (TickData tick).
Proof.
  intros events. split.
  - apply (cache_only_realtime (fun _ => nan) (fun _ => "") false 0 events
             "EUR_USD" "1h"); [| |discriminate].
    + repeat constructor. by intros tick kept [= <-].
    + intros H. repeat (apply elem_of_cons in H as [H|H]; [done|]).
      by apply elem_of_nil in H.
  - by eexists.
Defined.

(** ** The user model *)

Section Plans.

Variable StringToNumber : string -> float.

Lemma ltb_nan_l (x : float) : PrimFloat.ltb nan x = false.
Proof. rewrite ltb_spec. by destruct (Prim2SF x) as [[]|[]| |[]]. Qed.

Lemma ltb_nan_r (x : float) : PrimFloat.ltb x nan = false.
Proof. rewrite ltb_spec. by destruct (Prim2SF x) as [[]|[]| |[]]. Qed.

Lemma ToNumber_Object_prototype (k : string) (v : jsval) :
  assoc Object_prototype k = Some v ->
  BrokerIntegration.ToNumber StringToNumber v = nan.
Proof.
  unfold Object_prototype, assoc.
  repeat match goal with
         | |- context [String.eqb ?a k] =>
             destruct (String.eqb a k); [by intros [= <-]|]
         end.
  done.
Qed.

(** X27. [canCreateBot] answers true exactly when the user has a list
    of bots, the plan is one of [free], [basic], [premium] and
    [enterprise], and the number of bots is below the plan's limit (1,
    3, 10, no limit). A user with no list of bots is refused on every
    plan, [enterprise] included, and so is every other plan name. *)
Theorem canCreateBot_spec (bots : option float) (plan : string) :
  User.canCreateBot StringToNumber bots plan = true <->
  exists count limit,
    bots = Some count
    /\ (plan, limit) ∈ [("free", 1%float); ("basic", 3%float);
                        ("premium", 10%float); ("enterprise", infinity)]
    /\ PrimFloat.ltb count limit = true.
Proof.
  unfold User.canCreateBot. destruct bots as [count|]; simpl.
  2: { rewrite ltb_nan_l. split; [done|]. by intros (? & ? & ? & _). }
  unfold get_literal, User.limits, assoc.
  destruct (String.eqb_spec "free" plan) as [<-|H1].
  { split; [intros H; exists count, 1%float; repeat split; [by left|done]|].
    intros (? & limit & [= <-] & Hin & Hlt).
    repeat (apply elem_of_cons in Hin as [Heq|Hin];
            [try discriminate Heq; by injection Heq as <-|]).
    by apply elem_of_nil in Hin. }
  destruct (String.eqb_spec "basic" plan) as [<-|H2].
  { split; [intros H; exists count, 3%float; repeat split;
            [by right; left|done]|].
    intros (? & limit & [= <-] & Hin & Hlt).
    repeat (apply elem_of_cons in Hin as [Heq|Hin];
            [try discriminate Heq; by injection Heq as <-|]).
    by apply elem_of_nil in Hin. }
  destruct (String.eqb_spec "premium" plan) as [<-|H3].
  { split; [intros H; exists count, 10%float; repeat split;
            [by right; right; left|done]|].
    intros (? & limit & [= <-] & Hin & Hlt).
    repeat (apply elem_of_cons in Hin as [Heq|Hin];
            [try discriminate Heq; by injection Heq as <-|]).
    by apply elem_of_nil in Hin. }
  destruct (String.eqb_spec "enterprise" plan) as [<-|H4].
  { split; [intros H; exists count, infinity; repeat split;
            [by right; right; right; left|done]|].
    intros (? & limit & [= <-] & Hin & Hlt).
    repeat (apply elem_of_cons in Hin as [Heq|Hin];
            [try discriminate Heq; by injection Heq as <-|]).
    by apply elem_of_nil in Hin. }
  fold (assoc Object_prototype plan).
  assert (BrokerIntegration.ToNumber StringToNumber
            (default VUndef (assoc Object_prototype plan)) = nan) as ->.
  { destruct (assoc Object_prototype plan) as [v|] eqn:E; [|done].
    by apply ToNumber_Object_prototype in E. }
  rewrite ltb_nan_r. split; [done|].
  intros (? & limit & _ & Hin & _).
  repeat (apply elem_of_cons in Hin as [[= ? ?]|Hin]; [congruence|]).
  by apply elem_of_nil in Hin.
Qed.

End Plans.
